(** * A shallow embedding of the VTE terminal core (src/vte.c)

    The development follows the C source function by function.  Values of
    type [glong], [gint] and [guint] that hold row and column numbers are
    modelled as [Z]; they are bounded by the amount of memory that holds the
    rows, so signed overflow is not considered.  The one place where the
    source relies on a conversion between signed and unsigned integers (the
    [(guint) tag] cast of the match table) has its wrap-around written out.

    The buffer object that the ring operations take ([terminal->term_pvt->buffer])
    shares the screen and the column count with the terminal.

    Pointers into the row ring ([VteRowData *row]) are modelled as absolute
    ring indices, pointers to cells as column numbers; a write through such a
    pointer is a functional update at that index.  Painting and signal
    emission ([_vte_invalidate_cells], [_vte_terminal_scroll_region], the
    adjustment-changed queue) only touch the widget and are left out. *)

From stdpp Require Import base numbers list strings gmap.

Open Scope Z_scope.

(** ** Cells (vterowdata.h) *)

(** Modelled from the spec: the attribute bits of a cell ([VteCellAttr] is
    declared in vterowdata.h, which is not part of the sources at hand).
    [columns] is 0, 1 or 2 for characters and is also used for tabs. *)
Record VteCellAttr := mkAttr {
  attr_fragment : bool;
  attr_columns : Z;
  attr_bold : bool;
  attr_fore : Z;
  attr_back : Z;
  attr_standout : bool;
  attr_underline : bool;
  attr_strikethrough : bool;
  attr_reverse : bool;
  attr_blink : bool;
  attr_half : bool;
  attr_invisible : bool
}.

Record VteCell := mkCell {
  cell_c : Z;               (* the unistr of the cell *)
  cell_attr : VteCellAttr
}.

Global Instance VteCellAttr_eq_dec : EqDecision VteCellAttr.
Proof. solve_decision. Defined.

Global Instance VteCell_eq_dec : EqDecision VteCell.
Proof. solve_decision. Defined.

(** Modelled from the spec: the palette has 256 colours followed by the
    special slots, default foreground and default background first
    (vte-private.h is not part of the sources at hand). *)
Definition VTE_DEF_FG : Z := 256.
Definition VTE_DEF_BG : Z := 257.

(** Modelled from the spec: [basic_cell] (vterowdata.h), the default blank
    cell; [_vte_screen_set_default_attributes] resets the three attribute
    defaults of a screen to it. *)
Definition basic_cell : VteCell :=
  mkCell 0 (mkAttr false 1 false VTE_DEF_FG VTE_DEF_BG
                   false false false false false false false).

Definition set_attr_columns (n : Z) (a : VteCellAttr) : VteCellAttr :=
  mkAttr (attr_fragment a) n (attr_bold a) (attr_fore a) (attr_back a)
         (attr_standout a) (attr_underline a) (attr_strikethrough a)
         (attr_reverse a) (attr_blink a) (attr_half a) (attr_invisible a).

Definition set_attr_fragment (b : bool) (a : VteCellAttr) : VteCellAttr :=
  mkAttr b (attr_columns a) (attr_bold a) (attr_fore a) (attr_back a)
         (attr_standout a) (attr_underline a) (attr_strikethrough a)
         (attr_reverse a) (attr_blink a) (attr_half a) (attr_invisible a).

Definition set_attr_underline (b : bool) (a : VteCellAttr) : VteCellAttr :=
  mkAttr (attr_fragment a) (attr_columns a) (attr_bold a) (attr_fore a)
         (attr_back a) (attr_standout a) b (attr_strikethrough a)
         (attr_reverse a) (attr_blink a) (attr_half a) (attr_invisible a).

(** [cell->attr.columns = n] *)
Definition set_cell_columns (n : Z) (cell : VteCell) : VteCell :=
  mkCell (cell_c cell) (set_attr_columns n (cell_attr cell)).

(** [cell->c = u] *)
Definition set_cell_c (u : Z) (cell : VteCell) : VteCell :=
  mkCell u (cell_attr cell).

Definition cell_fragment (cell : VteCell) : bool :=
  attr_fragment (cell_attr cell).

Definition cell_columns (cell : VteCell) : Z :=
  attr_columns (cell_attr cell).

(** ** Rows (vterowdata.c) *)

Record VteRowData := mkRow {
  cells : list VteCell;
  soft_wrapped : bool
}.

Global Instance VteRowData_eq_dec : EqDecision VteRowData.
Proof. solve_decision. Defined.

Definition set_cells (l : list VteCell) (row : VteRowData) : VteRowData :=
  mkRow l (soft_wrapped row).

(** [row->attr.soft_wrapped = b] *)
Definition set_soft_wrapped (b : bool) (row : VteRowData) : VteRowData :=
  mkRow (cells row) b.

Definition empty_row : VteRowData := mkRow [] false.

Definition _vte_row_data_length (row : VteRowData) : Z :=
  Z.of_nat (length (cells row)).

(** Modelled from the spec: the row helpers of vterowdata.c, which is not
    part of the sources at hand.  [_vte_row_data_get] returns the cell at
    [col], or NULL past the stored length (trailing cells are elided). *)
Definition _vte_row_data_get (row : VteRowData) (col : Z) : option VteCell :=
  if col <? 0 then None else cells row !! Z.to_nat col.

(** Modelled from the spec: [_vte_row_data_fill] pads the row with copies of
    [cell] until it is [len] cells long; a row that is long enough is left as
    it is. *)
Definition _vte_row_data_fill (row : VteRowData) (cell : VteCell) (len : Z)
  : VteRowData :=
  set_cells (cells row ++ replicate (Z.to_nat len - length (cells row))%nat cell)
            row.

(** Modelled from the spec: [_vte_row_data_insert] opens one cell at [col],
    moving the cells from [col] on one place to the right. *)
Definition _vte_row_data_insert (row : VteRowData) (col : Z) (cell : VteCell)
  : VteRowData :=
  set_cells (take (Z.to_nat col) (cells row) ++ cell :: drop (Z.to_nat col) (cells row))
            row.

(** Modelled from the spec: [_vte_row_data_shrink] cuts the row down to at
    most [max_len] cells. *)
Definition _vte_row_data_shrink (row : VteRowData) (max_len : Z) : VteRowData :=
  set_cells (take (Z.to_nat max_len) (cells row)) row.

(** A write through [_vte_row_data_get_writable (row, col)]. The source
    dereferences the pointer without a check at the places that use this;
    the padding done before makes the column exist (see [pad_row_length]). *)
Definition row_alter (f : VteCell -> VteCell) (col : Z) (row : VteRowData)
  : VteRowData :=
  if col <? 0 then row else set_cells (alter f (Z.to_nat col) (cells row)) row.

(** ** The row ring (ring.c) *)

(** Modelled from the spec: the ring of rows (ring.c is not part of the
    sources at hand): the rows [delta .. next-1] are retained, at most
    [ring_max] of them. *)
Record VteRing := mkRing {
  ring_delta : Z;
  ring_rows : list VteRowData;
  ring_max : Z
}.

Definition _vte_ring_delta (r : VteRing) : Z := ring_delta r.

Definition _vte_ring_length (r : VteRing) : Z := Z.of_nat (length (ring_rows r)).

Definition _vte_ring_next (r : VteRing) : Z := ring_delta r + _vte_ring_length r.

Definition _vte_ring_contains (r : VteRing) (i : Z) : bool :=
  (ring_delta r <=? i) && (i <? _vte_ring_next r).

Definition _vte_ring_index (r : VteRing) (i : Z) : option VteRowData :=
  if _vte_ring_contains r i then ring_rows r !! Z.to_nat (i - ring_delta r)
  else None.

(** A write through [_vte_ring_index_writable (ring, i)]. *)
Definition ring_alter (f : VteRowData -> VteRowData) (i : Z) (r : VteRing)
  : VteRing :=
  if _vte_ring_contains r i
  then mkRing (ring_delta r) (alter f (Z.to_nat (i - ring_delta r)) (ring_rows r))
              (ring_max r)
  else r.

(** Modelled from the spec: a full ring drops its oldest row and [delta]
    goes up by one ("increments delta when full"). *)
Definition ring_discard_one_row (r : VteRing) : VteRing :=
  mkRing (ring_delta r + 1) (drop 1 (ring_rows r)) (ring_max r).

Definition ring_maybe_discard_one_row (r : VteRing) : VteRing :=
  if _vte_ring_length r =? ring_max r then ring_discard_one_row r else r.

(** Modelled from the spec: insert at an interior position.  Room is made
    first, then an empty row is opened at [position] and the rows from
    there on move down by one; [next] goes up by one. *)
Definition _vte_ring_insert (r : VteRing) (position : Z) : VteRing :=
  let r1 := ring_maybe_discard_one_row r in
  let k := Z.to_nat (position - ring_delta r1) in
  mkRing (ring_delta r1)
         (take k (ring_rows r1) ++ empty_row :: drop k (ring_rows r1))
         (ring_max r1).

(** Modelled from the spec: "append (increments next, and increments delta
    when full)". *)
Definition _vte_ring_append (r : VteRing) : VteRing :=
  _vte_ring_insert r (_vte_ring_next r).

(** Modelled from the spec: remove at an interior position; the rows below
    move up by one and [next] goes down by one.  A position outside the ring
    removes nothing. *)
Definition _vte_ring_remove (r : VteRing) (position : Z) : VteRing :=
  if _vte_ring_contains r position
  then mkRing (ring_delta r)
              (delete (Z.to_nat (position - ring_delta r)) (ring_rows r))
              (ring_max r)
  else r.

(** ** Screens and the terminal (vte-private.h) *)

Record VteVisualPosition := mkPos {
  pos_row : Z;
  pos_col : Z
}.

Record VteScrollingRegion := mkRegion {
  region_start : Z;
  region_end : Z
}.

Record VteScreen := mkScreen {
  row_data : VteRing;
  cursor_current : VteVisualPosition;
  insert_delta : Z;
  scroll_delta : Z;
  scrolling_restricted : bool;
  scrolling_region : VteScrollingRegion;
  defaults : VteCell;
  color_defaults : VteCell;
  fill_defaults : VteCell;
  insert_mode : bool;
  alternate_charset : bool;
  status_line : bool;
  status_line_changed : bool;
  status_line_contents : list Z
}.

(** The termcap booleans kept in [terminal->pvt->flags]. *)
Record VteFlags := mkFlags {
  flags_am : bool;
  flags_xn : bool;
  flags_ul : bool
}.

(** The part of [VteTerminalPrivate] that the insertion engine reads and
    writes. *)
Record VteTerminal := mkTerminal {
  screen : VteScreen;
  row_count : Z;
  column_count : Z;
  flags : VteFlags;
  text_inserted_flag : bool
}.

Definition set_row_data (r : VteRing) (s : VteScreen) : VteScreen :=
  mkScreen r (cursor_current s) (insert_delta s) (scroll_delta s)
    (scrolling_restricted s) (scrolling_region s) (defaults s)
    (color_defaults s) (fill_defaults s) (insert_mode s) (alternate_charset s)
    (status_line s) (status_line_changed s) (status_line_contents s).

Definition set_cursor_current (p : VteVisualPosition) (s : VteScreen) : VteScreen :=
  mkScreen (row_data s) p (insert_delta s) (scroll_delta s)
    (scrolling_restricted s) (scrolling_region s) (defaults s)
    (color_defaults s) (fill_defaults s) (insert_mode s) (alternate_charset s)
    (status_line s) (status_line_changed s) (status_line_contents s).

Definition set_insert_delta (d : Z) (s : VteScreen) : VteScreen :=
  mkScreen (row_data s) (cursor_current s) d (scroll_delta s)
    (scrolling_restricted s) (scrolling_region s) (defaults s)
    (color_defaults s) (fill_defaults s) (insert_mode s) (alternate_charset s)
    (status_line s) (status_line_changed s) (status_line_contents s).

Definition set_scroll_delta (d : Z) (s : VteScreen) : VteScreen :=
  mkScreen (row_data s) (cursor_current s) (insert_delta s) d
    (scrolling_restricted s) (scrolling_region s) (defaults s)
    (color_defaults s) (fill_defaults s) (insert_mode s) (alternate_charset s)
    (status_line s) (status_line_changed s) (status_line_contents s).

(** [g_string_append_unichar (status_line_contents, c);
     status_line_changed = TRUE] *)
Definition status_line_append (u : Z) (s : VteScreen) : VteScreen :=
  mkScreen (row_data s) (cursor_current s) (insert_delta s) (scroll_delta s)
    (scrolling_restricted s) (scrolling_region s) (defaults s)
    (color_defaults s) (fill_defaults s) (insert_mode s) (alternate_charset s)
    (status_line s) true (status_line_contents s ++ [u]).

Definition set_screen (s : VteScreen) (t : VteTerminal) : VteTerminal :=
  mkTerminal s (row_count t) (column_count t) (flags t) (text_inserted_flag t).

Definition set_text_inserted_flag (b : bool) (t : VteTerminal) : VteTerminal :=
  mkTerminal (screen t) (row_count t) (column_count t) (flags t) b.

Definition cursor_row (t : VteTerminal) : Z := pos_row (cursor_current (screen t)).
Definition cursor_col (t : VteTerminal) : Z := pos_col (cursor_current (screen t)).

(** [screen->cursor_current.row = v] *)
Definition set_cursor_row (v : Z) (t : VteTerminal) : VteTerminal :=
  set_screen (set_cursor_current (mkPos v (cursor_col t)) (screen t)) t.

(** [screen->cursor_current.col = v] *)
Definition set_cursor_col (v : Z) (t : VteTerminal) : VteTerminal :=
  set_screen (set_cursor_current (mkPos (cursor_row t) v) (screen t)) t.

Definition ring (t : VteTerminal) : VteRing := row_data (screen t).

Definition set_ring (r : VteRing) (t : VteTerminal) : VteTerminal :=
  set_screen (set_row_data r (screen t)) t.

(** A write to the row that a [VteRowData *] obtained at ring index [i]
    points to. *)
Definition modify_row (f : VteRowData -> VteRowData) (i : Z) (t : VteTerminal)
  : VteTerminal :=
  set_ring (ring_alter f i (ring t)) t.

(** The row at ring index [i], as [_vte_screen_find_row_data] finds it. *)
Definition _vte_screen_find_row_data (s : VteScreen) (row : Z) : option VteRowData :=
  _vte_ring_index (row_data s) row.

(** [vte_screen_find_charcell] *)
Definition vte_screen_find_charcell (s : VteScreen) (col row : Z) : option VteCell :=
  match _vte_ring_index (row_data s) row with
  | Some rowdata => _vte_row_data_get rowdata col
  | None => None
  end.

(** ** Ring operations of the buffer (vte.c, lines 291-326) *)

(** One turn of the loop of [_vte_buffer_ring_insert]: append a row and fill
    it with [fill_defaults]. *)
Definition ring_append_filled (fill : VteCell) (width : Z) (r : VteRing) : VteRing :=
  let pos := _vte_ring_next r in
  ring_alter (fun row => _vte_row_data_fill row fill width) pos
             (_vte_ring_append r).

(** [_vte_buffer_ring_insert]: rows are appended while [next < position]
    (each turn raises [next] by one, so the loop runs [position - next]
    times), then the row is inserted and filled on request. *)
Definition _vte_buffer_ring_insert (t : VteTerminal) (position : Z) (fill : bool)
  : VteTerminal :=
  let fd := fill_defaults (screen t) in
  let r0 := ring t in
  let r1 := Nat.iter (Z.to_nat (position - _vte_ring_next r0))
                     (ring_append_filled fd (column_count t)) r0 in
  let r2 := _vte_ring_insert r1 position in
  let r3 := if fill
            then ring_alter (fun row => _vte_row_data_fill row fd (column_count t))
                            position r2
            else r2 in
  set_ring r3 t.

Definition _vte_buffer_ring_append (t : VteTerminal) (fill : bool) : VteTerminal :=
  _vte_buffer_ring_insert t (_vte_ring_next (ring t)) fill.

Definition _vte_buffer_ring_remove (t : VteTerminal) (position : Z) : VteTerminal :=
  set_ring (_vte_ring_remove (ring t) position) t.

(** ** Adjustments and row allocation (vte.c, lines 1791-1816, 2036-2120) *)

(** [_vte_terminal_adjust_adjustments]: snap [insert_delta] and the cursor
    row into the ring; [vte_terminal_queue_adjustment_value_changed] stores
    its argument in [scroll_delta]. *)
Definition _vte_terminal_adjust_adjustments (t : VteTerminal) : VteTerminal :=
  let delta := _vte_ring_delta (ring t) in
  let t1 := set_screen (set_insert_delta (Z.max (insert_delta (screen t)) delta)
                                         (screen t)) t in
  let t2 := set_cursor_row (Z.max (cursor_row t1) (insert_delta (screen t1))) t1 in
  if scroll_delta (screen t2) >? insert_delta (screen t2)
  then set_screen (set_scroll_delta (insert_delta (screen t2)) (screen t2)) t2
  else t2.

(** [vte_terminal_insert_rows]: a [do ... while (--cnt)] loop of appends. *)
Definition vte_terminal_insert_rows (t : VteTerminal) (cnt : Z) : VteTerminal :=
  Nat.iter (Z.to_nat cnt) (fun t' => _vte_buffer_ring_append t' false) t.

(** [_vte_terminal_ensure_row]: the terminal afterwards and the ring index
    of the row that the returned pointer refers to. *)
Definition _vte_terminal_ensure_row (t : VteTerminal) : VteTerminal * Z :=
  let v := cursor_row t in
  let delta := v - _vte_ring_next (ring t) + 1 in
  if delta >? 0
  then (_vte_terminal_adjust_adjustments (vte_terminal_insert_rows t delta), v)
  else (t, v).

(** [vte_terminal_ensure_cursor] *)
Definition vte_terminal_ensure_cursor (t : VteTerminal) : VteTerminal * Z :=
  let '(t1, r) := _vte_terminal_ensure_row t in
  (modify_row (fun row => _vte_row_data_fill row basic_cell (cursor_col t1)) r t1, r).

(** [_vte_terminal_update_insert_delta] *)
Definition _vte_terminal_update_insert_delta (t : VteTerminal) : VteTerminal :=
  let rows := _vte_ring_next (ring t) in
  let delta := cursor_row t - rows + 1 in
  let t1 := if delta >? 0 then vte_terminal_insert_rows t delta else t in
  let rows := _vte_ring_next (ring t1) in
  let delta := insert_delta (screen t1) in
  let delta := Z.min delta (rows - row_count t1) in
  let delta := Z.max delta (cursor_row t1 - (row_count t1 - 1)) in
  let delta := Z.max delta (_vte_ring_delta (ring t1)) in
  if delta =? insert_delta (screen t1) then t1
  else _vte_terminal_adjust_adjustments
         (set_screen (set_insert_delta delta (screen t1)) t1).

(** ** Walking over the cells of a row *)

(** The loop [while (col > 0 && cell != NULL && cell->attr.fragment)
    cell = _vte_row_data_get_writable (row, --col);] started at [col]: the
    column where it stops. *)
Fixpoint back_over_fragments (l : list VteCell) (col : nat) : nat :=
  match col with
  | O => O
  | S p =>
      match l !! col with
      | Some cell => if cell_fragment cell then back_over_fragments l p else col
      | None => col
      end
  end.

(** The loop [for (i = 0; i < n; i++) { cell = get_writable (row, col++);
    if (!cell) break; *cell = v; }]. *)
Fixpoint fill_range (v : VteCell) (start n : nat) (l : list VteCell) : list VteCell :=
  match n with
  | O => l
  | S n' => fill_range v (S start) n' (<[start := v]> l)
  end.

(** The loop [for (i = 0; i < n; i++) { cell = get_writable (row, col++);
    cell->c = u; }]. *)
Fixpoint set_c_range (u : Z) (start n : nat) (l : list VteCell) : list VteCell :=
  match n with
  | O => l
  | S n' => set_c_range u (S start) n' (alter (set_cell_c u) start l)
  end.

(** The loop [while (cell != NULL && cell->attr.fragment) {
    cell->attr.columns = 1; cell->c = 0; cell = get_writable (row, ++col2); }]
    run on the cells from [col2] on. *)
Fixpoint blank_fragments (l : list VteCell) : list VteCell :=
  match l with
  | [] => []
  | cell :: l' =>
      if cell_fragment cell
      then set_cell_c 0 (set_cell_columns 1 cell) :: blank_fragments l'
      else l
  end.

(** ** Smart-tab cleanup (vte.c, lines 2281-2310) *)

Definition cleanup_tab_row (fd : VteCell) (col : Z) (row : VteRowData) : VteRowData :=
  match _vte_row_data_get row col with
  | Some pcell =>
      if cell_c pcell =? 9 (* '\t' *)
      then
        let col' := back_over_fragments (cells row) (Z.to_nat col) in
        match cells row !! col' with
        | Some cell =>
            set_cells (fill_range fd col' (Z.to_nat (cell_columns cell)) (cells row)) row
        | None => row
        end
      else row
  | None => row
  end.

Definition _vte_terminal_cleanup_tab_fragments_at_cursor (t : VteTerminal)
  : VteTerminal :=
  let '(t1, r) := _vte_terminal_ensure_row t in
  modify_row (cleanup_tab_row (fill_defaults (screen t1)) (cursor_col t1)) r t1.

(** ** Cursor down, with scrolling (vte.c, lines 2312-2384) *)

(** "Match xterm and fill to the end of row when scrolling": done when the
    background of [fill_defaults] is not the default one. *)
Definition xterm_fill_row (t : VteTerminal) : VteTerminal :=
  if attr_back (cell_attr (fill_defaults (screen t))) =? VTE_DEF_BG then t
  else
    let '(t1, r) := _vte_terminal_ensure_row t in
    modify_row (fun row => _vte_row_data_fill row (fill_defaults (screen t1))
                                              (column_count t1)) r t1.

(** The branch "scroll this line into the scrollback buffer". *)
Definition cursor_down_into_scrollback (t : VteTerminal) : VteTerminal :=
  let s := screen t in
  let s1 := set_cursor_current
              (mkPos (pos_row (cursor_current s) + 1) (pos_col (cursor_current s)))
              (set_scroll_delta (scroll_delta s + 1)
                 (set_insert_delta (insert_delta s + 1) s)) in
  let t1 := set_screen s1 t in
  _vte_terminal_adjust_adjustments (_vte_buffer_ring_insert t1 (cursor_row t1) false).

(** The branch "add a line at the [bottom] to scroll the [top] off". *)
Definition cursor_down_in_region (start end_ : Z) (t : VteTerminal) : VteTerminal :=
  _vte_buffer_ring_insert (_vte_buffer_ring_remove t start) end_ true.

Definition _vte_terminal_cursor_down (t : VteTerminal) : VteTerminal :=
  let s := screen t in
  let start := if scrolling_restricted s
               then insert_delta s + region_start (scrolling_region s)
               else insert_delta s in
  let end_ := if scrolling_restricted s
              then insert_delta s + region_end (scrolling_region s)
              else start + row_count t - 1 in
  if cursor_row t =? end_ then
    let t1 := xterm_fill_row t in
    let t2 :=
      if scrolling_restricted (screen t1) then
        if start =? insert_delta (screen t1)
        then cursor_down_into_scrollback t1
        else cursor_down_in_region start end_ t1
      else _vte_terminal_update_insert_delta (set_cursor_row (cursor_row t1 + 1) t1) in
    xterm_fill_row t2
  else set_cursor_row (cursor_row t + 1) t.

(** ** Inserting a character (vte.c, lines 2386-2621) *)

(** The decoder and the combining-sequence table are separate objects
    (iso2022.c, vteunistr.c); the insertion engine only calls them. *)
Record VteIso2022 := mkIso2022 {
  (* _vte_iso2022_process_single (iso2022, c, '0') *)
  iso2022_process_single : Z -> Z;
  (* VTE_ISO2022_HAS_ENCODED_WIDTH (c) *)
  iso2022_has_encoded_width : Z -> bool;
  (* _vte_iso2022_get_encoded_width (c) *)
  iso2022_get_encoded_width : Z -> Z;
  (* c & ~VTE_ISO2022_ENCODED_WIDTH_MASK *)
  iso2022_strip_encoded_width : Z -> Z;
  (* _vte_iso2022_unichar_width (iso2022, c) *)
  iso2022_unichar_width : Z -> Z;
  (* _vte_unistr_append_unichar (s, c) *)
  unistr_append_unichar : Z -> Z -> Z;
  (* _vte_unistr_get_base (s) *)
  unistr_get_base : Z -> Z
}.

(** [for (i = 0; i < columns; i++)
      _vte_row_data_insert (row, col + i, &screen->color_defaults);] *)
Fixpoint insert_cells (cd : VteCell) (n : nat) (col : Z) (row : VteRowData)
  : VteRowData :=
  match n with
  | O => row
  | S n' => insert_cells cd n' (col + 1) (_vte_row_data_insert row col cd)
  end.

(** Lines 2531-2536: room for the character. *)
Definition pad_row (insert : bool) (cd : VteCell) (col columns : Z)
    (row : VteRowData) : VteRowData :=
  if insert then insert_cells cd (Z.to_nat columns) col row
  else _vte_row_data_fill row basic_cell (col + columns).

(** Lines 2540-2546: the character that ends just before the cursor. *)
Definition break_wide_left (col : Z) (row : VteRowData) : VteRowData :=
  if col >? 0 then
    let col2 := Z.of_nat (back_over_fragments (cells row) (Z.to_nat (col - 1))) in
    row_alter (set_cell_columns (col - col2)) col2 row
  else row.

(** Lines 2547-2555: the fragments left over behind the new character. *)
Definition break_wide_right (col2 : Z) (row : VteRowData) : VteRowData :=
  if col2 <? 0 then row
  else set_cells (take (Z.to_nat col2) (cells row)
                    ++ blank_fragments (drop (Z.to_nat col2) (cells row))) row.

(** Lines 2560-2571: overstrike-style underlining. *)
Definition overstrike (ul : bool) (c : Z) (a : VteCellAttr) (pcell : option VteCell)
  : Z * VteCellAttr :=
  if (c =? 95 (* '_' *)) && ul then
    match pcell with
    | Some p =>
        if cell_c p =? 0 then (c, a)
        else (cell_c p,
              set_attr_underline true
                (set_attr_fragment (cell_fragment p)
                   (set_attr_columns (cell_columns p) a)))
    | None => (c, a)
    end
  else (c, a).

(** [for (i = 1; i < columns; i++) { pcell = get_writable (row, col);
    pcell->c = c; pcell->attr = attr; col++; }] *)
Fixpoint write_fragments (cell : VteCell) (n : nat) (col : Z) (row : VteRowData)
  : VteRowData :=
  match n with
  | O => row
  | S n' => write_fragments cell n' (col + 1) (row_alter (fun _ => cell) col row)
  end.

(** Lines 2557-2589: the character and its fragments are stored, and the
    row is cut to the width of the terminal. *)
Definition write_cells (t : VteTerminal) (c : Z) (col columns : Z)
    (row : VteRowData) : VteRowData :=
  let a := set_attr_columns columns (cell_attr (defaults (screen t))) in
  let '(c1, a1) := overstrike (flags_ul (flags t)) c a (_vte_row_data_get row col) in
  let row1 := row_alter (fun _ => mkCell c1 a1) col row in
  let row2 := write_fragments (mkCell c1 (set_attr_fragment true a1))
                              (Z.to_nat (columns - 1)) (col + 1) row1 in
  _vte_row_data_shrink row2 (column_count t).

(** What lines 2531-2589 do to the row under the cursor. *)
Definition insert_char_row (t : VteTerminal) (insert : bool) (c : Z)
    (col columns : Z) (row : VteRowData) : VteRowData :=
  write_cells t c col columns
    (break_wide_right (col + columns)
       (break_wide_left col
          (pad_row insert (color_defaults (screen t)) col columns row))).

(** The column after the character: [col++] once, and once per fragment. *)
Definition column_after (col columns : Z) : Z :=
  col + 1 + Z.of_nat (Z.to_nat (columns - 1)).

(** Lines 2428-2447: "If we're autowrapping here, do it."  The result is the
    terminal, the local [col] and [line_wrapped]. *)
Definition insert_char_autowrap_before (t : VteTerminal) (columns : Z)
  : VteTerminal * Z * bool :=
  let col := cursor_col t in
  if negb (columns =? 0) && (col + columns >? column_count t) then
    if flags_am (flags t) then
      let '(t1, r) := _vte_terminal_ensure_row (set_cursor_col 0 t) in
      (_vte_terminal_cursor_down (modify_row (set_soft_wrapped true) r t1), 0, true)
    else
      (set_cursor_col (column_count t - columns) t, column_count t - columns, true)
  else (t, col, false).

(** Lines 2525-2589: the character is stored at [col] of the row under the
    cursor; the result is the terminal and the ring index of that row. *)
Definition insert_char_store (t : VteTerminal) (insert : bool) (c : Z)
    (col columns : Z) : VteTerminal * Z :=
  let '(t1, r) := vte_terminal_ensure_cursor t in
  let t2 := _vte_terminal_cleanup_tab_fragments_at_cursor t1 in
  (modify_row (insert_char_row t2 insert c col columns) r t2, r).

(** Lines 2600-2610: the cursor moves behind the character; "If we're
    autowrapping *here*, do it." *)
Definition insert_char_autowrap_after (t : VteTerminal) (r : Z) (col columns : Z)
  : VteTerminal :=
  let col' := column_after col columns in
  let t1 := set_cursor_col col' t in
  if (col' >=? column_count t1)
     && flags_am (flags t1) && negb (flags_xn (flags t1))
  then _vte_terminal_cursor_down
         (modify_row (set_soft_wrapped true) r (set_cursor_col 0 t1))
  else t1.

Definition insert_char_write (t : VteTerminal) (insert : bool) (c : Z)
    (col columns : Z) : VteTerminal :=
  let '(t1, r) := insert_char_store t insert c col columns in
  insert_char_autowrap_after t1 r col columns.

(** Lines 2458-2523: a combining mark goes on top of the previous cell.
    [None] stands for [goto not_inserted]. *)
Definition insert_char_combining (iso : VteIso2022) (t : VteTerminal) (c : Z)
    (col : Z) : option VteTerminal :=
  let row_num := cursor_row t in
  let found :=
    if col =? 0 then
      if row_num >? 0 then
        match _vte_screen_find_row_data (screen t) (row_num - 1) with
        | Some row =>
            if soft_wrapped row
            then Some (row_num - 1, row, _vte_row_data_length row)
            else None
        | None => None
        end
      else None
    else
      match _vte_screen_find_row_data (screen t) row_num with
      | Some row => Some (row_num, row, col)
      | None => None
      end in
  match found with
  | None => None
  | Some (row_num, row, col) =>
      if col =? 0 then None
      else
        match _vte_row_data_get row (col - 1) with
        | None => None
        | Some _ =>
            let col1 := back_over_fragments (cells row) (Z.to_nat (col - 1)) in
            match cells row !! col1 with
            | None => None
            | Some cell =>
                if cell_c cell =? 9 (* '\t' *) then None
                else
                  let c1 := unistr_append_unichar iso (cell_c cell) c in
                  Some (modify_row
                          (fun row' =>
                             set_cells
                               (set_c_range c1 col1 (Z.to_nat (cell_columns cell))
                                            (cells row'))
                               row')
                          row_num t)
            end
        end
  end.

(** Lines 2402-2410: the special drawing set. *)
Definition charset_substitute (iso : VteIso2022) (s : VteScreen) (c : Z) : Z :=
  if alternate_charset s then iso2022_process_single iso c else c.

(** Lines 2419-2425: the character without its encoded width, and the
    number of columns it occupies. *)
Definition character_width (iso : VteIso2022) (c : Z) : Z * Z :=
  if iso2022_has_encoded_width iso c
  then (iso2022_strip_encoded_width iso c, iso2022_get_encoded_width iso c)
  else (c, iso2022_unichar_width iso c).

(** [_vte_terminal_insert_char]: [line_wrapped] and the terminal afterwards. *)
Definition _vte_terminal_insert_char (iso : VteIso2022) (t : VteTerminal) (c : Z)
    (insert : bool) : bool * VteTerminal :=
  let insert := insert || insert_mode (screen t) in
  let c := charset_substitute iso (screen t) c in
  if status_line (screen t) then
    (false, set_screen (status_line_append c (screen t)) t)
  else
    let '(c, columns) := character_width iso c in
    let '(t1, col, line_wrapped) := insert_char_autowrap_before t columns in
    if columns =? 0 then
      match insert_char_combining iso t1 c col with
      | Some t2 => (line_wrapped, set_text_inserted_flag true t2)
      | None => (line_wrapped, t1)
      end
    else
      (line_wrapped,
       set_text_inserted_flag true (insert_char_write t1 insert c col columns)).

(** ** Word characters (vte.c, lines 4846-4910) *)

Record VteWordCharRange := mkRange {
  range_start : Z;
  range_end : Z
}.

(** The Unicode classification of GLib that [vte_terminal_is_word_char]
    falls back on. *)
Record GUnichar := mkGUnichar {
  g_unichar_isgraph : Z -> bool;
  g_unichar_ispunct : Z -> bool;
  g_unichar_isspace : Z -> bool
}.

(** The loop over [terminal->pvt->word_chars]: is [c] inside one of the
    ranges? *)
Fixpoint in_word_char_ranges (ranges : list VteWordCharRange) (c : Z) : bool :=
  match ranges with
  | [] => false
  | range :: rest =>
      if (c >=? range_start range) && (c <=? range_end range) then true
      else in_word_char_ranges rest c
  end.

(** The fallback on the Unicode properties. *)
Definition unicode_word_char (u : GUnichar) (c : Z) : bool :=
  g_unichar_isgraph u c && negb (g_unichar_ispunct u c)
  && negb (g_unichar_isspace u c) && negb (c =? 0).

(** [vte_terminal_is_word_char]; [word_chars] is [None] for a NULL array. *)
Definition vte_terminal_is_word_char (u : GUnichar)
    (word_chars : option (list VteWordCharRange)) (c : Z) : bool :=
  let in_ranges := match word_chars with
                   | Some ranges => in_word_char_ranges ranges c
                   | None => false
                   end in
  if in_ranges then true
  else
    ((c >=? 128)
     || match word_chars with
        | None => true
        | Some ranges => (length ranges =? 0)%nat
        end)
    && unicode_word_char u c.

(** [vte_same_class] *)
Definition vte_same_class (iso : VteIso2022) (u : GUnichar)
    (word_chars : option (list VteWordCharRange)) (s : VteScreen)
    (acol arow bcol brow : Z) : bool :=
  match vte_screen_find_charcell s acol arow with
  | Some pcell =>
      if cell_c pcell =? 0 then false
      else
        let word_char :=
          vte_terminal_is_word_char u word_chars (unistr_get_base iso (cell_c pcell)) in
        (* Lets not group non-wordchars together (bug #25290) *)
        if negb word_char then false
        else
          match vte_screen_find_charcell s bcol brow with
          | None => false
          | Some pcell' =>
              if cell_c pcell' =? 0 then false
              else
                if negb (eqb word_char
                           (vte_terminal_is_word_char u word_chars
                              (unistr_get_base iso (cell_c pcell'))))
                then false
                else true
          end
  | None => false
  end.

(** Is [c] inside one of the ranges of the table, if there is one? *)
Definition in_word_chars (wc : option (list VteWordCharRange)) (c : Z) : bool :=
  match wc with
  | Some ranges => in_word_char_ranges ranges c
  | None => false
  end.

(** The characters of two cells are word characters. *)
Definition both_word_chars (iso : VteIso2022) (u : GUnichar)
    (wc : option (list VteWordCharRange)) (a b : VteCell) : bool :=
  vte_terminal_is_word_char u wc (unistr_get_base iso (cell_c a))
  && vte_terminal_is_word_char u wc (unistr_get_base iso (cell_c b)).

(** ** The match engine (vte.c, lines 1086-1696 and 5276-5302) *)

(** How a match table entry names its mouse cursor: the [cursor_mode] tag
    together with the member of the [cursor] union that it selects. *)
Inductive vte_regex_cursor :=
  | VTE_REGEX_CURSOR_GDKCURSOR (cursor : option Z)
  | VTE_REGEX_CURSOR_GDKCURSORTYPE (cursor_type : Z)
  | VTE_REGEX_CURSOR_NAME (cursor_name : option string).

(** The events of the match engine that a caller can tell apart by their
    cost: rebuilding the projection of the screen, and running the table of
    regexes over a line of it. *)
Inductive match_event :=
  | ContentsRefreshed
  | RegexesScanned.

Record VteCharAttributes := mkCharAttributes {
  ca_row : Z;
  ca_column : Z
}.

Section MatchEngine.

(** A compiled [GRegex] belongs to GLib. *)
Variable GRegex : Type.

(** [VTE_DEFAULT_CURSOR], a GDK cursor type named in vte-private.h. *)
Variable VTE_DEFAULT_CURSOR : Z.

Record vte_match_regex := mkMatchRegex {
  mr_regex : option GRegex;
  mr_match_flags : Z;
  mr_tag : Z;
  mr_cursor : vte_regex_cursor
}.

(** The part of [VteTerminalPrivate] that the match engine reads and
    writes. *)
Record VteMatch := mkMatch {
  match_regexes : list vte_match_regex;
  match_contents : option string;
  match_attributes : option (list VteCharAttributes);
  match_start : VteVisualPosition;
  match_end : VteVisualPosition;
  match_tag : Z;
  match_ : option string;       (* [terminal->pvt->match] *)
  show_match : bool
}.

Definition set_match_regexes (l : list vte_match_regex) (m : VteMatch) : VteMatch :=
  mkMatch l (match_contents m) (match_attributes m) (match_start m) (match_end m)
          (match_tag m) (match_ m) (show_match m).

(** [regex_match_clear_cursor] *)
Definition regex_match_clear_cursor (cur : vte_regex_cursor) : vte_regex_cursor :=
  match cur with
  | VTE_REGEX_CURSOR_GDKCURSOR _ => VTE_REGEX_CURSOR_GDKCURSOR None
  | VTE_REGEX_CURSOR_GDKCURSORTYPE ty => VTE_REGEX_CURSOR_GDKCURSORTYPE ty
  | VTE_REGEX_CURSOR_NAME _ => VTE_REGEX_CURSOR_NAME None
  end.

(** [regex_match_clear]: the entry becomes a hole. *)
Definition regex_match_clear (regex : vte_match_regex) : vte_match_regex :=
  mkMatchRegex None (mr_match_flags regex) (-1)
               (regex_match_clear_cursor (mr_cursor regex)).

(** [vte_terminal_match_hilite_clear] *)
Definition vte_terminal_match_hilite_clear (m : VteMatch) : VteMatch :=
  mkMatch (match_regexes m) (match_contents m) (match_attributes m)
          (mkPos (-1) (-1)) (mkPos (-2) (-2)) (-1) None false.

(** The conversion [(guint) tag] of an [int]. *)
Definition to_guint (tag : Z) : Z := tag mod 2 ^ 32.

(** [vte_terminal_match_remove].  The table is far shorter than [2^31]
    entries, so a tag that passes the length test is not negative and
    [g_array_index] reads the entry at [tag]. *)
Definition vte_terminal_match_remove (m : VteMatch) (tag : Z) : VteMatch :=
  if Z.of_nat (length (match_regexes m)) >? to_guint tag then
    match match_regexes m !! Z.to_nat tag with
    | Some regex =>
        if mr_tag regex <? 0 then m
        else vte_terminal_match_hilite_clear
               (set_match_regexes
                  (<[Z.to_nat tag := regex_match_clear regex]> (match_regexes m)) m)
    | None => vte_terminal_match_hilite_clear m
    end
  else vte_terminal_match_hilite_clear m.

(** "Search for a hole": the loop [for (ret = 0; ret < len; ret++)
    if (regex_match->tag == -1) break;] run on the entries from [ret] on. *)
Fixpoint search_hole (l : list vte_match_regex) (ret : nat) : nat :=
  match l with
  | [] => ret
  | regex_match :: rest =>
      if mr_tag regex_match =? -1 then ret else search_hole rest (S ret)
  end.

(** [vte_terminal_match_add_gregex]: the tag and the terminal afterwards. *)
Definition vte_terminal_match_add_gregex (m : VteMatch) (regex : GRegex)
    (flags : Z) : Z * VteMatch :=
  let ret := search_hole (match_regexes m) 0 in
  let new_regex_match :=
    mkMatchRegex (Some regex) flags (Z.of_nat ret)
                 (VTE_REGEX_CURSOR_GDKCURSORTYPE VTE_DEFAULT_CURSOR) in
  if (ret <? length (match_regexes m))%nat
  then (mr_tag new_regex_match,
        set_match_regexes (<[ret := new_regex_match]> (match_regexes m)) m)
  else (mr_tag new_regex_match,
        set_match_regexes (match_regexes m ++ [new_regex_match]) m).

(** [vte_terminal_get_text] with [always_selected]: the projection of the
    screen and its attributes (the selection engine, lines 5560-5700). *)
Variable vte_terminal_get_text : VteTerminal -> string * list VteCharAttributes.

(** [vte_terminal_match_check_internal_gregex]: the scan of the projected
    line under the pointer with every regex of the table (GRegex does the
    matching): the matched text, the tag, and the bounds [start] and [end]. *)
Variable vte_terminal_match_check_internal_gregex :
  VteMatch -> Z -> Z -> option string * Z * Z * Z.

(** [vte_terminal_match_contents_clear] *)
Definition vte_terminal_match_contents_clear (m : VteMatch) : VteMatch :=
  vte_terminal_match_hilite_clear
    (mkMatch (match_regexes m) None None (match_start m) (match_end m)
             (match_tag m) (match_ m) (show_match m)).

(** [vte_terminal_match_contents_refresh] *)
Definition vte_terminal_match_contents_refresh (t : VteTerminal) (m : VteMatch)
  : VteMatch :=
  let m1 := vte_terminal_match_contents_clear m in
  let '(text, array) := vte_terminal_get_text t in
  mkMatch (match_regexes m1) (Some text) (Some array) (match_start m1)
          (match_end m1) (match_tag m1) (match_ m1) (show_match m1).

(** [vte_terminal_match_check_internal], with the work it does. *)
Definition vte_terminal_match_check_internal (t : VteTerminal) (m : VteMatch)
    (column row : Z) : (option string * Z * Z * Z) * VteMatch * list match_event :=
  let '(m1, ev) := match match_contents m with
                   | None => (vte_terminal_match_contents_refresh t m,
                              [ContentsRefreshed])
                   | Some _ => (m, [])
                   end in
  (vte_terminal_match_check_internal_gregex m1 column row, m1,
   ev ++ [RegexesScanned]).

(** [rowcol_inside_match] *)
Definition rowcol_inside_match (m : VteMatch) (row col : Z) : bool :=
  if pos_row (match_start m) =? pos_row (match_end m) then
    (row =? pos_row (match_start m))
    && (col >=? pos_col (match_start m))
    && (col <=? pos_col (match_end m))
  else
    if (row <? pos_row (match_start m)) || (row >? pos_row (match_end m))
    then false
    else if row =? pos_row (match_start m) then col >=? pos_col (match_start m)
    else if row =? pos_row (match_end m) then col <=? pos_col (match_end m)
    else true.

(** [vte_terminal_match_check] with a non-NULL [tag]: the returned string,
    the value left in [*tag], the terminal afterwards and the work done. *)
Definition vte_terminal_match_check (t : VteTerminal) (m : VteMatch)
    (column row : Z) : option string * Z * VteMatch * list match_event :=
  let delta := scroll_delta (screen t) in
  if rowcol_inside_match m (row + delta) column then
    (* g_strdup (terminal->pvt->match), or NULL *)
    (match_ m, match_tag m, m, [])
  else
    let '((ret, tag, _, _), m1, ev) :=
      vte_terminal_match_check_internal t m column (row + delta) in
    (ret, tag, m1, ev).

End MatchEngine.

Arguments mkMatchRegex {GRegex}.
Arguments mr_regex {GRegex}.
Arguments mr_match_flags {GRegex}.
Arguments mr_tag {GRegex}.
Arguments mr_cursor {GRegex}.
Arguments mkMatch {GRegex}.
Arguments match_regexes {GRegex}.
Arguments match_contents {GRegex}.
Arguments match_attributes {GRegex}.
Arguments match_start {GRegex}.
Arguments match_end {GRegex}.
Arguments match_tag {GRegex}.
Arguments match_ {GRegex}.
Arguments show_match {GRegex}.
Arguments set_match_regexes {GRegex}.
Arguments regex_match_clear {GRegex}.
Arguments vte_terminal_match_hilite_clear {GRegex}.
Arguments vte_terminal_match_remove {GRegex}.
Arguments search_hole {GRegex}.
Arguments vte_terminal_match_add_gregex {GRegex}.
Arguments vte_terminal_match_contents_clear {GRegex}.
Arguments vte_terminal_match_contents_refresh {GRegex}.
Arguments vte_terminal_match_check_internal {GRegex}.
Arguments rowcol_inside_match {GRegex}.
Arguments vte_terminal_match_check {GRegex}.

(** ** Cursor left *)

(** Modelled from the spec: backspace (the handler lives in vteseq.c, which
    is not part of the sources at hand) moves the cursor back by one column
    and stays in the first column. *)
Definition backspace (t : VteTerminal) : VteTerminal :=
  if cursor_col t >? 0 then set_cursor_col (cursor_col t - 1) t else t.

(** The ring holds no more rows than it has room for. *)
Definition ring_wf (r : VteRing) : Prop :=
  0 < ring_max r /\ _vte_ring_length r <= ring_max r.

(** What one append does to the ring: [next] goes up by one, [delta] only as
    far as the room of the ring forces it, and the rows that are kept stay
    where they are. *)
Definition ring_step_ok (g : VteRing -> VteRing) : Prop :=
  forall r, ring_wf r ->
    ring_wf (g r)
    /\ ring_max (g r) = ring_max r
    /\ _vte_ring_next (g r) = _vte_ring_next r + 1
    /\ ring_delta r <= ring_delta (g r)
    /\ ring_delta (g r) <= Z.max (ring_delta r) (_vte_ring_next (g r) - ring_max r)
    /\ (forall i, ring_delta (g r) <= i < _vte_ring_next r ->
          _vte_ring_index (g r) i = _vte_ring_index r i).



(** Two rows that differ at most in the cell of column [k]. *)
Definition agree_except (k : nat) (a b : VteRowData) : Prop :=
  soft_wrapped a = soft_wrapped b
  /\ take k (cells a) = take k (cells b)
  /\ drop (S k) (cells a) = drop (S k) (cells b)
  /\ (k < length (cells a))%nat
  /\ (k < length (cells b))%nat.

(** What lines 2540-2546 do to the cells before the cursor. *)
Definition break_left_cells (k : nat) (pre : list VteCell) : list VteCell :=
  match k with
  | O => pre
  | S p =>
      alter (set_cell_columns (Z.of_nat k - Z.of_nat (back_over_fragments pre p)))
            (back_over_fragments pre p) pre
  end.

(** ** Positions in reading order *)

(** [a] is not behind [b] in reading order: on an earlier row, or on the same
    row and not in a later column.  The range of the cached match, from
    [match_start] to [match_end], is read in this order. *)
Definition position_le (a b : VteVisualPosition) : Prop :=
  pos_row a < pos_row b \/ (pos_row a = pos_row b /\ pos_col a <= pos_col b).

(** ** Terminals in order *)

(** What the insertion engine relies on: the ring holds no more rows than it
    has room for, the visible area starts inside the ring, the cursor stands
    in or below the first visible row, and a scrolling region, when one is
    set, runs downwards from a row of the screen. *)
Definition terminal_ok (t : VteTerminal) : Prop :=
  ring_wf (ring t)
  /\ ring_delta (ring t) <= insert_delta (screen t) <= cursor_row t
  /\ (scrolling_restricted (screen t) = true ->
      0 <= region_start (scrolling_region (screen t))
        <= region_end (scrolling_region (screen t))).

(** The terminal [t] with the ring, the cursor row and the two deltas
    replaced: all that row allocation and line feed ever change. *)
Definition scrolled (r : VteRing) (row id sd : Z) (t : VteTerminal) : VteTerminal :=
  set_screen
    (set_scroll_delta sd
       (set_insert_delta id
          (set_cursor_current (mkPos row (cursor_col t)) (set_row_data r (screen t)))))
    t.

Definition scroll_variant (t t' : VteTerminal) : Prop :=
  exists r row id sd, t' = scrolled r row id sd t.

(** ** More of the match table (vte.c, lines 1196-1397 and 5361-5452) *)

Section MatchTableOps.

Context {GRegex : Type}.

(** [vte_terminal_match_remove_all]: every entry that is not a hole is
    cleared, then the table is cut to length 0. *)
Definition vte_terminal_match_remove_all (m : VteMatch GRegex) : VteMatch GRegex :=
  let cleared :=
    map (fun regex => if mr_tag regex >=? 0 then regex_match_clear regex else regex)
        (match_regexes m) in
  vte_terminal_match_hilite_clear
    (set_match_regexes (take 0 cleared) (set_match_regexes cleared m)).

(** The three setters [vte_terminal_match_set_cursor],
    [vte_terminal_match_set_cursor_type] and
    [vte_terminal_match_set_cursor_name] differ in the cursor they store:
    [g_return_if_fail ((guint) tag < len)], then the old cursor is released
    and the new one stored in the entry at [tag]. *)
Definition match_set_cursor_at (m : VteMatch GRegex) (tag : Z)
    (cur : vte_regex_cursor) : VteMatch GRegex :=
  if to_guint tag <? Z.of_nat (length (match_regexes m)) then
    match match_regexes m !! Z.to_nat tag with
    | Some regex =>
        vte_terminal_match_hilite_clear
          (set_match_regexes
             (<[Z.to_nat tag :=
                  mkMatchRegex (mr_regex regex) (mr_match_flags regex) (mr_tag regex) cur]>
                (match_regexes m)) m)
    | None => vte_terminal_match_hilite_clear m
    end
  else m.

Definition vte_terminal_match_set_cursor (m : VteMatch GRegex) (tag : Z)
    (cursor : option Z) : VteMatch GRegex :=
  match_set_cursor_at m tag (VTE_REGEX_CURSOR_GDKCURSOR cursor).

Definition vte_terminal_match_set_cursor_type (m : VteMatch GRegex) (tag : Z)
    (cursor_type : Z) : VteMatch GRegex :=
  match_set_cursor_at m tag (VTE_REGEX_CURSOR_GDKCURSORTYPE cursor_type).

(** [g_return_if_fail (cursor_name != NULL)] comes first. *)
Definition vte_terminal_match_set_cursor_name (m : VteMatch GRegex) (tag : Z)
    (cursor_name : option string) : VteMatch GRegex :=
  match cursor_name with
  | None => m
  | Some name => match_set_cursor_at m tag (VTE_REGEX_CURSOR_NAME (Some name))
  end.

(** Division of two C integers: the quotient is cut towards zero, and a
    zero divisor traps ([None]). *)
Definition c_div (a b : Z) : option Z :=
  if b =? 0 then None else Some (Z.quot a b).

(** [vte_terminal_match_hilite_update]: the pointer, at the pixel [(x, y)],
    has moved to another cell.  [char_width] and [char_height] are the cell
    metrics of the widget.  [None] stands for a trap: a zero metric, a
    missing attribute array or the failed [g_assert (match == NULL)]. *)
Definition vte_terminal_match_hilite_update
    (get_text : VteTerminal -> string * list VteCharAttributes)
    (scan : VteMatch GRegex -> Z -> Z -> option string * Z * Z * Z)
    (char_width char_height : Z) (t : VteTerminal) (m : VteMatch GRegex) (x y : Z)
  : option (VteMatch GRegex * list match_event) :=
  match c_div x char_width, c_div y char_height with
  | Some col, Some line =>
      let delta := scroll_delta (screen t) in
      let '((match_, tag, start, end_), m1, ev) :=
        vte_terminal_match_check_internal get_text scan t m col (line + delta) in
      match match_attributes m1 with
      | None => None
      | Some attrs =>
          let len := Z.of_nat (length attrs) in
          let found :=
            if to_guint start <? len then
              match attrs !! Z.to_nat start with
              | Some sattr =>
                  if to_guint end_ <? len then
                    match attrs !! Z.to_nat end_ with
                    | Some eattr =>
                        Some (mkPos (ca_row sattr) (ca_column sattr),
                              mkPos (ca_row eattr) (ca_column eattr))
                    | None => None
                    end
                  else None
              | None => None
              end
            else None in
          match found, match_ with
          | None, Some _ => None
          | None, None =>
              Some (mkMatch (match_regexes m1) (match_contents m1) (match_attributes m1)
                            (mkPos (-1) (-1)) (mkPos (-2) (-2)) tag None false, ev)
          | Some (s, e), _ =>
              Some (mkMatch (match_regexes m1) (match_contents m1) (match_attributes m1)
                            s e tag match_ (bool_decide (match_ <> None)), ev)
          end
      end
  | _, _ => None
  end.

End MatchTableOps.

(** An entry of the match table is a hole, without a regex, or carries its
    own index as its tag. *)
Definition match_entry_ok {GRegex : Type} (i : nat) (e : vte_match_regex GRegex) : Prop :=
  (mr_tag e = -1 /\ mr_regex e = None)
  \/ (mr_tag e = Z.of_nat i /\ is_Some (mr_regex e)).

Definition match_table_ok {GRegex : Type} (l : list (vte_match_regex GRegex)) : Prop :=
  forall (i : nat) e, l !! i = Some e -> match_entry_ok i e.

(** ** The ends of a character (vte.c, lines 565-599) *)

(** [find_start_column]: the column where the character that covers [col]
    begins. *)
Definition find_start_column (t : VteTerminal) (col row : Z) : Z :=
  if col <? 0 then col
  else
    match _vte_screen_find_row_data (screen t) row with
    | Some row_data =>
        Z.max (Z.of_nat (back_over_fragments (cells row_data) (Z.to_nat col))) 0
    | None => Z.max col 0
    end.

(** [find_end_column]: the last column of the character that covers [col],
    cut at the width of the terminal. *)
Definition find_end_column (t : VteTerminal) (col row : Z) : Z :=
  if col <? 0 then col
  else
    match _vte_screen_find_row_data (screen t) row with
    | Some row_data =>
        let col' := back_over_fragments (cells row_data) (Z.to_nat col) in
        let columns :=
          match _vte_row_data_get row_data (Z.of_nat col') with
          | Some cell => cell_columns cell - 1
          | None => 0
          end in
        Z.min (Z.of_nat col' + columns) (column_count t)
    | None => Z.min col (column_count t)
    end.

(** [vte_line_is_wrappable] *)
Definition vte_line_is_wrappable (t : VteTerminal) (row : Z) : bool :=
  match _vte_screen_find_row_data (screen t) row with
  | Some rowdata => soft_wrapped rowdata
  | None => false
  end.

(** ** Tab stops (vte.c, lines 1024-1084) *)

(** The key under which the hash table holds the tab stop of a column:
    [GINT_TO_POINTER (2 * column + 1)], never the NULL pointer.  Columns are
    far below [2^30], so the [int] does not overflow. *)
Definition tabstop_key (column : Z) : Z := 2 * column + 1.

(** [terminal->pvt->tabstops] is NULL ([None]) or a hash table whose keys are
    the tab stops. *)
Definition _vte_terminal_clear_tabstop (tabstops : option (gset Z)) (column : Z)
  : option (gset Z) :=
  match tabstops with
  | Some h => Some (h ∖ {[tabstop_key column]})
  | None => None
  end.

Definition _vte_terminal_get_tabstop (tabstops : option (gset Z)) (column : Z) : bool :=
  match tabstops with
  | Some h => bool_decide (tabstop_key column ∈ h)
  | None => false
  end.

Definition _vte_terminal_set_tabstop (tabstops : option (gset Z)) (column : Z)
  : option (gset Z) :=
  match tabstops with
  | Some h => Some ({[tabstop_key column]} ∪ h)
  | None => None
  end.

Section DefaultTabstops.

(** Two macros of vte-private.h, which is not part of the sources at hand. *)
Variable VTE_TAB_WIDTH : Z.
Variable VTE_TAB_MAX : Z.

(** The loop [for (i = 0; i <= VTE_TAB_MAX; i += width)
    _vte_terminal_set_tabstop (terminal, i);] from [i] on, for at most
    [fuel] turns. *)
Fixpoint set_tabstops_from (fuel : nat) (i width : Z) (tabstops : option (gset Z))
  : option (gset Z) :=
  match fuel with
  | O => tabstops
  | S fuel' =>
      if i <=? VTE_TAB_MAX
      then set_tabstops_from fuel' (i + width) width (_vte_terminal_set_tabstop tabstops i)
      else tabstops
  end.

(** [vte_terminal_set_default_tabstops]; [it] is the numeric capability "it"
    of the termcap, 0 without one.  With a positive width the loop ends
    within [VTE_TAB_MAX + 1] turns; with a width that is not positive it
    does not end ([None]). *)
Definition vte_terminal_set_default_tabstops (it : Z) : option (option (gset Z)) :=
  let width := if it =? 0 then VTE_TAB_WIDTH else it in
  if width <=? 0 then
    if 0 <=? VTE_TAB_MAX then None else Some (Some ∅)
  else Some (set_tabstops_from (Z.to_nat (VTE_TAB_MAX + 1)) 0 width (Some ∅)).

End DefaultTabstops.

(** ** The selection (vte.c, lines 4922-5010 and 6430-6462) *)

Inductive vte_selection_type :=
  | selection_type_char
  | selection_type_word
  | selection_type_line.

(** The part of [VteTerminalPrivate] that describes the selection. *)
Record VteSelection := mkSelection {
  has_selection : bool;
  selection_block_mode : bool;
  selection_type : vte_selection_type;
  selection_start : VteVisualPosition;
  selection_end : VteVisualPosition;
  selecting_had_delta : bool;
  selecting_restart : bool
}.

(** [vte_cell_is_between] *)
Definition vte_cell_is_between (col row acol arow bcol brow : Z) (inclusive : bool)
  : bool :=
  if (arow >? brow) || ((arow =? brow) && (acol >? bcol)) then false
  else if (row =? arow) && (row =? brow) && (col =? acol) && (col =? bcol)
  then inclusive
  else if (row >? arow) && (row <? brow) then true
  else if (row =? arow) && (row =? brow) then
    if col >=? acol then
      if col <? bcol then true
      else if (col =? bcol) && inclusive then true else false
    else false
  else if (row =? arow) && (col >=? acol) then true
  else if row =? brow then
    if col <? bcol then true
    else if (col =? bcol) && inclusive then true else false
  else false.

(** [vte_cell_is_selected] *)
Definition vte_cell_is_selected (sel : VteSelection) (col row : Z) : bool :=
  if negb (has_selection sel) then false
  else
    let ss := selection_start sel in
    let se := selection_end sel in
    if (pos_row ss <? 0) || (pos_row se <? 0) then false
    else if selection_block_mode sel && ((col <? pos_col ss) || (col >? pos_col se))
    then false
    else vte_cell_is_between col row (pos_col ss) (pos_row ss) (pos_col se) (pos_row se)
                             true.

(** [vte_terminal_deselect_all] *)
Definition vte_terminal_deselect_all (sel : VteSelection) : VteSelection :=
  if has_selection sel
  then mkSelection false (selection_block_mode sel) (selection_type sel)
                   (selection_start sel) (selection_end sel)
                   (selecting_had_delta sel) (selecting_restart sel)
  else sel.

(** [vte_terminal_select_all]; the copy to the clipboard is left out. *)
Definition vte_terminal_select_all (t : VteTerminal) (sel : VteSelection)
  : VteSelection :=
  let sel1 := vte_terminal_deselect_all sel in
  mkSelection true (selection_block_mode sel1) (selection_type sel1)
              (mkPos (_vte_ring_delta (ring t)) 0)
              (mkPos (_vte_ring_next (ring t)) (-1))
              true false.

(** ** Pixels and cells (vte.c, lines 5060-5116 and 5977-5984) *)

(** The cell metrics and the padding of the widget. *)
Record VteMetrics := mkMetrics {
  char_width : Z;
  char_height : Z;
  padding_left : Z;
  padding_right : Z;
  padding_top : Z;
  padding_bottom : Z
}.

(** [_vte_terminal_xy_to_grid]: the outer [None] is a trap (division by
    zero), the inner one the result FALSE. *)
Definition _vte_terminal_xy_to_grid (g : VteMetrics) (t : VteTerminal) (x y : Z)
  : option (option (Z * Z)) :=
  match c_div (x - padding_left g) (char_width g),
        c_div (y - padding_top g) (char_height g) with
  | Some c, Some r =>
      if ((c <? 0) || (c >=? column_count t)) || ((r <? 0) || (r >=? row_count t))
      then Some None
      else Some (Some (c, r))
  | _, _ => None
  end.

(** [_vte_terminal_size_to_grid_size] *)
Definition _vte_terminal_size_to_grid_size (g : VteMetrics) (w h : Z)
  : option (option (Z * Z)) :=
  match c_div (w - padding_left g - padding_right g) (char_width g),
        c_div (h - padding_top g - padding_bottom g) (char_height g) with
  | Some n_cols, Some n_rows =>
      if (n_cols <=? 0) || (n_rows <=? 0) then Some None
      else Some (Some (n_cols, n_rows))
  | _, _ => None
  end.

(** [math_div] *)
Definition math_div (a b : Z) : option Z :=
  if a >=? 0 then c_div a b
  else match c_div a b with
       | Some q => Some (q - 1)
       | None => None
       end.

(** ** Selecting text from outside (vte.c, lines 5834-5873 and 12774-12811) *)

(** [vte_terminal_copy], as far as the selection state goes: the selected
    text is fetched for the clipboard and [has_selection] is set. *)
Definition vte_terminal_copy (sel : VteSelection) : VteSelection :=
  mkSelection true (selection_block_mode sel) (selection_type sel)
              (selection_start sel) (selection_end sel)
              (selecting_had_delta sel) (selecting_restart sel).

(** [_vte_terminal_select_text]; the two offsets are not used. *)
Definition _vte_terminal_select_text (sel : VteSelection)
    (start_col start_row end_col end_row : Z) : VteSelection :=
  let sel1 := vte_terminal_deselect_all sel in
  vte_terminal_copy
    (mkSelection (has_selection sel1) (selection_block_mode sel1) selection_type_char
                 (mkPos start_row start_col) (mkPos end_row end_col)
                 true (selecting_restart sel1)).

(** [_vte_terminal_select_empty_at] *)
Definition _vte_terminal_select_empty_at (sel : VteSelection) (col row : Z)
  : VteSelection :=
  _vte_terminal_select_text sel col row (col - 1) row.

(** ** Showing the match under the pointer (vte.c, lines 5304-5358 and 5454-5487) *)

Section MatchHilite.

Context {GRegex : Type}.

Definition set_show_match (b : bool) (m : VteMatch GRegex) : VteMatch GRegex :=
  mkMatch (match_regexes m) (match_contents m) (match_attributes m)
          (match_start m) (match_end m) (match_tag m) (match_ m) b.

(** [cursor_inside_match]: is the pixel [(x, y)] of the view inside the
    cached match?  [None] is the trap of a division by a zero metric. *)
Definition cursor_inside_match (char_width char_height : Z) (t : VteTerminal)
    (m : VteMatch GRegex) (x y : Z) : option bool :=
  match c_div x char_width, c_div y char_height with
  | Some col, Some line =>
      let row := line + scroll_delta (screen t) in
      Some
        (if pos_row (match_start m) =? pos_row (match_end m) then
           (row =? pos_row (match_start m))
           && (col >=? pos_col (match_start m))
           && (col <=? pos_col (match_end m))
         else
           if (row <? pos_row (match_start m)) || (row >? pos_row (match_end m))
           then false
           else if row =? pos_row (match_start m) then col >=? pos_col (match_start m)
           else if row =? pos_row (match_end m) then col <=? pos_col (match_end m)
           else true)
  | _, _ => None
  end.

(** [vte_terminal_match_hilite_show] *)
Definition vte_terminal_match_hilite_show (char_width char_height : Z)
    (t : VteTerminal) (m : VteMatch GRegex) (x y : Z) : option (VteMatch GRegex) :=
  if bool_decide (match_ m <> None) && negb (show_match m) then
    match cursor_inside_match char_width char_height t m x y with
    | Some true => Some (set_show_match true m)
    | Some false => Some m
    | None => None
    end
  else Some m.

(** [vte_terminal_match_hilite_hide] *)
Definition vte_terminal_match_hilite_hide (m : VteMatch GRegex) : VteMatch GRegex :=
  if bool_decide (match_ m <> None) && show_match m
  then set_show_match false m
  else m.

(** [vte_terminal_match_hilite]: the pointer is at the pixel [(x, y)];
    [allocation_width] and [allocation_height] are the size of the widget,
    [mouse_last_x] and [mouse_last_y] the pixel of the last pointer event. *)
Definition vte_terminal_match_hilite
    (get_text : VteTerminal -> string * list VteCharAttributes)
    (scan : VteMatch GRegex -> Z -> Z -> option string * Z * Z * Z)
    (char_width char_height allocation_width allocation_height : Z)
    (mouse_last_x mouse_last_y : Z)
    (t : VteTerminal) (m : VteMatch GRegex) (x y : Z)
  : option (VteMatch GRegex * list match_event) :=
  if (x <? 0) || (x >? allocation_width) || (y <? 0) || (y >? allocation_height)
  then Some (m, [])
  else
    match c_div x char_width, c_div mouse_last_x char_width with
    | Some cx, Some lx =>
        let same_cell :=
          if cx =? lx then
            match c_div y char_height, c_div mouse_last_y char_height with
            | Some cy, Some ly => Some (cy =? ly)
            | _, _ => None
            end
          else Some false in
        match same_cell with
        | None => None
        | Some true => Some (set_show_match (bool_decide (match_ m <> None)) m, [])
        | Some false =>
            match cursor_inside_match char_width char_height t m x y with
            | None => None
            | Some true =>
                Some (set_show_match (bool_decide (match_ m <> None)) m, [])
            | Some false =>
                vte_terminal_match_hilite_update get_text scan char_width char_height
                                                 t m x y
            end
        end
    | _, _ => None
    end.

(** A match is only shown when there is one. *)
Definition match_shown_ok (m : VteMatch GRegex) : Prop :=
  show_match m = true -> match_ m <> None.

End MatchHilite.

(** ** The colours of a cell (vte.c, lines 274-276 and 8277-8364) *)

(** What the choice of colours reads besides the cell: [reverse_mode] of the
    screen and four flags of [VteTerminalPrivate]. *)
Record VteColorFlags := mkColorFlags {
  reverse_mode : bool;
  reverse : bool;
  reverse_color_set : bool;
  highlight_color_set : bool;
  cursor_color_set : bool
}.

Definition corresponding_dim_index : list Z := [16; 88; 28; 100; 18; 90; 30; 102].

Section Colors.

(** Palette slots and sizes named in vte-private.h, which is not part of the
    sources at hand. *)
Variable VTE_BOLD_FG : Z.
Variable VTE_DIM_FG : Z.
Variable VTE_DEF_HL : Z.
Variable VTE_CUR_BG : Z.
Variable VTE_REV_BG : Z.
Variable VTE_LEGACY_COLOR_SET_SIZE : Z.
Variable VTE_COLOR_BRIGHT_OFFSET : Z.

(** [vte_terminal_determine_colors_internal]: the pair [(fore, back)]
    written through [pfore] and [pback].  The colours are unsigned palette
    indices.  [None] is a read behind the end of [corresponding_dim_index]. *)
Definition vte_terminal_determine_colors_internal (f : VteColorFlags)
    (cell : option VteCell) (selected cursor : bool) : option (Z * Z) :=
  let cell := match cell with Some cell => cell | None => basic_cell end in
  let a := cell_attr cell in
  let fore := attr_fore a in
  let back := attr_back a in
  let '(fore, back) :=
    if xorb (reverse_mode f) (reverse f)
    then (if fore =? VTE_DEF_FG then VTE_DEF_BG else fore,
          if back =? VTE_DEF_BG then VTE_DEF_FG else back)
    else (fore, back) in
  let fore :=
    if attr_bold a then
      if fore =? VTE_DEF_FG then VTE_BOLD_FG
      else if fore <? VTE_LEGACY_COLOR_SET_SIZE then fore + VTE_COLOR_BRIGHT_OFFSET
      else fore
    else fore in
  let fore_half :=
    if attr_half a then
      if fore =? VTE_DEF_FG then Some VTE_DIM_FG
      else if fore <? VTE_LEGACY_COLOR_SET_SIZE
           then corresponding_dim_index !! Z.to_nat fore
           else Some fore
    else Some fore in
  match fore_half with
  | None => None
  | Some fore =>
      let back :=
        if attr_standout a then
          if back <? VTE_LEGACY_COLOR_SET_SIZE then back + VTE_COLOR_BRIGHT_OFFSET
          else back
        else back in
      let '(fore, back) :=
        if attr_reverse a then
          if reverse_color_set f then (fore, VTE_REV_BG) else (back, fore)
        else (fore, back) in
      let '(fore, back) :=
        if selected then
          if highlight_color_set f then (fore, VTE_DEF_HL) else (back, fore)
        else (fore, back) in
      let '(fore, back) :=
        if cursor then
          if cursor_color_set f then (fore, VTE_CUR_BG) else (back, fore)
        else (fore, back) in
      let fore := if attr_invisible a then back else fore in
      Some (fore, back)
  end.

(** [vte_terminal_determine_colors] *)
Definition vte_terminal_determine_colors (f : VteColorFlags) (cell : option VteCell)
    (highlight : bool) : option (Z * Z) :=
  vte_terminal_determine_colors_internal f cell highlight false.

(** [vte_terminal_determine_cursor_colors] *)
Definition vte_terminal_determine_cursor_colors (f : VteColorFlags)
    (cell : option VteCell) (highlight : bool) : option (Z * Z) :=
  vte_terminal_determine_colors_internal f cell highlight true.

End Colors.

(** ** Incoming chunks (vte.c, lines 171-259, 3457-3470 and 3607-3642) *)

(** [struct _vte_incoming_chunk] (vte-private.h): [data] is an array of
    fixed size of which the first [len] bytes are in use; the link [next] is
    the rest of the list that holds the chunk. *)
Record _vte_incoming_chunk := mkChunk {
  chunk_len : Z;
  chunk_data : list Byte.byte
}.

(** The conversion to [gsize], 64 bits wide. *)
Definition to_gsize (n : Z) : Z := n mod 2 ^ 64.

Section IncomingChunks.

(** The memory that [g_new] hands out; its contents are indeterminate. *)
Variable g_new_chunk : _vte_incoming_chunk.

(** [sizeof (chunk->data)] *)
Variable chunk_data_size : Z.

(** [get_chunk]: the chunk and the free list afterwards. *)
Definition get_chunk (free_chunks : list _vte_incoming_chunk)
  : _vte_incoming_chunk * list _vte_incoming_chunk :=
  match free_chunks with
  | chunk :: next => (mkChunk 0 (chunk_data chunk), next)
  | [] => (mkChunk 0 (chunk_data g_new_chunk), [])
  end.

(** [release_chunk]: in the free list [len] counts the chunks behind. *)
Definition release_chunk (chunk : _vte_incoming_chunk)
    (free_chunks : list _vte_incoming_chunk) : list _vte_incoming_chunk :=
  mkChunk (match free_chunks with
           | head :: _ => to_guint (chunk_len head + 1)
           | [] => 0
           end) (chunk_data chunk)
  :: free_chunks.

(** The loop [while (free_chunks->len > len) free_chunks = free_chunks->next;]
    of [prune_chunks]; running off the end of the list is a read through
    NULL ([None]). *)
Fixpoint prune_loop (len : Z) (free_chunks : list _vte_incoming_chunk)
  : option (list _vte_incoming_chunk) :=
  match free_chunks with
  | [] => None
  | chunk :: next => if chunk_len chunk >? len then prune_loop len next
                     else Some free_chunks
  end.

(** [prune_chunks]: the free list afterwards; the chunks cut off are freed. *)
Definition prune_chunks (len : Z) (free_chunks : list _vte_incoming_chunk)
  : option (list _vte_incoming_chunk) :=
  match free_chunks with
  | head :: _ =>
      if len =? 0 then Some []
      else if chunk_len head >? len then prune_loop len free_chunks
      else Some free_chunks
  | [] => Some []
  end.

(** [_vte_incoming_chunks_release]: the free list afterwards. *)
Fixpoint _vte_incoming_chunks_release (chunk free_chunks : list _vte_incoming_chunk)
  : list _vte_incoming_chunk :=
  match chunk with
  | [] => free_chunks
  | c :: next => _vte_incoming_chunks_release next (release_chunk c free_chunks)
  end.

(** [_vte_incoming_chunks_length]; the sum stays far below [2^64]. *)
Fixpoint _vte_incoming_chunks_length (chunk : list _vte_incoming_chunk) : Z :=
  match chunk with
  | [] => 0
  | c :: next => chunk_len c + _vte_incoming_chunks_length next
  end.

(** [_vte_incoming_chunks_count] *)
Fixpoint _vte_incoming_chunks_count (chunk : list _vte_incoming_chunk) : Z :=
  match chunk with
  | [] => 0
  | _ :: next => 1 + _vte_incoming_chunks_count next
  end.

(** The loop of [_vte_incoming_chunks_reverse], with [prev] the part that is
    already turned round. *)
Fixpoint chunks_reverse_onto (chunk prev : list _vte_incoming_chunk)
  : list _vte_incoming_chunk :=
  match chunk with
  | [] => prev
  | c :: next => chunks_reverse_onto next (c :: prev)
  end.

Definition _vte_incoming_chunks_reverse (chunk : list _vte_incoming_chunk)
  : list _vte_incoming_chunk :=
  chunks_reverse_onto chunk [].

(** [_vte_terminal_feed_chunks]: the list [chunks] is put in front of
    [incoming]; an empty [chunks] is a read through NULL. *)
Definition _vte_terminal_feed_chunks (chunks incoming : list _vte_incoming_chunk)
  : option (list _vte_incoming_chunk) :=
  match chunks with
  | [] => None
  | _ :: _ => Some (chunks ++ incoming)
  end.

(** [strlen]: the number of bytes before the first NUL of the buffer. *)
Fixpoint strlen (data : list Byte.byte) : option Z :=
  match data with
  | [] => None
  | b :: rest => if Byte.eqb b Byte.x00 then Some 0
                 else match strlen rest with
                      | Some n => Some (n + 1)
                      | None => None
                      end
  end.

(** [memcpy (chunk->data + chunk->len, data, len); chunk->len += len;] *)
Definition chunk_append (chunk : _vte_incoming_chunk) (data : list Byte.byte) (len : Z)
  : _vte_incoming_chunk :=
  let at_ := Z.to_nat (chunk_len chunk) in
  mkChunk (to_guint (chunk_len chunk + len))
          (take at_ (chunk_data chunk) ++ take (Z.to_nat len) data
           ++ drop (at_ + Z.to_nat len)%nat (chunk_data chunk)).

(** The [do ... while (1)] loop of [vte_terminal_feed]: [chunk] is the first
    chunk of the incoming list and [incoming] the rest of it; the free list
    and the incoming list afterwards.  Each turn but the last fills a chunk,
    so [length] turns are enough whenever the loop ends. *)
Fixpoint feed_loop (fuel : nat) (free_chunks : list _vte_incoming_chunk)
    (chunk : _vte_incoming_chunk) (incoming : list _vte_incoming_chunk)
    (data : list Byte.byte) (length : Z)
  : option (list _vte_incoming_chunk * list _vte_incoming_chunk) :=
  match fuel with
  | O => None
  | S fuel' =>
      let rem := to_gsize (chunk_data_size - chunk_len chunk) in
      let len := if length <? rem then length else rem in
      let chunk := chunk_append chunk data len in
      let length := length - len in
      if length =? 0 then Some (free_chunks, chunk :: incoming)
      else
        let data := drop (Z.to_nat len) data in
        let '(chunk', free_chunks) := get_chunk free_chunks in
        match _vte_terminal_feed_chunks [chunk'] (chunk :: incoming) with
        | Some (chunk' :: incoming) =>
            feed_loop fuel' free_chunks chunk' incoming data length
        | _ => None
        end
  end.

(** [vte_terminal_feed]: the free list and the incoming list afterwards.
    [data] is the buffer that the caller hands over; [None] is a read behind
    its end or a loop that does not end. *)
Definition vte_terminal_feed (free_chunks incoming : list _vte_incoming_chunk)
    (data : list Byte.byte) (length : Z)
  : option (list _vte_incoming_chunk * list _vte_incoming_chunk) :=
  match (if length =? -1 then strlen data else Some length) with
  | None => None
  | Some length =>
      if length >? 0 then
        if length >? Z.of_nat (List.length data) then None
        else
          let fresh :=
            let '(chunk, free_chunks) := get_chunk free_chunks in
            match _vte_terminal_feed_chunks [chunk] incoming with
            | Some (chunk :: incoming) =>
                feed_loop (Z.to_nat length) free_chunks chunk incoming data length
            | _ => None
            end in
          match incoming with
          | head :: next =>
              if length <? to_gsize (chunk_data_size - chunk_len head)
              then feed_loop (Z.to_nat length) free_chunks head next data length
              else fresh
          | [] => fresh
          end
      else Some (free_chunks, incoming)
  end.

End IncomingChunks.

(** In the free list every chunk counts the chunks behind it. *)
Definition free_chunks_ok (free_chunks : list _vte_incoming_chunk) : Prop :=
  forall (i : nat) chunk,
    free_chunks !! i = Some chunk ->
    chunk_len chunk = Z.of_nat (length free_chunks - 1 - i).

(** The bytes in use of a chunk, and of a list of chunks in its order. *)
Definition chunk_bytes (chunk : _vte_incoming_chunk) : list Byte.byte :=
  take (Z.to_nat (chunk_len chunk)) (chunk_data chunk).

Definition chunks_bytes (chunks : list _vte_incoming_chunk) : list Byte.byte :=
  concat (map chunk_bytes chunks).

(** A chunk uses no more than its array. *)
Definition chunk_ok (size : Z) (chunk : _vte_incoming_chunk) : Prop :=
  0 <= chunk_len chunk <= size /\ Z.of_nat (length (chunk_data chunk)) = size.

(** The array of a chunk has the size that every chunk has. *)
Definition chunk_sized (size : Z) (chunk : _vte_incoming_chunk) : Prop :=
  Z.of_nat (length (chunk_data chunk)) = size.

(** ** Filling an array (vte.c, lines 278-288) *)

Section ArrayFill.

Context {A : Type}.

(** The loop [do g_array_append_vals (array, item, 1); while (--final_size);]
    on a [guint]. *)
Fixpoint array_fill_loop (fuel : nat) (array : list A) (item : A) (final_size : Z)
  : option (list A) :=
  match fuel with
  | O => None
  | S fuel' =>
      let array := array ++ [item] in
      let final_size := to_guint (final_size - 1) in
      if final_size =? 0 then Some array
      else array_fill_loop fuel' array item final_size
  end.

(** [vte_g_array_fill]; the loop ends after the number of turns that its
    counter starts with. *)
Definition vte_g_array_fill (array : list A) (item : A) (final_size : Z)
  : option (list A) :=
  if Z.of_nat (length array) >=? final_size then Some array
  else
    let final_size := to_guint (final_size - Z.of_nat (length array)) in
    array_fill_loop (Z.to_nat final_size) array item final_size.

End ArrayFill.

(** ** Building the word character table (vte.c, lines 12204-12239) *)

(** The loop of [vte_terminal_set_word_chars] over the converted spec, from
    the index [i] on: [wbuf] is the conversion buffer read as [gunichar]s,
    [n] the number of characters that the conversion has written and
    [word_chars] the array so far.  45 is the hyphen.  A read behind the end
    of the buffer is [None].  Every turn moves [i] forward, so [n - i] turns
    are enough. *)
Fixpoint set_word_chars_from (fuel : nat) (wbuf : list Z) (n i : Z)
    (word_chars : list VteWordCharRange) : option (list VteWordCharRange) :=
  if i <? n then
    match fuel with
    | O => None
    | S fuel' =>
        match wbuf !! Z.to_nat i with
        | None => None
        | Some w0 =>
            if w0 =? 45
            then set_word_chars_from fuel' wbuf n (i + 1)
                                     (word_chars ++ [mkRange w0 w0])
            else
              match wbuf !! Z.to_nat (i + 1) with
              | None => None
              | Some w1 =>
                  if negb (w1 =? 45)
                  then set_word_chars_from fuel' wbuf n (i + 1)
                                           (word_chars ++ [mkRange w0 w0])
                  else
                    match wbuf !! Z.to_nat (i + 2) with
                    | None => None
                    | Some w2 =>
                        if negb (w2 =? 45) && negb (w2 =? 0)
                        then set_word_chars_from fuel' wbuf n (i + 2 + 1)
                                                 (word_chars ++ [mkRange w0 w2])
                        else set_word_chars_from fuel' wbuf n (i + 1) word_chars
                    end
              end
        end
    end
  else Some word_chars.

(** The whole loop, started on the empty array. *)
Definition set_word_chars_loop (wbuf : list Z) (n : Z) : option (list VteWordCharRange) :=
  set_word_chars_from (Z.to_nat n) wbuf n 0 [].

(** The range that holds one character. *)
Definition single_range (c : Z) : VteWordCharRange := mkRange c c.

(** ** Expanding the selection (vte.c, lines 5986-6186) *)

(** The loop [for (i = _vte_row_data_length (rowdata); i > 0; i--) {
    cell = _vte_row_data_get (rowdata, i - 1);
    if (cell->attr.fragment || cell->c != 0) break; }] from [i] on: the value
    of [i] behind the loop, one more than the column of the last cell that is
    not empty.  A cell that is not there is a read through NULL ([None]). *)
Fixpoint last_nonempty (l : list VteCell) (i : nat) : option Z :=
  match i with
  | O => Some 0
  | S p =>
      match l !! p with
      | Some cell =>
          if cell_fragment cell || negb (cell_c cell =? 0) then Some (Z.of_nat i)
          else last_nonempty l p
      | None => None
      end
  end.

Definition set_selection_ends (sel : VteSelection) (sc ec : VteVisualPosition)
  : VteSelection :=
  mkSelection (has_selection sel) (selection_block_mode sel) (selection_type sel)
              sc ec (selecting_had_delta sel) (selecting_restart sel).

Section ExpandSelection.

Variable iso : VteIso2022.
Variable u : GUnichar.
Variable word_chars : option (list VteWordCharRange).
Variable t : VteTerminal.

(** The loop [while (_vte_ring_contains (screen->row_data, j - 1) &&
    vte_line_is_wrappable (terminal, j - 1)) { j--; sc->row = j; }]: the row
    [j] behind the loop.  [None] is a loop that has not ended within [fuel]
    turns. *)
Fixpoint expand_line_up (fuel : nat) (j : Z) : option Z :=
  if _vte_ring_contains (ring t) (j - 1) && vte_line_is_wrappable t (j - 1) then
    match fuel with
    | O => None
    | S fuel' => expand_line_up fuel' (j - 1)
    end
  else Some j.

(** The loop [while (_vte_ring_contains (screen->row_data, j) &&
    vte_line_is_wrappable (terminal, j)) { j++; ec->row = j; }]. *)
Fixpoint expand_line_down (fuel : nat) (j : Z) : option Z :=
  if _vte_ring_contains (ring t) j && vte_line_is_wrappable t j then
    match fuel with
    | O => None
    | S fuel' => expand_line_down fuel' (j + 1)
    end
  else Some j.

(** The loop [for (i = ...; i > 0; i--) if (vte_same_class (terminal, i - 1,
    j, i, j)) { sc->col = i - 1; sc->row = j; } else break;]: the value of [i]
    and the start point behind the loop. *)
Fixpoint expand_word_left (fuel : nat) (i j : Z) (sc : VteVisualPosition)
  : option (Z * VteVisualPosition) :=
  if i >? 0 then
    match fuel with
    | O => None
    | S fuel' =>
        if vte_same_class iso u word_chars (screen t) (i - 1) j i j
        then expand_word_left fuel' (i - 1) j (mkPos j (i - 1))
        else Some (i, sc)
    end
  else Some (i, sc).

(** "Keep selecting to the left as long as the next character we look at is
    of the same class as the current start point": the loop over the rows,
    at row [j]. *)
Fixpoint expand_word_up (fuel : nat) (j : Z) (sc : VteVisualPosition)
  : option VteVisualPosition :=
  if _vte_ring_contains (ring t) j then
    match _vte_ring_index (ring t) j with
    | None => Some sc
    | Some _ =>
        let i := if j =? pos_row sc then pos_col sc else column_count t in
        match expand_word_left (Z.to_nat i) i j sc with
        | None => None
        | Some (i, sc) =>
            if i >? 0 then Some sc
            else if vte_line_is_wrappable t (j - 1)
                    && vte_same_class iso u word_chars (screen t)
                                      (column_count t - 1) (j - 1) 0 j
            then
              match fuel with
              | O => None
              | S fuel' =>
                  expand_word_up fuel' (j - 1) (mkPos (j - 1) (column_count t - 1))
              end
            else Some sc
        end
    end
  else Some sc.

(** The loop [for (i = ...; i < column_count - 1; i++) if (vte_same_class
    (terminal, i, j, i + 1, j)) { ec->col = i + 1; ec->row = j; } else break;]. *)
Fixpoint expand_word_right (fuel : nat) (i j : Z) (ec : VteVisualPosition)
  : option (Z * VteVisualPosition) :=
  if i <? column_count t - 1 then
    match fuel with
    | O => None
    | S fuel' =>
        if vte_same_class iso u word_chars (screen t) i j (i + 1) j
        then expand_word_right fuel' (i + 1) j (mkPos j (i + 1))
        else Some (i, ec)
    end
  else Some (i, ec).

(** "Keep selecting to the right as long as the next character we look at is
    of the same class as the current end point": the loop over the rows, at
    row [j]. *)
Fixpoint expand_word_down (fuel : nat) (j : Z) (ec : VteVisualPosition)
  : option VteVisualPosition :=
  if _vte_ring_contains (ring t) j then
    match _vte_ring_index (ring t) j with
    | None => Some ec
    | Some _ =>
        let i := if j =? pos_row ec then pos_col ec else 0 in
        match expand_word_right (Z.to_nat (column_count t - 1 - i)) i j ec with
        | None => None
        | Some (i, ec) =>
            if i <? column_count t - 1 then Some ec
            else if vte_line_is_wrappable t j
                    && vte_same_class iso u word_chars (screen t)
                                      (column_count t - 1) j 0 (j + 1)
            then
              match fuel with
              | O => None
              | S fuel' => expand_word_down fuel' (j + 1) (mkPos (j + 1) 0)
              end
            else Some ec
        end
    end
  else Some ec.

(** "Handle end-of-line at the start-cell." *)
Definition expand_start_of_line (type : vte_selection_type)
    (sc ec : VteVisualPosition) : option VteVisualPosition :=
  match _vte_screen_find_row_data (screen t) (pos_row sc) with
  | Some rowdata =>
      match last_nonempty (cells rowdata) (length (cells rowdata)) with
      | None => None
      | Some i =>
          if (pos_col sc >=? i)
             && match type with selection_type_line => false | _ => true end
          then
            if pos_row sc <? pos_row ec then Some (mkPos (pos_row sc + 1) 0)
            else Some (mkPos (pos_row sc) i)
          else Some sc
      end
  | None => Some (mkPos (pos_row sc) 0)
  end.

(** "Handle end-of-line at the end-cell." *)
Definition expand_end_of_line (ec : VteVisualPosition) : option VteVisualPosition :=
  match _vte_screen_find_row_data (screen t) (pos_row ec) with
  | Some rowdata =>
      match last_nonempty (cells rowdata) (length (cells rowdata)) with
      | None => None
      | Some i =>
          if pos_col ec >=? i
          then Some (mkPos (pos_row ec)
                           (Z.max (pos_col ec)
                                  (Z.max (column_count t) (_vte_row_data_length rowdata))))
          else Some ec
      end
  | None =>
      if pos_col ec >=? 0
      then Some (mkPos (pos_row ec) (Z.max (pos_col ec) (column_count t)))
      else Some ec
  end.

(** [vte_terminal_extend_selection_expand]: the selection afterwards; the
    loops over the rows stay inside the ring, so one turn for each of its
    rows is enough.  [None] is a trap or a loop that does not end. *)
Definition vte_terminal_extend_selection_expand (sel : VteSelection)
  : option VteSelection :=
  if selection_block_mode sel then Some sel
  else
    let rows := length (ring_rows (ring t)) in
    match expand_start_of_line (selection_type sel) (selection_start sel)
                               (selection_end sel) with
    | None => None
    | Some sc =>
        let sc := mkPos (pos_row sc) (find_start_column t (pos_col sc) (pos_row sc)) in
        match expand_end_of_line (selection_end sel) with
        | None => None
        | Some ec =>
            let ec := mkPos (pos_row ec) (find_end_column t (pos_col ec) (pos_row ec)) in
            match selection_type sel with
            | selection_type_char => Some (set_selection_ends sel sc ec)
            | selection_type_word =>
                match expand_word_up rows (pos_row sc) sc with
                | None => None
                | Some sc =>
                    match expand_word_down rows (pos_row ec) ec with
                    | None => None
                    | Some ec => Some (set_selection_ends sel sc ec)
                    end
                end
            | selection_type_line =>
                match expand_line_up rows (pos_row sc) with
                | None => None
                | Some srow =>
                    match expand_line_down rows (pos_row ec) with
                    | None => None
                    | Some erow =>
                        let ecol :=
                          if _vte_ring_contains (ring t) erow then
                            match _vte_ring_index (ring t) erow with
                            | Some rowdata =>
                                Z.max (column_count t) (_vte_row_data_length rowdata)
                            | None => column_count t
                            end
                          else column_count t in
                        Some (set_selection_ends sel (mkPos srow 0) (mkPos erow ecol))
                    end
                end
            end
        end
    end.

End ExpandSelection.

(** ** The row behind a line feed *)



(** * Sample inputs *)

(** The classification of GLib on the code points used below: ASCII, the
    letter U+00E9 and U+00A0 NO-BREAK SPACE (a space separator, hence
    neither graphic nor a word character). *)
Definition sample_unichar : GUnichar :=
  mkGUnichar
    (fun c => ((33 <=? c) && (c <=? 126)) || (c =? 233))
    (fun c => ((33 <=? c) && (c <=? 47)) || ((58 <=? c) && (c <=? 64))
              || ((91 <=? c) && (c <=? 96)) || ((123 <=? c) && (c <=? 126)))
    (fun c => (c =? 9) || (c =? 10) || (c =? 12) || (c =? 13) || (c =? 32)
              || (c =? 160)).

(** A decoder without charset substitution and without encoded widths: the
    combining diacritical marks have width 0, the CJK ideographs width 2. *)
Definition sample_iso2022 : VteIso2022 :=
  mkIso2022
    (fun c => c)
    (fun _ => false)
    (fun _ => 1)
    (fun c => c)
    (fun c => if (768 <=? c) && (c <=? 879) then 0
              else if (19968 <=? c) && (c <=? 40959) then 2 else 1)
    (fun s c => 2 ^ 31 + s)
    (fun s => if s <? 2 ^ 31 then s else s - 2 ^ 31).

Definition plain_cell (u : Z) : VteCell :=
  mkCell u (cell_attr basic_cell).

Definition sample_screen (r : VteRing) (cursor : VteVisualPosition) : VteScreen :=
  mkScreen r cursor 0 0 false (mkRegion 0 0) basic_cell basic_cell basic_cell
           false false false false [].

(** A screen whose only row reads [-+]. *)
Definition punctuation_screen : VteScreen :=
  sample_screen (mkRing 0 [mkRow [plain_cell 45; plain_cell 43] false] 100)
                (mkPos 0 2).

(** A match table with the regexes (named by numbers here) 10, 11 and 12
    registered under the tags 0, 1 and 2. *)
Definition sample_cursor : vte_regex_cursor := VTE_REGEX_CURSOR_GDKCURSORTYPE 152.

Definition sample_match : VteMatch Z :=
  mkMatch [mkMatchRegex (Some 10) 0 0 sample_cursor;
           mkMatchRegex (Some 11) 0 1 sample_cursor;
           mkMatchRegex (Some 12) 0 2 sample_cursor]
          None None (mkPos (-1) (-1)) (mkPos (-2) (-2)) (-1) None false.

(** The match cache after the pointer rested on a URL that covers the
    columns 4 to 22 of row 7. *)
Definition cached_match : VteMatch Z :=
  mkMatch (match_regexes sample_match) (Some "see https://example.com for info"%string)
          (Some []) (mkPos 7 4) (mkPos 7 22) 0
          (Some "https://example.com"%string) true.

Definition sample_terminal (s : VteScreen) : VteTerminal :=
  mkTerminal s 24 80 (mkFlags true true false) false.

(** A 10 x 3 terminal after "ESC [ 44 m" set a blue background: the row
    under the cursor reads [a] and the cursor stands in column 3. *)
Definition blue_cell : VteCell :=
  mkCell 0 (mkAttr false 1 false VTE_DEF_FG 4
                   false false false false false false false).

Definition blue_terminal : VteTerminal :=
  mkTerminal
    (mkScreen (mkRing 0 [mkRow [plain_cell 97] false] 100) (mkPos 0 3) 0 0
              false (mkRegion 0 0) blue_cell blue_cell blue_cell
              false false false false [])
    3 10 (mkFlags true true false) false.

(** The two cells of a wide character. *)
Definition wide_cell (u : Z) (fragment : bool) : VteCell :=
  mkCell u (set_attr_fragment fragment (set_attr_columns 2 (cell_attr basic_cell))).

(** A 5 x 3 terminal whose first row holds the wide character U+4E20 in the
    columns 0 and 1, with the cursor in column [col]. *)
Definition wide_terminal (col : Z) : VteTerminal :=
  mkTerminal
    (sample_screen
       (mkRing 0 [mkRow [wide_cell 20000 false; wide_cell 20000 true] false] 100)
       (mkPos 0 col))
    3 5 (mkFlags true true false) false.

(** A 5 x 3 terminal whose first row reads [abcd], with the cursor in
    column [col] of that row. *)
Definition margin_terminal (col : Z) : VteTerminal :=
  mkTerminal
    (sample_screen
       (mkRing 0 [mkRow [plain_cell 97; plain_cell 98; plain_cell 99; plain_cell 100]
                        false] 100)
       (mkPos 0 col))
    3 5 (mkFlags true true false) false.

(** A 10 x 10 terminal whose ring holds only the rows 0 and 1 so far, with
    the scrolling region set to the rows 2 to 4 and the cursor on row 4. *)
Definition short_ring_terminal : VteTerminal :=
  mkTerminal
    (mkScreen (mkRing 0 [mkRow [plain_cell 97] false; mkRow [plain_cell 98] false] 100)
              (mkPos 4 0) 0 0 true (mkRegion 2 4) basic_cell basic_cell basic_cell
              false false false false [])
    10 10 (mkFlags true true false) false.

(** A 10 x 5 terminal with the rows [a] to [e], the scrolling region set to the
    rows [region_start] to 3 and the cursor on row 3. *)
Definition region_terminal (region_start : Z) : VteTerminal :=
  mkTerminal
    (mkScreen (mkRing 0 [mkRow [plain_cell 97] false; mkRow [plain_cell 98] false;
                         mkRow [plain_cell 99] false; mkRow [plain_cell 100] false;
                         mkRow [plain_cell 101] false] 100)
              (mkPos 3 0) 0 0 true (mkRegion region_start 3)
              basic_cell basic_cell basic_cell
              false false false false [])
    5 10 (mkFlags true true false) false.

(** [margin_terminal] with insert mode switched on. *)
Definition insert_mode_terminal (col : Z) : VteTerminal :=
  mkTerminal
    (mkScreen (ring (margin_terminal col)) (mkPos 0 col) 0 0 false (mkRegion 0 0)
              basic_cell basic_cell basic_cell true false false false [])
    3 5 (mkFlags true true false) false.

(** [margin_terminal] without the [xn] flag. *)
Definition no_xn_terminal (col : Z) : VteTerminal :=
  mkTerminal (screen (margin_terminal col)) 3 5 (mkFlags true false false) false.

(** Insert [c], move the cursor back, insert [c] again. *)
Definition overstrike_twice (t : VteTerminal) (c : Z) : VteTerminal :=
  snd (_vte_terminal_insert_char sample_iso2022
         (backspace (snd (_vte_terminal_insert_char sample_iso2022 t c false)))
         c false).

(** A 10 x 3 terminal with a blue background set and nothing written yet:
    the ring is empty and the cursor stands in column 2 of row 1. *)
Definition fresh_terminal : VteTerminal :=
  mkTerminal
    (mkScreen (mkRing 0 [] 100) (mkPos 1 2) 0 0
              false (mkRegion 0 0) blue_cell blue_cell blue_cell
              false false false false [])
    3 10 (mkFlags true true false) false.

(** A 3 x 3 terminal with a blue background set whose first row reads [abc]:
    the cursor stands behind the last column, the wrap is pending. *)
Definition blue_wrap_terminal : VteTerminal :=
  mkTerminal
    (mkScreen (mkRing 0 [mkRow [plain_cell 97; plain_cell 98; plain_cell 99] false] 100)
              (mkPos 0 3) 0 0
              false (mkRegion 0 0) blue_cell blue_cell blue_cell
              false false false false [])
    3 3 (mkFlags true true false) false.

(** A 10 x 2 terminal without scrolling region whose two rows read [a] and
    [b]; the cursor is on the bottom row, the last one of the ring. *)
Definition bottom_row_terminal : VteTerminal :=
  mkTerminal
    (mkScreen (mkRing 0 [mkRow [plain_cell 97] false; mkRow [plain_cell 98] false] 100)
              (mkPos 1 0) 0 0 false (mkRegion 0 0) basic_cell basic_cell basic_cell
              false false false false [])
    2 10 (mkFlags true true false) false.


(** * Properties *)

(** ** Word classes *)

Lemma in_word_char_ranges_spec (ranges : list VteWordCharRange) (c : Z) :
  in_word_char_ranges ranges c = true <->
  exists range, range ∈ ranges /\ range_start range <= c <= range_end range.
Proof.
  induction ranges as [|range rest IH]; simpl.
  - split; [discriminate|]. intros (range & Hin & _). by apply elem_of_nil in Hin.
  - destruct ((c >=? range_start range) && (c <=? range_end range)) eqn:E.
    + split; [|done]. intros _. exists range. split; [left|]. lia.
    + rewrite IH. split.
      * intros (r & Hin & Hr). exists r. split; [by right|done].
      * intros (r & Hin & Hr). apply elem_of_cons in Hin as [->|Hin].
        -- lia.
        -- by exists r.
Qed.

Lemma is_word_char_eq (u : GUnichar) (wc : option (list VteWordCharRange)) (c : Z) :
  vte_terminal_is_word_char u wc c =
  match wc with
  | None => unicode_word_char u c
  | Some [] => unicode_word_char u c
  | Some ranges =>
      in_word_char_ranges ranges c || ((c >=? 128) && unicode_word_char u c)
  end.
Proof.
  unfold vte_terminal_is_word_char.
  destruct wc as [[|range rest]|]; simpl; try done.
  - by destruct (c >=? 128).
  - destruct ((c >=? range_start range) && (c <=? range_end range)); [done|].
    destruct (in_word_char_ranges rest c); [done|].
    simpl. by rewrite orb_false_r.
  - by destruct (c >=? 128).
Qed.

(** C10 (amended): a code point [c >= 0x80] that is graphic and neither
    punctuation nor space is a word character whatever the table of ranges
    holds; for [c >= 0x80] the table can only add to the Unicode word class
    (any code point inside one of its ranges is a word character), it never
    takes a character out of it; for an ASCII code point a table that is not
    empty decides alone. *)
Theorem is_word_char_table_effect
    (u : GUnichar) (wc : option (list VteWordCharRange)) (c : Z) :
  (128 <= c ->
   g_unichar_isgraph u c = true ->
   g_unichar_ispunct u c = false ->
   g_unichar_isspace u c = false ->
   vte_terminal_is_word_char u wc c = true)
  /\ (128 <= c ->
      vte_terminal_is_word_char u wc c = in_word_chars wc c || unicode_word_char u c)
  /\ (in_word_chars wc c = true -> vte_terminal_is_word_char u wc c = true)
  /\ (c < 128 ->
      forall range rest, wc = Some (range :: rest) ->
      vte_terminal_is_word_char u wc c = in_word_chars wc c).
Proof.
  assert (Hhi : 128 <= c ->
      vte_terminal_is_word_char u wc c = in_word_chars wc c || unicode_word_char u c).
  { intros Hc. unfold vte_terminal_is_word_char, in_word_chars.
    replace (c >=? 128) with true by lia.
    destruct wc as [ranges|]; simpl; [|done].
    by destruct (in_word_char_ranges ranges c). }
  split; [|split; [done|split]].
  - intros Hc Hg Hp Hs. rewrite Hhi by done.
    unfold unicode_word_char. rewrite Hg, Hp, Hs.
    replace (c =? 0) with false by lia. apply orb_true_r.
  - unfold vte_terminal_is_word_char, in_word_chars.
    destruct wc as [ranges|]; [|discriminate]. by intros ->.
  - intros Hc range rest ->. unfold vte_terminal_is_word_char, in_word_chars.
    destruct (in_word_char_ranges (range :: rest) c); [done|].
    replace (c >=? 128) with false by lia. done.
Qed.

Lemma is_word_char_table_effect_witness :
  vte_terminal_is_word_char sample_unichar (Some [mkRange 97 122]) 233 = true
  /\ vte_terminal_is_word_char sample_unichar (Some [mkRange 97 122]) 45
     = in_word_chars (Some [mkRange 97 122]) 45.
Proof.
  split.
  - apply (proj1 (is_word_char_table_effect sample_unichar (Some [mkRange 97 122]) 233));
      [lia | reflexivity | reflexivity | reflexivity].
  - apply (proj2 (proj2 (proj2
             (is_word_char_table_effect sample_unichar (Some [mkRange 97 122]) 45)))
             ltac:(lia) (mkRange 97 122) [] eq_refl).
Defined.

(** C10 as stated fails in its second half: a range of the table makes the
    non-ASCII code point U+00A0 a word character, which it is not without
    the table; and for the ASCII letter [a] a table that holds only the
    digits does not add to the word class but takes the letter out of it. *)
Lemma is_word_char_table_adds_non_ascii :
  128 <= 160
  /\ vte_terminal_is_word_char sample_unichar (Some [mkRange 160 160]) 160 = true
  /\ vte_terminal_is_word_char sample_unichar (Some []) 160 = false
  /\ vte_terminal_is_word_char sample_unichar None 160 = false
  /\ vte_terminal_is_word_char sample_unichar None 97 = true
  /\ vte_terminal_is_word_char sample_unichar (Some [mkRange 48 57]) 97 = false.
Proof. split; [lia|]. by vm_compute. Qed.

(** C6 (amended): [vte_same_class] holds exactly when both positions hold a
    populated cell and both cells hold word characters; two non-word
    characters are never grouped. *)
Theorem vte_same_class_iff
    (iso : VteIso2022) (u : GUnichar) (wc : option (list VteWordCharRange))
    (s : VteScreen) (acol arow bcol brow : Z) :
  vte_same_class iso u wc s acol arow bcol brow = true <->
  exists a b,
    vte_screen_find_charcell s acol arow = Some a /\ cell_c a <> 0 /\
    vte_screen_find_charcell s bcol brow = Some b /\ cell_c b <> 0 /\
    both_word_chars iso u wc a b = true.
Proof.
  unfold vte_same_class, both_word_chars. split.
  - destruct (vte_screen_find_charcell s acol arow) as [a|]; [|discriminate].
    destruct (cell_c a =? 0) eqn:Ea; [discriminate|].
    destruct (vte_terminal_is_word_char u wc (unistr_get_base iso (cell_c a)))
      eqn:Wa; simpl; [|discriminate].
    destruct (vte_screen_find_charcell s bcol brow) as [b|]; [|discriminate].
    destruct (cell_c b =? 0) eqn:Eb; [discriminate|].
    destruct (vte_terminal_is_word_char u wc (unistr_get_base iso (cell_c b)))
      eqn:Wb; simpl; [|discriminate].
    intros _. exists a, b. rewrite Wa, Wb. repeat split; lia.
  - intros (a & b & -> & Ha & -> & Hb & Hw).
    apply andb_true_iff in Hw as [-> ->]. simpl.
    replace (cell_c a =? 0) with false by lia.
    replace (cell_c b =? 0) with false by lia. done.
Qed.

(** C6 as stated fails: both cells of [punctuation_screen] are populated and
    hold non-word characters, and [vte_same_class] does not group them. *)
Lemma vte_same_class_non_word_chars :
  vte_screen_find_charcell punctuation_screen 0 0 = Some (plain_cell 45)
  /\ vte_screen_find_charcell punctuation_screen 1 0 = Some (plain_cell 43)
  /\ vte_terminal_is_word_char sample_unichar None
       (unistr_get_base sample_iso2022 45) = false
  /\ vte_terminal_is_word_char sample_unichar None
       (unistr_get_base sample_iso2022 43) = false
  /\ vte_same_class sample_iso2022 sample_unichar None punctuation_screen 0 0 1 0
     = false.
Proof. by vm_compute. Qed.

(** ** The match table *)

Section MatchTable.

Context {GRegex : Type}.
Implicit Types (l : list (vte_match_regex GRegex)) (m : VteMatch GRegex).

(** [search_hole] stops at the first hole, or behind the last entry. *)
Lemma search_hole_spec l (n : nat) :
  (n <= search_hole l n <= n + length l)%nat
  /\ (forall j e, (n + j < search_hole l n)%nat -> l !! j = Some e -> mr_tag e <> -1)
  /\ ((search_hole l n < n + length l)%nat ->
      exists e, l !! (search_hole l n - n)%nat = Some e /\ mr_tag e = -1).
Proof.
  revert n. induction l as [|e0 l IH]; intros n; simpl.
  - split; [lia|]. split; [|lia]. intros j e _ Hj. by rewrite lookup_nil in Hj.
  - destruct (mr_tag e0 =? -1) eqn:E.
    + split; [lia|]. split; [lia|].
      intros _. replace (n - n)%nat with 0%nat by lia. exists e0. split; [done|lia].
    + destruct (IH (S n)) as (Hr & Hbefore & Hat). split; [lia|]. split.
      * intros [|j] e Hj He; simpl in He.
        -- injection He as <-. lia.
        -- apply (Hbefore j e); [lia|done].
      * intros Hlt. destruct Hat as (e & He & Htag); [lia|].
        exists e. split; [|done].
        replace (search_hole l (S n) - n)%nat
          with (S (search_hole l (S n) - S n)) by lia.
        done.
Qed.

Lemma to_guint_small (tag : Z) : 0 <= tag < 2 ^ 32 -> to_guint tag = tag.
Proof. intros H. unfold to_guint. by apply Z.mod_small. Qed.

End MatchTable.

(** C7: [vte_terminal_match_remove] turns the entry of a registered tag into
    a hole (tag -1) where it stands, the table keeps its length and every
    other entry; [vte_terminal_match_add_gregex] returns the smallest index
    that holds a hole and stores the regex there, or appends when there is no
    hole, and leaves every other entry as it was; an add that follows the
    removal of [tag] therefore returns a tag not above [tag]. *)
Theorem match_remove_add_holes {GRegex : Type} (default_cursor : Z)
    (m : VteMatch GRegex) (tag : Z) (e : vte_match_regex GRegex)
    (regex : GRegex) (flags : Z) :
  0 <= tag < 2 ^ 31 ->
  match_regexes m !! Z.to_nat tag = Some e ->
  0 <= mr_tag e ->
  let m1 := vte_terminal_match_remove m tag in
  (match_regexes m1 = <[Z.to_nat tag := regex_match_clear e]> (match_regexes m)
   /\ match_regexes m1 !! Z.to_nat tag = Some (regex_match_clear e)
   /\ mr_tag (regex_match_clear e) = -1
   /\ length (match_regexes m1) = length (match_regexes m)
   /\ (forall j, j <> Z.to_nat tag -> match_regexes m1 !! j = match_regexes m !! j))
  /\ (forall m' : VteMatch GRegex,
        let ret := fst (vte_terminal_match_add_gregex default_cursor m' regex flags) in
        let m2 := snd (vte_terminal_match_add_gregex default_cursor m' regex flags) in
        let new := mkMatchRegex (Some regex) flags ret
                     (VTE_REGEX_CURSOR_GDKCURSORTYPE default_cursor) in
        0 <= ret <= Z.of_nat (length (match_regexes m'))
        /\ (forall j e', (Z.of_nat j < ret) -> match_regexes m' !! j = Some e' ->
                         mr_tag e' <> -1)
        /\ (ret < Z.of_nat (length (match_regexes m')) ->
            (exists e', match_regexes m' !! Z.to_nat ret = Some e' /\ mr_tag e' = -1)
            /\ match_regexes m2 = <[Z.to_nat ret := new]> (match_regexes m'))
        /\ (ret = Z.of_nat (length (match_regexes m')) ->
            match_regexes m2 = match_regexes m' ++ [new])
        /\ match_regexes m2 !! Z.to_nat ret = Some new
        /\ (forall j, (j < length (match_regexes m'))%nat -> j <> Z.to_nat ret ->
                      match_regexes m2 !! j = match_regexes m' !! j))
  /\ fst (vte_terminal_match_add_gregex default_cursor m1 regex flags) <= tag.
Proof.
  intros Htag He Hreg m1.
  assert (Hlen : (Z.to_nat tag < length (match_regexes m))%nat)
    by (by eapply lookup_lt_Some).
  assert (Hm1 : match_regexes m1
                = <[Z.to_nat tag := regex_match_clear e]> (match_regexes m)).
  { subst m1. unfold vte_terminal_match_remove.
    rewrite to_guint_small by lia.
    replace (Z.of_nat (length (match_regexes m)) >? tag) with true by lia.
    rewrite He. replace (mr_tag e <? 0) with false by lia. done. }
  assert (Hadd : forall m' : VteMatch GRegex,
        let ret := fst (vte_terminal_match_add_gregex default_cursor m' regex flags) in
        let m2 := snd (vte_terminal_match_add_gregex default_cursor m' regex flags) in
        let new := mkMatchRegex (Some regex) flags ret
                     (VTE_REGEX_CURSOR_GDKCURSORTYPE default_cursor) in
        0 <= ret <= Z.of_nat (length (match_regexes m'))
        /\ (forall j e', (Z.of_nat j < ret) -> match_regexes m' !! j = Some e' ->
                         mr_tag e' <> -1)
        /\ (ret < Z.of_nat (length (match_regexes m')) ->
            (exists e', match_regexes m' !! Z.to_nat ret = Some e' /\ mr_tag e' = -1)
            /\ match_regexes m2 = <[Z.to_nat ret := new]> (match_regexes m'))
        /\ (ret = Z.of_nat (length (match_regexes m')) ->
            match_regexes m2 = match_regexes m' ++ [new])
        /\ match_regexes m2 !! Z.to_nat ret = Some new
        /\ (forall j, (j < length (match_regexes m'))%nat -> j <> Z.to_nat ret ->
                      match_regexes m2 !! j = match_regexes m' !! j)).
  { intros m'. destruct (search_hole_spec (match_regexes m') 0) as (Hr & Hbefore & Hat).
    unfold vte_terminal_match_add_gregex.
    set (r := search_hole (match_regexes m') 0) in *.
    destruct (r <? length (match_regexes m'))%nat eqn:E; simpl.
    - apply Nat.ltb_lt in E. rewrite Nat2Z.id.
      split; [lia|]. split; [intros j e' Hj; apply Hbefore; lia|].
      split.
      { intros _. split; [|done]. destruct Hat as (e' & He' & Ht); [lia|].
        exists e'. by rewrite Nat.sub_0_r in He'. }
      split; [lia|]. split; [by apply list_lookup_insert_eq|].
      intros j _ Hj. by apply list_lookup_insert_ne.
    - apply Nat.ltb_ge in E. rewrite Nat2Z.id.
      assert (r = length (match_regexes m')) as Hrl by lia.
      split; [lia|]. split; [intros j e' Hj; apply Hbefore; lia|].
      split; [lia|]. split; [done|]. split.
      + rewrite Hrl. by rewrite lookup_app_r, Nat.sub_diag.
      + intros j Hj _. by apply lookup_app_l. }
  split; [|split; [exact Hadd|]].
  - rewrite Hm1. split; [done|]. split; [by apply list_lookup_insert_eq|].
    split; [done|]. split; [by apply length_insert|].
    intros j Hj. by apply list_lookup_insert_ne.
  - destruct (Hadd m1) as (Hr & Hbefore & _).
    destruct (Z_le_gt_dec
      (fst (vte_terminal_match_add_gregex default_cursor m1 regex flags)) tag)
      as [|Hgt]; [done|].
    exfalso. apply (Hbefore (Z.to_nat tag) (regex_match_clear e)); [lia| |done].
    rewrite Hm1. by apply list_lookup_insert_eq.
Qed.

Lemma match_remove_add_holes_witness :
  let m1 := vte_terminal_match_remove sample_match 1 in
  match_regexes m1 !! 1%nat = Some (regex_match_clear (mkMatchRegex (Some 11) 0 1 sample_cursor))
  /\ fst (vte_terminal_match_add_gregex 152 m1 13 0) <= 1.
Proof.
  pose proof (match_remove_add_holes 152 sample_match 1
                (mkMatchRegex (Some 11) 0 1 sample_cursor) 13 0
                ltac:(lia) eq_refl ltac:(simpl; lia)) as H.
  split.
  - exact (proj1 (proj2 (proj1 H))).
  - exact (proj2 (proj2 H)).
Defined.

(** ** The match cache *)

(** Outside the cached range the table of regexes is run over the line under
    the pointer, after the projection was rebuilt if it was missing. *)
Lemma match_check_uncached {GRegex : Type}
    (get_text : VteTerminal -> string * list VteCharAttributes)
    (scan : VteMatch GRegex -> Z -> Z -> option string * Z * Z * Z)
    (t : VteTerminal) (m : VteMatch GRegex) (column row : Z) :
  rowcol_inside_match m (row + scroll_delta (screen t)) column = false ->
  snd (vte_terminal_match_check get_text scan t m column row)
  = match match_contents m with
    | None => [ContentsRefreshed; RegexesScanned]
    | Some _ => [RegexesScanned]
    end.
Proof.
  intros Hout. unfold vte_terminal_match_check, vte_terminal_match_check_internal.
  rewrite Hout. destruct (match_contents m); by destruct (scan _ _ _) as [[[? ?] ?] ?].
Qed.

(** [rowcol_inside_match] decides whether a position lies between the start
    and the end of the cached match, in reading order. *)
Lemma rowcol_inside_match_iff {GRegex : Type} (m : VteMatch GRegex) (row col : Z) :
  rowcol_inside_match m row col = true
  <-> position_le (match_start m) (mkPos row col)
      /\ position_le (mkPos row col) (match_end m).
Proof.
  unfold rowcol_inside_match, position_le. simpl.
  destruct (pos_row (match_start m) =? pos_row (match_end m)) eqn:Erow.
  - apply Z.eqb_eq in Erow. rewrite !andb_true_iff. lia.
  - apply Z.eqb_neq in Erow.
    destruct ((row <? pos_row (match_start m)) || (row >? pos_row (match_end m))) eqn:Eout.
    + apply orb_true_iff in Eout. split; [discriminate|lia].
    + apply orb_false_iff in Eout as [Hlo Hhi].
      destruct (row =? pos_row (match_start m)) eqn:Es.
      * apply Z.eqb_eq in Es. lia.
      * apply Z.eqb_neq in Es.
        destruct (row =? pos_row (match_end m)) eqn:Ee.
        -- apply Z.eqb_eq in Ee. lia.
        -- apply Z.eqb_neq in Ee. split; [lia|done].
Qed.

(** C8: at a position that lies inside the range recorded for the cached
    match (not before [match_start] and not behind [match_end], rows counted
    from the top of the buffer) [vte_terminal_match_check] returns the
    cached string and the cached tag; the match state is left as it was, the
    projection is not rebuilt and no regex is run. *)
Theorem match_check_cached {GRegex : Type}
    (get_text : VteTerminal -> string * list VteCharAttributes)
    (scan : VteMatch GRegex -> Z -> Z -> option string * Z * Z * Z)
    (t : VteTerminal) (m : VteMatch GRegex) (column row : Z) :
  position_le (match_start m) (mkPos (row + scroll_delta (screen t)) column) ->
  position_le (mkPos (row + scroll_delta (screen t)) column) (match_end m) ->
  rowcol_inside_match m (row + scroll_delta (screen t)) column = true
  /\ vte_terminal_match_check get_text scan t m column row
     = (match_ m, match_tag m, m, []).
Proof.
  intros Hstart Hend.
  assert (Hin : rowcol_inside_match m (row + scroll_delta (screen t)) column = true)
    by (by apply rowcol_inside_match_iff).
  split; [exact Hin|]. unfold vte_terminal_match_check. by rewrite Hin.
Qed.

Lemma match_check_cached_witness :
  vte_terminal_match_check
    (fun _ => (EmptyString, [])) (fun _ _ _ => (None, -1, 0, 0))
    (sample_terminal (sample_screen (mkRing 0 [] 100) (mkPos 0 0)))
    cached_match 10 7
  = (Some "https://example.com"%string, 0, cached_match, []).
Proof.
  apply (match_check_cached (fun _ => (EmptyString, [])) (fun _ _ _ => (None, -1, 0, 0))
           (sample_terminal (sample_screen (mkRing 0 [] 100) (mkPos 0 0)))
           cached_match 10 7).
  - right. vm_compute. split; [reflexivity|congruence].
  - right. vm_compute. split; [reflexivity|congruence].
Defined.

(** ** The ring *)

Section RingFacts.

Implicit Types (r : VteRing) (f g : VteRowData -> VteRowData) (i j : Z).

Lemma ring_contains_iff r i :
  _vte_ring_contains r i = true <-> ring_delta r <= i < _vte_ring_next r.
Proof. unfold _vte_ring_contains. lia. Qed.

Lemma ring_index_Some r i row :
  _vte_ring_index r i = Some row ->
  ring_delta r <= i < _vte_ring_next r
  /\ ring_rows r !! Z.to_nat (i - ring_delta r) = Some row.
Proof.
  unfold _vte_ring_index. destruct (_vte_ring_contains r i) eqn:E; [|discriminate].
  apply ring_contains_iff in E. done.
Qed.

Lemma ring_index_contains r i :
  _vte_ring_contains r i = true -> exists row, _vte_ring_index r i = Some row.
Proof.
  intros H. unfold _vte_ring_index. rewrite H. apply ring_contains_iff in H.
  unfold _vte_ring_next, _vte_ring_length in H.
  apply lookup_lt_is_Some_2. lia.
Qed.


Lemma ring_alter_delta f i r : ring_delta (ring_alter f i r) = ring_delta r.
Proof. unfold ring_alter. by destruct (_vte_ring_contains r i). Qed.

Lemma ring_alter_max f i r : ring_max (ring_alter f i r) = ring_max r.
Proof. unfold ring_alter. by destruct (_vte_ring_contains r i). Qed.

Lemma ring_alter_length f i r :
  _vte_ring_length (ring_alter f i r) = _vte_ring_length r.
Proof.
  unfold ring_alter, _vte_ring_length.
  destruct (_vte_ring_contains r i); simpl; [|done]. by rewrite length_alter.
Qed.

Lemma ring_alter_next f i r : _vte_ring_next (ring_alter f i r) = _vte_ring_next r.
Proof. unfold _vte_ring_next. by rewrite ring_alter_delta, ring_alter_length. Qed.

Lemma ring_alter_contains f i r j :
  _vte_ring_contains (ring_alter f i r) j = _vte_ring_contains r j.
Proof. unfold _vte_ring_contains. by rewrite ring_alter_delta, ring_alter_next. Qed.

Lemma ring_index_alter_eq f i r :
  _vte_ring_index (ring_alter f i r) i = f <$> _vte_ring_index r i.
Proof.
  unfold _vte_ring_index. rewrite ring_alter_contains.
  unfold ring_alter. destruct (_vte_ring_contains r i); [|done].
  simpl. apply list_lookup_alter_eq.
Qed.

Lemma ring_index_alter_ne f i r j :
  i <> j -> _vte_ring_index (ring_alter f i r) j = _vte_ring_index r j.
Proof.
  intros Hne. unfold _vte_ring_index. rewrite ring_alter_contains.
  destruct (_vte_ring_contains r j) eqn:Ej; [|done].
  unfold ring_alter. destruct (_vte_ring_contains r i) eqn:Ei; [|done].
  simpl. apply ring_contains_iff in Ei, Ej.
  apply list_lookup_alter_ne. lia.
Qed.

Lemma ring_alter_compose f g i r :
  ring_alter f i (ring_alter g i r) = ring_alter (fun row => f (g row)) i r.
Proof.
  unfold ring_alter at 1. rewrite ring_alter_contains.
  unfold ring_alter. destruct (_vte_ring_contains r i); [|done].
  simpl. f_equal. apply list_alter_alter_eq.
Qed.

Lemma ring_alter_ext f g i r :
  (forall row, _vte_ring_index r i = Some row -> f row = g row) ->
  ring_alter f i r = ring_alter g i r.
Proof.
  intros H. unfold ring_alter. destruct (_vte_ring_contains r i) eqn:E; [|done].
  f_equal. apply list_alter_ext; [|done].
  intros row Hrow. apply H. unfold _vte_ring_index. by rewrite E.
Qed.

Lemma ring_alter_id f i r :
  (forall row, _vte_ring_index r i = Some row -> f row = row) ->
  ring_alter f i r = r.
Proof.
  intros H. unfold ring_alter. destruct (_vte_ring_contains r i) eqn:E; [|done].
  destruct r as [d rows mx]. simpl in *. f_equal.
  apply list_eq. intros k. destruct (decide (k = Z.to_nat (i - d))) as [->|Hk].
  - rewrite list_lookup_alter_eq.
    destruct (rows !! Z.to_nat (i - d)) as [row|] eqn:Er; [|done].
    simpl. f_equal. apply H. unfold _vte_ring_index. simpl. by rewrite E.
  - by rewrite list_lookup_alter_ne.
Qed.

End RingFacts.

(** ** Rows reached through the terminal *)

Section TerminalFacts.

Implicit Types (t : VteTerminal) (f g : VteRowData -> VteRowData) (r : Z).

Lemma modify_row_compose f g r t :
  modify_row f r (modify_row g r t) = modify_row (fun row => f (g row)) r t.
Proof.
  unfold modify_row, set_ring, set_screen, set_row_data, ring. simpl.
  by rewrite ring_alter_compose.
Qed.

Lemma ring_modify_row f r t : ring (modify_row f r t) = ring_alter f r (ring t).
Proof. reflexivity. Qed.




Lemma index_modify_row_eq f r t :
  _vte_ring_index (ring (modify_row f r t)) r = f <$> _vte_ring_index (ring t) r.
Proof. rewrite ring_modify_row. apply ring_index_alter_eq. Qed.

Lemma index_modify_row_ne f r t j :
  r <> j -> _vte_ring_index (ring (modify_row f r t)) j = _vte_ring_index (ring t) j.
Proof. intros. rewrite ring_modify_row. by apply ring_index_alter_ne. Qed.

(** A cursor row that is in the ring needs no new rows. *)
Lemma ensure_row_contained t :
  cursor_row t < _vte_ring_next (ring t) ->
  _vte_terminal_ensure_row t = (t, cursor_row t).
Proof.
  intros H. unfold _vte_terminal_ensure_row.
  replace (cursor_row t - _vte_ring_next (ring t) + 1 >? 0) with false by lia.
  done.
Qed.

Lemma insert_char_store_contained t (insert : bool) (c col columns : Z) :
  cursor_row t < _vte_ring_next (ring t) ->
  insert_char_store t insert c col columns
  = (modify_row
       (fun row =>
          insert_char_row t insert c col columns
            (cleanup_tab_row (fill_defaults (screen t)) (cursor_col t)
               (_vte_row_data_fill row basic_cell (cursor_col t))))
       (cursor_row t) t,
     cursor_row t).
Proof.
  intros H. unfold insert_char_store, vte_terminal_ensure_cursor.
  rewrite ensure_row_contained by done.
  unfold _vte_terminal_cleanup_tab_fragments_at_cursor.
  rewrite ensure_row_contained
    by (rewrite ring_modify_row, ring_alter_next; exact H).
  by rewrite !modify_row_compose.
Qed.

End TerminalFacts.

(** ** Room for the character *)

Section RowFacts.

Implicit Types (row : VteRowData) (cell cd : VteCell) (l : list VteCell).

Lemma row_data_eq row row' :
  cells row = cells row' -> soft_wrapped row = soft_wrapped row' -> row = row'.
Proof. destruct row, row'. simpl. by intros -> ->. Qed.

Lemma row_data_fill_length row cell (n : Z) :
  length (cells (_vte_row_data_fill row cell n))
  = Nat.max (length (cells row)) (Z.to_nat n).
Proof. simpl. rewrite length_app, length_replicate. lia. Qed.

Lemma row_data_fill_ge row cell (n : Z) :
  (Z.to_nat n <= length (cells row))%nat -> _vte_row_data_fill row cell n = row.
Proof.
  intros H. unfold _vte_row_data_fill, set_cells. destruct row as [l sw]. simpl in *.
  replace (Z.to_nat n - length l)%nat with 0%nat by lia.
  simpl. by rewrite app_nil_r.
Qed.

Lemma row_data_fill_lookup row cell (n : Z) (j : nat) :
  cells (_vte_row_data_fill row cell n) !! j
  = if decide (j < length (cells row))%nat then cells row !! j
    else if decide (j < Z.to_nat n)%nat then Some cell else None.
Proof.
  simpl. case_decide.
  - by apply lookup_app_l.
  - rewrite lookup_app_r by lia. case_decide.
    + apply lookup_replicate_2. lia.
    + apply lookup_replicate_None. lia.
Qed.

Lemma insert_cells_cells cd (n : nat) (col : Z) row :
  0 <= col -> (Z.to_nat col <= length (cells row))%nat ->
  cells (insert_cells cd n col row)
  = take (Z.to_nat col) (cells row) ++ replicate n cd ++ drop (Z.to_nat col) (cells row).
Proof.
  revert col row. induction n as [|n IH]; intros col row Hcol Hlen; simpl.
  - by rewrite take_drop.
  - rewrite IH; [|lia|].
    + simpl. replace (Z.to_nat (col + 1)) with (Z.to_nat col + 1)%nat by lia.
      set (k := Z.to_nat col) in *.
      assert (length (take k (cells row)) = k) as Hk by (rewrite length_take; lia).
      rewrite (take_app_add' _ _ k 1) by done.
      rewrite (drop_app_add' _ _ k 1) by done.
      simpl. rewrite drop_0. rewrite <- app_assoc. done.
    + simpl. rewrite length_app, length_take. simpl. rewrite length_drop. lia.
Qed.

Lemma insert_cells_soft_wrapped cd (n : nat) (col : Z) row :
  soft_wrapped (insert_cells cd n col row) = soft_wrapped row.
Proof. revert col row. induction n as [|n IH]; intros; simpl; [done|]. by rewrite IH. Qed.

(** After the padding the row reaches behind the character. *)
Lemma pad_row_length (insert : bool) cd (col columns : Z) row :
  0 <= col -> (Z.to_nat col <= length (cells row))%nat ->
  (Z.to_nat (col + columns) <= length (cells (pad_row insert cd col columns row)))%nat.
Proof.
  intros Hcol Hlen. unfold pad_row. destruct insert.
  - rewrite insert_cells_cells by done.
    rewrite !length_app, length_take, length_replicate, length_drop. lia.
  - rewrite row_data_fill_length. lia.
Qed.

End RowFacts.

(** ** What [_vte_terminal_insert_char] does when it need not wrap first *)

Lemma insert_char_no_wrap_before (iso : VteIso2022) (t : VteTerminal)
    (c c' w : Z) (insert : bool) :
  status_line (screen t) = false ->
  character_width iso (charset_substitute iso (screen t) c) = (c', w) ->
  w <> 0 ->
  cursor_col t + w <= column_count t ->
  _vte_terminal_insert_char iso t c insert
  = (false,
     set_text_inserted_flag true
       (insert_char_write t (insert || insert_mode (screen t)) c' (cursor_col t) w)).
Proof.
  intros Hs Hw Hw0 Hfit. unfold _vte_terminal_insert_char.
  rewrite Hs, Hw. unfold insert_char_autowrap_before.
  replace (cursor_col t + w >? column_count t) with false by lia.
  rewrite andb_false_r. by replace (w =? 0) with false by lia.
Qed.

(** The padding of a row that is in the ring, and what
    [_vte_terminal_insert_char] stores there. *)
Lemma padding_of_present_row (iso : VteIso2022) (t : VteTerminal)
    (c c' w : Z) (insert : bool) (row : VteRowData) :
  status_line (screen t) = false ->
  character_width iso (charset_substitute iso (screen t) c) = (c', w) ->
  0 < w ->
  0 <= cursor_col t ->
  cursor_col t + w <= column_count t ->
  _vte_ring_index (ring t) (cursor_row t) = Some row ->
  let ins := insert || insert_mode (screen t) in
  let col := cursor_col t in
  let row1 := cleanup_tab_row (fill_defaults (screen t)) col
                (_vte_row_data_fill row basic_cell col) in
  let padded := pad_row ins (color_defaults (screen t)) col w row1 in
  cells (_vte_row_data_fill row basic_cell col)
  = cells row ++ replicate (Z.to_nat col - length (cells row)) basic_cell
  /\ (ins = false ->
      cells padded
      = cells row1 ++ replicate (Z.to_nat (col + w) - length (cells row1)) basic_cell)
  /\ (ins = true ->
      cells padded
      = take (Z.to_nat col) (cells row1)
        ++ replicate (Z.to_nat w) (color_defaults (screen t))
        ++ drop (Z.to_nat col) (cells row1))
  /\ _vte_terminal_insert_char iso t c insert
     = (false,
        set_text_inserted_flag true
          (insert_char_autowrap_after
             (modify_row
                (fun _ => write_cells t c' col w
                            (break_wide_right (col + w) (break_wide_left col padded)))
                (cursor_row t) t)
             (cursor_row t) col w)).
Proof.
  intros Hs Hw Hw0 Hcol Hfit Hrow ins col row1 padded.
  assert (Hlen1 : (Z.to_nat col <= length (cells row1))%nat).
  { subst row1. unfold cleanup_tab_row.
    destruct (_vte_row_data_get _ _) as [pcell|]; [|rewrite row_data_fill_length; lia].
    destruct (cell_c pcell =? 9); [|rewrite row_data_fill_length; lia].
    destruct (_ !! _) as [cell|]; [|rewrite row_data_fill_length; lia].
    simpl.
    assert (Hfr : forall v n s l, length (fill_range v s n l) = length l).
    { intros v n. induction n as [|n IH]; intros s l; simpl; [done|].
      by rewrite IH, length_insert. }
    rewrite Hfr, length_app, length_replicate. lia. }
  split; [done|]. split; [|split].
  - intros Hins. subst padded. by rewrite Hins.
  - intros Hins. subst padded. rewrite Hins. simpl.
    by apply insert_cells_cells.
  - rewrite (insert_char_no_wrap_before iso t c c' w insert) by (done || lia).
    apply ring_index_Some in Hrow as Hrow'.
    unfold insert_char_write.
    rewrite insert_char_store_contained by lia.
    do 3 f_equal. unfold modify_row. f_equal.
    apply ring_alter_ext. intros row' Hrow''.
    rewrite Hrow in Hrow''. by injection Hrow'' as <-.
Qed.

(** C1 as stated fails: [fill_defaults] of [blue_terminal] has a blue
    background, and the two cells that pad the row out to the cursor carry
    the default background of [basic_cell]. *)
Lemma insert_char_pads_with_basic_cell :
  let t' := snd (_vte_terminal_insert_char sample_iso2022 blue_terminal 98 false) in
  insert_mode (screen blue_terminal) = false
  /\ (cells <$> _vte_ring_index (ring t') 0)
     = Some [plain_cell 97; basic_cell; basic_cell;
             mkCell 98 (cell_attr blue_cell)]
  /\ attr_back (cell_attr basic_cell) = VTE_DEF_BG
  /\ attr_back (cell_attr (fill_defaults (screen blue_terminal))) = 4
  /\ basic_cell <> fill_defaults (screen blue_terminal).
Proof. by vm_compute. Qed.

(** ** Wide characters that the new character breaks *)

Section WideFacts.

Implicit Types (row : VteRowData) (cell : VteCell) (l : list VteCell).

Lemma back_over_fragments_le l (n : nat) : (back_over_fragments l n <= n)%nat.
Proof.
  induction n as [|n IH]; simpl; [done|].
  destruct (l !! S n) as [cell|]; [|done].
  destruct (cell_fragment cell); lia.
Qed.

(** Every cell that the walk steps over is a fragment. *)
Lemma back_over_fragments_between l (n k : nat) :
  (back_over_fragments l n < k <= n)%nat ->
  exists cell, l !! k = Some cell /\ cell_fragment cell = true.
Proof.
  induction n as [|n IH]; simpl; [lia|].
  destruct (l !! S n) as [cell|] eqn:E; [|lia].
  destruct (cell_fragment cell) eqn:F; [|lia].
  intros Hk. destruct (decide (k = S n)) as [->|Hne].
  - by exists cell.
  - apply IH. lia.
Qed.

(** The walk stops in the first column or on a cell that begins a
    character. *)
Lemma back_over_fragments_stop l (n : nat) cell :
  l !! back_over_fragments l n = Some cell ->
  back_over_fragments l n = 0%nat \/ cell_fragment cell = false.
Proof.
  induction n as [|n IH]; simpl; [by left|].
  destruct (l !! S n) as [cell'|] eqn:E.
  - destruct (cell_fragment cell') eqn:F; [done|].
    intros H. rewrite E in H. injection H as <-. by right.
  - intros H. by rewrite E in H.
Qed.

(** The walk only looks at the cells up to its start. *)
Lemma back_over_fragments_ext l l' (n : nat) :
  (forall k, (k <= n)%nat -> l !! k = l' !! k) ->
  back_over_fragments l n = back_over_fragments l' n.
Proof.
  induction n as [|n IH]; simpl; [done|]. intros H.
  rewrite <- (H (S n)) by lia.
  destruct (l !! S n) as [cell|]; [|done].
  destruct (cell_fragment cell); [|done]. apply IH. intros k Hk. apply H. lia.
Qed.

Lemma blank_fragments_length l : length (blank_fragments l) = length l.
Proof.
  induction l as [|cell l IH]; simpl; [done|].
  destruct (cell_fragment cell); simpl; by rewrite ?IH.
Qed.

Lemma blank_fragments_lookup l (j : nat) cell :
  l !! j = Some cell ->
  (forall k, (k <= j)%nat -> exists cell', l !! k = Some cell' /\ cell_fragment cell' = true) ->
  blank_fragments l !! j = Some (set_cell_c 0 (set_cell_columns 1 cell)).
Proof.
  revert j. induction l as [|cell0 l IH]; intros j Hj Hfrag; [done|].
  simpl. destruct (Hfrag 0%nat) as (cell' & H0 & F0); [lia|].
  simpl in H0. injection H0 as <-. rewrite F0.
  destruct j as [|j]; simpl in *.
  - by injection Hj as <-.
  - apply IH; [done|]. intros k Hk. apply (Hfrag (S k)). lia.
Qed.

(** Behind the first cell that begins a character nothing changes. *)
Lemma blank_fragments_lookup_after l (j k : nat) cell :
  (k <= j)%nat -> l !! k = Some cell -> cell_fragment cell = false ->
  blank_fragments l !! j = l !! j.
Proof.
  revert j k. induction l as [|cell0 l IH]; intros j k Hk Hc F; [done|].
  simpl. destruct (cell_fragment cell0) eqn:F0; [|done].
  destruct k as [|k]; simpl in Hc.
  - injection Hc as <-. congruence.
  - destruct j as [|j]; [lia|]. simpl. apply (IH j k); [lia|done..].
Qed.

Lemma blank_fragments_soft l : Forall (fun cell => cell_fragment cell = false) (take 1 l) ->
  blank_fragments l = l.
Proof.
  destruct l as [|cell l]; [done|]. simpl. intros H.
  apply Forall_cons in H as [-> _]. done.
Qed.

Lemma write_fragments_soft_wrapped cell (n : nat) (col : Z) row :
  soft_wrapped (write_fragments cell n col row) = soft_wrapped row.
Proof.
  revert col row. induction n as [|n IH]; intros; simpl; [done|].
  rewrite IH. unfold row_alter. by destruct (col <? 0).
Qed.

Lemma write_fragments_length cell (n : nat) (col : Z) row :
  length (cells (write_fragments cell n col row)) = length (cells row).
Proof.
  revert col row. induction n as [|n IH]; intros; simpl; [done|].
  rewrite IH. unfold row_alter. destruct (col <? 0); [done|].
  simpl. by rewrite length_alter.
Qed.

Lemma write_fragments_lookup_other cell (n : nat) (col : Z) row (j : nat) :
  0 <= col -> (Z.of_nat j < col \/ col + Z.of_nat n <= Z.of_nat j) ->
  cells (write_fragments cell n col row) !! j = cells row !! j.
Proof.
  revert col row. induction n as [|n IH]; intros col row Hcol Hj; simpl; [done|].
  rewrite IH by lia. unfold row_alter.
  replace (col <? 0) with false by lia. simpl.
  apply list_lookup_alter_ne. lia.
Qed.

Lemma write_fragments_lookup_in cell (n : nat) (col : Z) row (j : nat) :
  0 <= col -> col <= Z.of_nat j < col + Z.of_nat n ->
  (j < length (cells row))%nat ->
  cells (write_fragments cell n col row) !! j = Some cell.
Proof.
  revert col row. induction n as [|n IH]; intros col row Hcol Hj Hlen; simpl; [lia|].
  destruct (decide (Z.of_nat j = col)) as [Heq|Hne].
  - rewrite write_fragments_lookup_other by lia.
    unfold row_alter. replace (col <? 0) with false by lia. simpl.
    replace (Z.to_nat col) with j by lia.
    rewrite list_lookup_alter_eq.
    destruct (lookup_lt_is_Some_2 (cells row) j Hlen) as [x ->]. done.
  - apply IH; [lia|lia|].
    unfold row_alter. replace (col <? 0) with false by lia. simpl.
    by rewrite length_alter.
Qed.

(** The cells before and behind the character are stored as the two loops
    over the broken wide characters left them. *)
Lemma write_cells_lookup_other (t : VteTerminal) (c col columns : Z) row (j : nat) :
  0 <= col -> 0 < columns ->
  (Z.of_nat j < col \/ col + columns <= Z.of_nat j) ->
  Z.of_nat j < column_count t ->
  cells (write_cells t c col columns row) !! j = cells row !! j.
Proof.
  intros Hcol Hw Hj Hcc. unfold write_cells.
  destruct (overstrike _ _ _ _) as [c1 a1]. simpl.
  rewrite lookup_take_lt by lia.
  rewrite write_fragments_lookup_other; [|lia|lia].
  unfold row_alter. replace (col <? 0) with false by lia. simpl.
  apply list_lookup_alter_ne. lia.
Qed.

Lemma break_wide_left_cells (col : Z) row :
  0 < col ->
  cells (break_wide_left col row)
  = alter (set_cell_columns
             (col - Z.of_nat (back_over_fragments (cells row) (Z.to_nat (col - 1)))))
          (back_over_fragments (cells row) (Z.to_nat (col - 1))) (cells row).
Proof.
  intros Hcol. unfold break_wide_left, row_alter.
  replace (col >? 0) with true by lia.
  rewrite (proj2 (Z.ltb_ge _ 0)) by lia. simpl. by rewrite Nat2Z.id.
Qed.

Lemma break_wide_left_lookup_ge (col : Z) row (j : nat) :
  col <= Z.of_nat j ->
  cells (break_wide_left col row) !! j = cells row !! j.
Proof.
  intros Hj. destruct (decide (0 < col)) as [Hcol|Hcol].
  - rewrite break_wide_left_cells by done.
    apply list_lookup_alter_ne.
    pose proof (back_over_fragments_le (cells row) (Z.to_nat (col - 1))). lia.
  - unfold break_wide_left. by replace (col >? 0) with false by lia.
Qed.

Lemma break_wide_left_length (col : Z) row :
  length (cells (break_wide_left col row)) = length (cells row).
Proof.
  destruct (decide (0 < col)) as [Hcol|Hcol].
  - rewrite break_wide_left_cells by done. apply length_alter.
  - unfold break_wide_left. by replace (col >? 0) with false by lia.
Qed.

Lemma break_wide_right_lookup_lt (col2 : Z) row (j : nat) :
  Z.of_nat j < col2 ->
  cells (break_wide_right col2 row) !! j = cells row !! j.
Proof.
  intros Hj. unfold break_wide_right. replace (col2 <? 0) with false by lia. simpl.
  destruct (decide (j < length (cells row))%nat).
  - rewrite lookup_app_l by (rewrite length_take; lia).
    apply lookup_take_lt. lia.
  - rewrite (lookup_ge_None_2 (cells row)) by lia.
    apply lookup_ge_None_2.
    rewrite length_app, length_take, blank_fragments_length, length_drop. lia.
Qed.

Lemma break_wide_right_length (col2 : Z) row :
  length (cells (break_wide_right col2 row)) = length (cells row).
Proof.
  unfold break_wide_right. destruct (col2 <? 0); [done|]. simpl.
  rewrite length_app, length_take, blank_fragments_length, length_drop. lia.
Qed.

(** A run of fragments that starts at [col2] is blanked cell by cell. *)
Lemma break_wide_right_lookup_run (col2 : Z) row (j : nat) cell :
  0 <= col2 <= Z.of_nat j ->
  cells row !! j = Some cell ->
  (forall k : nat, col2 <= Z.of_nat k <= Z.of_nat j ->
     exists cell', cells row !! k = Some cell' /\ cell_fragment cell' = true) ->
  cells (break_wide_right col2 row) !! j = Some (set_cell_c 0 (set_cell_columns 1 cell)).
Proof.
  intros Hj Hcell Hrun. unfold break_wide_right.
  replace (col2 <? 0) with false by lia. simpl.
  assert (Z.to_nat col2 <= length (cells row))%nat
    by (apply lookup_lt_Some in Hcell; lia).
  rewrite lookup_app_r by (rewrite length_take; lia).
  rewrite length_take, Nat.min_l by lia.
  apply blank_fragments_lookup.
  - rewrite lookup_drop. rewrite <- Hcell. f_equal. lia.
  - intros k Hk. rewrite lookup_drop. apply Hrun. lia.
Qed.

End WideFacts.

(** The two loops over the broken wide characters, for a row that is in the
    ring. *)
Lemma broken_wide_of_present_row (t : VteTerminal) (insert : bool)
    (c w : Z) (row : VteRowData) :
  0 <= cursor_col t ->
  0 < w ->
  cursor_col t + w <= column_count t ->
  _vte_ring_index (ring t) (cursor_row t) = Some row ->
  let col := cursor_col t in
  let row1 := cleanup_tab_row (fill_defaults (screen t)) col
                (_vte_row_data_fill row basic_cell col) in
  let padded := pad_row insert (color_defaults (screen t)) col w row1 in
  exists final,
    _vte_ring_index (ring (fst (insert_char_store t insert c col w))) (cursor_row t)
    = Some final
    /\ (forall (j : nat) cell,
          col + w <= Z.of_nat j < column_count t ->
          cells padded !! j = Some cell ->
          (forall k : nat, col + w <= Z.of_nat k <= Z.of_nat j ->
             exists cell', cells padded !! k = Some cell' /\ cell_fragment cell' = true) ->
          cells final !! j = Some (set_cell_c 0 (set_cell_columns 1 cell)))
    /\ (0 < col ->
        let col2 := back_over_fragments (cells padded) (Z.to_nat (col - 1)) in
        Z.of_nat col2 < col
        /\ (forall k : nat, Z.of_nat col2 < Z.of_nat k < col ->
              exists cell', cells padded !! k = Some cell' /\ cell_fragment cell' = true)
        /\ (forall cell, cells padded !! col2 = Some cell ->
              cells final !! col2 = Some (set_cell_columns (col - Z.of_nat col2) cell)
              /\ cell_c (set_cell_columns (col - Z.of_nat col2) cell) = cell_c cell)).
Proof.
  intros Hcol Hw Hfit Hrow col row1 padded.
  apply ring_index_Some in Hrow as Hrow'.
  exists (insert_char_row t insert c col w row1).
  split; [|split].
  - rewrite insert_char_store_contained by lia. simpl.
    rewrite index_modify_row_eq, Hrow. done.
  - intros j cell Hj Hcell Hrun. unfold insert_char_row. fold padded.
    rewrite write_cells_lookup_other by lia.
    apply break_wide_right_lookup_run; [lia| |].
    + by rewrite break_wide_left_lookup_ge by lia.
    + intros k Hk. rewrite break_wide_left_lookup_ge by lia. by apply Hrun.
  - intros Hcol0 col2.
    pose proof (back_over_fragments_le (cells padded) (Z.to_nat (col - 1))) as Hle.
    fold col2 in Hle. split; [lia|]. split.
    + intros k Hk. apply (back_over_fragments_between _ (Z.to_nat (col - 1))).
      fold col2. lia.
    + intros cell Hcell. split; [|done].
      unfold insert_char_row. fold padded.
      rewrite write_cells_lookup_other by lia.
      rewrite break_wide_right_lookup_lt by lia.
      rewrite break_wide_left_cells by done. fold col2.
      by rewrite list_lookup_alter_eq, Hcell.
Qed.

(** C2 as stated fails: a character written over the second cell of the wide
    character of [wide_terminal] leaves the first cell with its [c]; only the
    width of that cell is cut to one column. *)
Lemma insert_char_keeps_broken_head :
  let t' := snd (_vte_terminal_insert_char sample_iso2022 (wide_terminal 1) 97 false) in
  (cells <$> _vte_ring_index (ring t') 0)
  = Some [set_cell_columns 1 (wide_cell 20000 false); plain_cell 97]
  /\ cell_c (set_cell_columns 1 (wide_cell 20000 false)) = 20000
  /\ cell_c (set_cell_columns 1 (wide_cell 20000 false)) <> 0.
Proof. by vm_compute. Qed.

(** ** Autowrap *)

Lemma column_after_pos (col w : Z) : 0 < w -> column_after col w = col + w.
Proof. unfold column_after. lia. Qed.


Lemma insert_char_row_soft_wrapped (t : VteTerminal) (insert : bool)
    (c col w : Z) (row : VteRowData) :
  soft_wrapped (insert_char_row t insert c col w row) = soft_wrapped row.
Proof.
  unfold insert_char_row, write_cells. destruct (overstrike _ _ _ _) as [c1 a1].
  simpl. rewrite write_fragments_soft_wrapped.
  assert (Hra : forall f k r, soft_wrapped (row_alter f k r) = soft_wrapped r).
  { intros f k r. unfold row_alter. by destruct (k <? 0). }
  rewrite Hra. unfold break_wide_right.
  assert (Hbl : forall k r, soft_wrapped (break_wide_left k r) = soft_wrapped r).
  { intros k r. unfold break_wide_left. destruct (k >? 0); [|done]. apply Hra. }
  destruct (_ <? 0); simpl; rewrite Hbl; unfold pad_row; destruct insert; simpl;
    by rewrite ?insert_cells_soft_wrapped.
Qed.



(** ** Inserting into and removing from the ring *)

Section RingOps.

Implicit Types (r : VteRing) (i pos : Z).

Lemma ring_index_alt r i :
  _vte_ring_index r i
  = if decide (ring_delta r <= i) then ring_rows r !! Z.to_nat (i - ring_delta r)
    else None.
Proof.
  unfold _vte_ring_index, _vte_ring_contains, _vte_ring_next, _vte_ring_length.
  case_decide.
  - destruct (i <? ring_delta r + Z.of_nat (length (ring_rows r))) eqn:E.
    + by replace (ring_delta r <=? i) with true by lia.
    + rewrite andb_false_r. symmetry. apply lookup_ge_None_2. lia.
  - by replace (ring_delta r <=? i) with false by lia.
Qed.

Lemma lookup_insert_at {A} (l : list A) (k : nat) (x : A) (j : nat) :
  (k <= length l)%nat ->
  (take k l ++ x :: drop k l) !! j
  = if decide (j < k)%nat then l !! j
    else if decide (j = k) then Some x else l !! (j - 1)%nat.
Proof.
  intros Hk. assert (length (take k l) = k) as Hlen by (rewrite length_take; lia).
  case_decide.
  - rewrite lookup_app_l by lia. by apply lookup_take_lt.
  - rewrite lookup_app_r by lia. rewrite Hlen. case_decide.
    + subst. by rewrite Nat.sub_diag.
    + destruct (j - k)%nat as [|m] eqn:E; [lia|]. simpl.
      rewrite lookup_drop. f_equal. lia.
Qed.

Lemma ring_insert_spec r pos :
  ring_wf r ->
  ring_delta (_vte_ring_insert r pos) <= pos <= _vte_ring_next r ->
  let r' := _vte_ring_insert r pos in
  ring_wf r'
  /\ ring_max r' = ring_max r
  /\ _vte_ring_next r' = _vte_ring_next r + 1
  /\ ring_delta r <= ring_delta r'
  /\ ring_delta r' <= Z.max (ring_delta r) (_vte_ring_next r' - ring_max r)
  /\ (_vte_ring_length r < ring_max r -> ring_delta r' = ring_delta r)
  /\ (forall i, ring_delta r' <= i < pos -> _vte_ring_index r' i = _vte_ring_index r i)
  /\ _vte_ring_index r' pos = Some empty_row
  /\ (forall i, pos < i -> _vte_ring_index r' i = _vte_ring_index r (i - 1)).
Proof.
  intros [Hmax Hlen] Hpos r'. subst r'.
  destruct r as [d rows mx].
  unfold _vte_ring_insert, ring_maybe_discard_one_row, ring_wf,
    _vte_ring_next, _vte_ring_length in *.
  cbn [ring_delta ring_rows ring_max] in *.
  destruct (Z.of_nat (length rows) =? mx) eqn:E;
    [apply Z.eqb_eq in E|apply Z.eqb_neq in E];
    unfold ring_discard_one_row in *; cbn [ring_delta ring_rows ring_max] in *.
  - (* the oldest row goes *)
    destruct rows as [|row0 rows]; cbn [length drop] in *; [lia|].
    rewrite drop_0 in *.
    assert (Hk : (Z.to_nat (pos - (d + 1)) <= length rows)%nat) by lia.
    assert (Hl : length (take (Z.to_nat (pos - (d + 1))) rows
                         ++ empty_row :: drop (Z.to_nat (pos - (d + 1))) rows)
                 = S (length rows)).
    { rewrite length_app, length_take. cbn [length]. rewrite length_drop. lia. }
    rewrite Hl.
    split; [split; [done|lia]|]. split; [done|]. split; [lia|]. split; [lia|].
    split; [lia|]. split; [lia|]. split; [|split].
    + intros i Hi. rewrite !ring_index_alt. cbn [ring_delta ring_rows].
      rewrite !decide_True by lia. rewrite lookup_insert_at by done.
      rewrite decide_True by lia.
      replace (Z.to_nat (i - d)) with (S (Z.to_nat (i - (d + 1)))) by lia. done.
    + rewrite ring_index_alt. cbn [ring_delta ring_rows]. rewrite decide_True by lia.
      rewrite lookup_insert_at by done.
      rewrite decide_False by lia. by rewrite decide_True.
    + intros i Hi. rewrite !ring_index_alt. cbn [ring_delta ring_rows].
      rewrite !decide_True by lia. rewrite lookup_insert_at by done.
      rewrite !decide_False by lia.
      replace (Z.to_nat (i - 1 - d)) with (S (Z.to_nat (i - (d + 1)) - 1)) by lia.
      done.
  - assert (Hk : (Z.to_nat (pos - d) <= length rows)%nat) by lia.
    assert (Hl : length (take (Z.to_nat (pos - d)) rows
                         ++ empty_row :: drop (Z.to_nat (pos - d)) rows)
                 = S (length rows)).
    { rewrite length_app, length_take. cbn [length]. rewrite length_drop. lia. }
    rewrite Hl.
    split; [split; [done|lia]|]. split; [done|]. split; [lia|]. split; [lia|].
    split; [lia|]. split; [done|]. split; [|split].
    + intros i Hi. rewrite !ring_index_alt. cbn [ring_delta ring_rows].
      rewrite !decide_True by lia. rewrite lookup_insert_at by done.
      by rewrite decide_True by lia.
    + rewrite ring_index_alt. cbn [ring_delta ring_rows]. rewrite decide_True by lia.
      rewrite lookup_insert_at by done.
      rewrite decide_False by lia. by rewrite decide_True.
    + intros i Hi. rewrite !ring_index_alt. cbn [ring_delta ring_rows].
      rewrite !decide_True by lia. rewrite lookup_insert_at by done.
      rewrite !decide_False by lia. f_equal. lia.
Qed.

Lemma ring_remove_spec r pos :
  ring_delta r <= pos < _vte_ring_next r ->
  let r' := _vte_ring_remove r pos in
  ring_max r' = ring_max r
  /\ ring_delta r' = ring_delta r
  /\ _vte_ring_next r' = _vte_ring_next r - 1
  /\ (forall i, i < pos -> _vte_ring_index r' i = _vte_ring_index r i)
  /\ (forall i, pos <= i -> _vte_ring_index r' i = _vte_ring_index r (i + 1)).
Proof.
  intros Hpos r'. subst r'. unfold _vte_ring_remove.
  rewrite (proj2 (ring_contains_iff r pos)) by done.
  destruct r as [d rows mx]. unfold _vte_ring_next, _vte_ring_length in *.
  simpl in *. split; [done|]. split; [done|]. split; [|split].
  - rewrite length_delete; [lia|]. apply lookup_lt_is_Some_2. lia.
  - intros i Hi. rewrite !ring_index_alt. simpl. case_decide; [|done].
    apply list_lookup_delete_lt. lia.
  - intros i Hi. rewrite !ring_index_alt. simpl. rewrite !decide_True by lia.
    rewrite list_lookup_delete_ge by lia. f_equal. lia.
Qed.

End RingOps.

(** ** Line feed on the bottom line of a scrolling region *)

Section CursorDown.

Implicit Types (t : VteTerminal) (r : VteRing).

Lemma ring_insert_delta_no_discard r (pos : Z) :
  _vte_ring_length r < ring_max r ->
  ring_delta (_vte_ring_insert r pos) = ring_delta r.
Proof.
  intros H. unfold _vte_ring_insert, ring_maybe_discard_one_row.
  by replace (_vte_ring_length r =? ring_max r) with false by lia.
Qed.

Lemma buffer_ring_insert_no_append t (position : Z) (fill : bool) :
  position <= _vte_ring_next (ring t) ->
  _vte_buffer_ring_insert t position fill
  = set_ring
      (if fill
       then ring_alter
              (fun row => _vte_row_data_fill row (fill_defaults (screen t))
                                             (column_count t))
              position (_vte_ring_insert (ring t) position)
       else _vte_ring_insert (ring t) position) t.
Proof.
  intros H. unfold _vte_buffer_ring_insert.
  by replace (Z.to_nat (position - _vte_ring_next (ring t))) with 0%nat by lia.
Qed.

Lemma xterm_fill_row_contained t :
  cursor_row t < _vte_ring_next (ring t) ->
  xterm_fill_row t
  = if attr_back (cell_attr (fill_defaults (screen t))) =? VTE_DEF_BG then t
    else modify_row
           (fun row => _vte_row_data_fill row (fill_defaults (screen t))
                                          (column_count t))
           (cursor_row t) t.
Proof.
  intros H. unfold xterm_fill_row.
  destruct (_ =? VTE_DEF_BG); [done|]. by rewrite ensure_row_contained.
Qed.

(** Filling is the only thing [xterm_fill_row] does to a cursor row that is
    in the ring; all other rows, the bounds of the ring and the rest of the
    screen stay. *)
Lemma xterm_fill_row_frame t :
  cursor_row t < _vte_ring_next (ring t) ->
  let t1 := xterm_fill_row t in
  ring_delta (ring t1) = ring_delta (ring t)
  /\ _vte_ring_next (ring t1) = _vte_ring_next (ring t)
  /\ ring_max (ring t1) = ring_max (ring t)
  /\ _vte_ring_length (ring t1) = _vte_ring_length (ring t)
  /\ (forall i, i <> cursor_row t ->
        _vte_ring_index (ring t1) i = _vte_ring_index (ring t) i)
  /\ cursor_current (screen t1) = cursor_current (screen t)
  /\ insert_delta (screen t1) = insert_delta (screen t)
  /\ scroll_delta (screen t1) = scroll_delta (screen t)
  /\ scrolling_restricted (screen t1) = scrolling_restricted (screen t)
  /\ scrolling_region (screen t1) = scrolling_region (screen t)
  /\ fill_defaults (screen t1) = fill_defaults (screen t)
  /\ column_count t1 = column_count t
  /\ row_count t1 = row_count t.
Proof.
  intros H t1. subst t1. rewrite xterm_fill_row_contained by done.
  destruct (_ =? VTE_DEF_BG); [by repeat split|].
  rewrite ring_modify_row, ring_alter_delta, ring_alter_next, ring_alter_max,
    ring_alter_length.
  repeat split. intros i Hi. by apply ring_index_alter_ne.
Qed.

(** A row that is already as wide as the terminal is not filled again. *)
Lemma xterm_fill_row_filled t (fd : VteCell) :
  cursor_row t < _vte_ring_next (ring t) ->
  fd = fill_defaults (screen t) ->
  _vte_ring_index (ring t) (cursor_row t)
  = Some (_vte_row_data_fill empty_row fd (column_count t)) ->
  xterm_fill_row t = t.
Proof.
  intros H -> Hrow. rewrite xterm_fill_row_contained by done.
  destruct (_ =? VTE_DEF_BG); [done|].
  unfold modify_row. rewrite ring_alter_id.
  - by destruct t as [[] ? ? ? ?].
  - intros row Hrow'. rewrite Hrow in Hrow'. injection Hrow' as <-.
    apply row_data_fill_ge. rewrite row_data_fill_length. lia.
Qed.

End CursorDown.

(** C5 (amended): with scrolling restricted to a region that does not start
    at visible row 0, the cursor on the bottom line of the region and the
    rows of the region present in the ring, a line feed removes the row at
    the top of the region and inserts a new row, filled with [fill_defaults],
    at the bottom; [delta], [next] and the length of the ring stay, as do the
    cursor and the two deltas of the screen; the rows outside the region are
    untouched and the rows inside move up by one. *)
Theorem cursor_down_in_region_frame (t : VteTerminal) :
  scrolling_restricted (screen t) = true ->
  region_start (scrolling_region (screen t)) <> 0 ->
  let start := insert_delta (screen t) + region_start (scrolling_region (screen t)) in
  let end_ := insert_delta (screen t) + region_end (scrolling_region (screen t)) in
  cursor_row t = end_ ->
  _vte_ring_delta (ring t) <= start <= end_ ->
  end_ < _vte_ring_next (ring t) ->
  ring_wf (ring t) ->
  let t' := _vte_terminal_cursor_down t in
  _vte_ring_delta (ring t') = _vte_ring_delta (ring t)
  /\ _vte_ring_next (ring t') = _vte_ring_next (ring t)
  /\ _vte_ring_length (ring t') = _vte_ring_length (ring t)
  /\ (forall i, i < start \/ end_ < i ->
        _vte_ring_index (ring t') i = _vte_ring_index (ring t) i)
  /\ (forall i, start <= i < end_ ->
        _vte_ring_index (ring t') i = _vte_ring_index (ring (xterm_fill_row t)) (i + 1))
  /\ (forall i, i <> end_ ->
        _vte_ring_index (ring (xterm_fill_row t)) i = _vte_ring_index (ring t) i)
  /\ _vte_ring_index (ring t') end_
     = Some (_vte_row_data_fill empty_row (fill_defaults (screen t)) (column_count t))
  /\ cursor_current (screen t') = cursor_current (screen t)
  /\ insert_delta (screen t') = insert_delta (screen t)
  /\ scroll_delta (screen t') = scroll_delta (screen t).
Proof.
  intros Hres Hstart start end_ Hcur Hreg Hend [Hmax Hlen] t'.
  destruct (xterm_fill_row_frame t ltac:(lia))
    as (Hd1 & Hn1 & Hm1 & Hl1 & Hidx1 & Hc1 & Hid1 & Hsd1 & Hsr1 & Hreg1 & Hfd1
        & Hcc1 & Hrc1).
  set (t1 := xterm_fill_row t) in *.
  set (r2 := _vte_ring_remove (ring t1) start).
  destruct (ring_remove_spec (ring t1) start ltac:(unfold _vte_ring_delta in *; lia))
    as (Hm2 & Hd2 & Hn2 & Hlt2 & Hge2). fold r2 in Hm2, Hd2, Hn2, Hlt2, Hge2.
  assert (Hlen2 : _vte_ring_length r2 < ring_max r2).
  { unfold _vte_ring_next in *. lia. }
  pose proof (ring_insert_delta_no_discard r2 end_ Hlen2) as Hd3.
  destruct (ring_insert_spec r2 end_)
    as (_ & Hm3 & Hn3 & _ & _ & _ & Hlt3 & Hat3 & Hgt3).
  { split; lia. }
  { unfold _vte_ring_delta in *. lia. }
  set (r3 := _vte_ring_insert r2 end_) in *.
  set (fill := fun row : VteRowData =>
                 _vte_row_data_fill row (fill_defaults (screen t)) (column_count t)).
  set (t2 := set_ring (ring_alter fill end_ r3) t1).
  assert (Ht2 : cursor_down_in_region start end_ t1 = t2).
  { unfold cursor_down_in_region. rewrite buffer_ring_insert_no_append.
    - unfold t2, fill. simpl. rewrite Hfd1, Hcc1. done.
    - change (ring (_vte_buffer_ring_remove t1 start)) with r2. lia. }
  assert (Hrow2 : _vte_ring_index (ring t2) end_ = Some (fill empty_row)).
  { change (ring t2) with (ring_alter fill end_ r3).
    by rewrite ring_index_alter_eq, Hat3. }
  assert (Ht' : t' = t2).
  { subst t'. unfold _vte_terminal_cursor_down.
    rewrite Hres. fold start end_.
    replace (cursor_row t =? end_) with true by lia. fold t1.
    rewrite Hsr1, Hres, Hid1.
    replace (start =? insert_delta (screen t)) with false by (subst start; lia).
    rewrite Ht2.
    apply (xterm_fill_row_filled t2 (fill_defaults (screen t))).
    - change (ring t2) with (ring_alter fill end_ r3).
      change (cursor_row t2) with (cursor_row t1).
      rewrite ring_alter_next. unfold cursor_row in *. rewrite Hc1. lia.
    - change (fill_defaults (screen t2)) with (fill_defaults (screen t1)).
      by rewrite Hfd1.
    - change (cursor_row t2) with (cursor_row t1).
      change (column_count t2) with (column_count t1).
      unfold cursor_row in *. rewrite Hc1, Hcur, Hcc1. exact Hrow2. }
  rewrite Ht'. change (ring t2) with (ring_alter fill end_ r3).
  unfold _vte_ring_delta in *.
  rewrite ring_alter_delta, ring_alter_next, ring_alter_length.
  split; [lia|]. split; [lia|]. split; [unfold _vte_ring_next in *; lia|].
  split; [|split; [|split; [|split]]].
  - intros i Hi. rewrite ring_index_alter_ne by lia.
    destruct (decide (i < ring_delta (ring t))) as [Hlow|Hlow].
    { rewrite !ring_index_alt. rewrite !decide_False by lia. done. }
    destruct Hi as [Hi|Hi].
    + rewrite Hlt3 by lia. rewrite Hlt2 by lia. apply Hidx1. lia.
    + rewrite Hgt3 by lia. rewrite Hge2 by lia.
      replace (i - 1 + 1) with i by lia. apply Hidx1. lia.
  - intros i Hi. rewrite ring_index_alter_ne by lia.
    rewrite Hlt3 by lia. by rewrite Hge2 by lia.
  - intros i Hi. apply Hidx1. lia.
  - rewrite ring_index_alter_eq, Hat3. done.
  - change (cursor_current (screen t2)) with (cursor_current (screen t1)).
    change (insert_delta (screen t2)) with (insert_delta (screen t1)).
    change (scroll_delta (screen t2)) with (scroll_delta (screen t1)).
    done.
Qed.

Lemma cursor_down_in_region_frame_witness :
  _vte_ring_next (ring (_vte_terminal_cursor_down (region_terminal 1)))
  = _vte_ring_next (ring (region_terminal 1)).
Proof.
  refine (proj1 (proj2 (cursor_down_in_region_frame (region_terminal 1) _ _ _ _ _ _)));
    try reflexivity; vm_compute; (congruence || (split; congruence)).
Defined.

(** C5 as stated fails: the ring of [short_ring_terminal] ends above the
    scrolling region, the line feed on the bottom line of the region appends
    the missing rows, and [next] goes from 2 to 5. *)
Lemma cursor_down_in_region_grows_ring :
  scrolling_restricted (screen short_ring_terminal) = true
  /\ region_start (scrolling_region (screen short_ring_terminal)) = 2
  /\ cursor_row short_ring_terminal
     = insert_delta (screen short_ring_terminal)
       + region_end (scrolling_region (screen short_ring_terminal))
  /\ _vte_ring_next (ring short_ring_terminal) = 2
  /\ _vte_ring_next (ring (_vte_terminal_cursor_down short_ring_terminal)) = 5.
Proof. by vm_compute. Qed.

(** ** Appending rows *)

Section Appends.

Implicit Types (t : VteTerminal) (r : VteRing) (g : VteRing -> VteRing).

Lemma ring_insert_delta_le_next r (pos : Z) :
  ring_wf r -> ring_delta (_vte_ring_insert r pos) <= _vte_ring_next r.
Proof.
  intros [Hmax Hlen]. unfold _vte_ring_insert, ring_maybe_discard_one_row.
  unfold _vte_ring_next, _vte_ring_length in *.
  destruct (Z.of_nat (length (ring_rows r)) =? ring_max r) eqn:E; simpl; lia.
Qed.

Lemma ring_append_step_ok : ring_step_ok _vte_ring_append.
Proof.
  intros r Hwf. unfold _vte_ring_append.
  destruct (ring_insert_spec r (_vte_ring_next r) Hwf)
    as (Hwf' & Hm & Hn & Hd & Hd' & _ & Hlt & _).
  { split; [by apply ring_insert_delta_le_next|lia]. }
  done.
Qed.

Lemma ring_append_filled_step_ok (fd : VteCell) (w : Z) :
  ring_step_ok (ring_append_filled fd w).
Proof.
  intros r Hwf. unfold ring_append_filled.
  destruct (ring_append_step_ok r Hwf) as ([Hmax Hlen] & Hm & Hn & Hd & Hd' & Hlt).
  unfold ring_wf.
  rewrite ring_alter_max, ring_alter_length, ring_alter_next, ring_alter_delta.
  repeat split; try done.
  intros i Hi. rewrite ring_index_alter_ne by lia. by apply Hlt.
Qed.

Lemma ring_iter_step_ok g (n : nat) r :
  ring_step_ok g -> ring_wf r ->
  let r' := Nat.iter n g r in
  ring_wf r'
  /\ ring_max r' = ring_max r
  /\ _vte_ring_next r' = _vte_ring_next r + Z.of_nat n
  /\ ring_delta r <= ring_delta r'
  /\ ring_delta r' <= Z.max (ring_delta r) (_vte_ring_next r' - ring_max r)
  /\ (forall i, ring_delta r' <= i < _vte_ring_next r ->
        _vte_ring_index r' i = _vte_ring_index r i).
Proof.
  intros Hg Hwf. induction n as [|n IH]; simpl.
  - repeat split; try done; try lia. apply Hwf. apply Hwf.
  - destruct IH as (Hwf' & Hm & Hn & Hd & Hd' & Hlt).
    destruct (Hg _ Hwf') as (Hwf'' & Hm' & Hn' & Hd2 & Hd2' & Hlt').
    split; [done|]. split; [congruence|]. split; [lia|]. split; [lia|].
    split; [lia|]. intros i Hi. rewrite Hlt' by lia. apply Hlt. lia.
Qed.

Lemma insert_rows_eq t (cnt : Z) :
  vte_terminal_insert_rows t cnt
  = set_ring (Nat.iter (Z.to_nat cnt) _vte_ring_append (ring t)) t.
Proof.
  unfold vte_terminal_insert_rows. induction (Z.to_nat cnt) as [|n IH]; simpl.
  - by destruct t as [[] ? ? ? ?].
  - rewrite IH. unfold _vte_buffer_ring_append, _vte_buffer_ring_insert.
    rewrite Z.sub_diag. done.
Qed.

(** Nothing is snapped when the deltas and the cursor are in order. *)
Lemma adjust_adjustments_id t :
  ring_delta (ring t) <= insert_delta (screen t) ->
  insert_delta (screen t) <= cursor_row t ->
  scroll_delta (screen t) <= insert_delta (screen t) ->
  _vte_terminal_adjust_adjustments t = t.
Proof.
  destruct t as [[rd [crow ccol] idl sdl ? ? ? ? ? ? ? ? ? ?] ? ? ? ?].
  unfold _vte_terminal_adjust_adjustments, cursor_row, cursor_col, ring,
    _vte_ring_delta, set_cursor_row, set_screen, set_insert_delta,
    set_cursor_current, set_scroll_delta, cursor_row, cursor_col.
  cbn. intros H1 H2 H3.
  rewrite (Z.max_l idl) by lia. rewrite (Z.max_l crow) by lia.
  by replace (sdl >? idl) with false by lia.
Qed.

End Appends.

(** ** Line feed that pushes the top row into the history *)

Section IntoScrollback.

Implicit Types (t : VteTerminal) (r : VteRing).




End IntoScrollback.




(** ** Writing the same character over itself *)

Section Overstrike.

Implicit Types (t : VteTerminal) (row : VteRowData) (l pre post : list VteCell).

(** The walk back over the fragments only looks at the fragment bits. *)
Lemma back_over_fragments_frag_ext l l' (n : nat) :
  (forall k, (k <= n)%nat -> cell_fragment <$> l !! k = cell_fragment <$> l' !! k) ->
  back_over_fragments l n = back_over_fragments l' n.
Proof.
  induction n as [|n IH]; simpl; [done|]. intros H.
  pose proof (H (S n) (Nat.le_refl _)) as Hn.
  destruct (l !! S n) as [cell|], (l' !! S n) as [cell'|]; simpl in Hn; try done.
  injection Hn as ->.
  destruct (cell_fragment cell'); [|done]. apply IH. intros k Hk. apply H. lia.
Qed.

Lemma back_over_fragments_app pre post (n : nat) :
  (n < length pre)%nat ->
  back_over_fragments (pre ++ post) n = back_over_fragments pre n.
Proof.
  intros H. apply back_over_fragments_frag_ext. intros k Hk.
  by rewrite lookup_app_l by lia.
Qed.

Lemma blank_fragments_take l (m : nat) :
  blank_fragments (take m l) = take m (blank_fragments l).
Proof.
  revert m. induction l as [|cell l IH]; intros [|m]; simpl; try done.
  destruct (cell_fragment cell); simpl; [|done]. by rewrite IH.
Qed.

Lemma blank_fragments_idem l : blank_fragments (blank_fragments l) = blank_fragments l.
Proof.
  induction l as [|cell l IH]; simpl; [done|].
  destruct (cell_fragment cell) eqn:F; simpl.
  - unfold cell_fragment in *. simpl. rewrite F. by rewrite IH.
  - by rewrite F.
Qed.

Lemma break_left_cells_length (k : nat) pre :
  length (break_left_cells k pre) = length pre.
Proof. destruct k; simpl; [done|]. apply length_alter. Qed.

Lemma break_left_cells_idem (k : nat) pre :
  break_left_cells k (break_left_cells k pre) = break_left_cells k pre.
Proof.
  destruct k as [|p]; [done|]. unfold break_left_cells.
  set (q := back_over_fragments pre p).
  set (f := set_cell_columns (Z.of_nat (S p) - Z.of_nat q)).
  assert (Hq : back_over_fragments (alter f q pre) p = q).
  { apply back_over_fragments_frag_ext. intros j _.
    destruct (decide (q = j)) as [<-|Hne].
    - rewrite list_lookup_alter_eq. by destruct (pre !! q).
    - by rewrite list_lookup_alter_ne. }
  rewrite Hq. fold f. rewrite list_alter_alter_eq.
  apply list_alter_ext; [|done]. intros cell _. by destruct cell.
Qed.

Lemma overstrike_plain (ul : bool) (c : Z) (a : VteCellAttr) (p : option VteCell) :
  c <> 95 \/ ul = false -> overstrike ul c a p = (c, a).
Proof.
  intros H. unfold overstrike. destruct (c =? 95) eqn:E; [|done].
  destruct H as [H| ->]; [lia|done].
Qed.

(** A character of one column written, without insert mode, over the cell
    [y] that stands between [pre] and [post]. *)
Lemma insert_char_row_narrow t (c col : Z) row pre post (y : VteCell) :
  0 <= col ->
  c <> 95 \/ flags_ul (flags t) = false ->
  cells row = pre ++ y :: post ->
  length pre = Z.to_nat col ->
  cells (insert_char_row t false c col 1 row)
  = take (Z.to_nat (column_count t))
      (break_left_cells (Z.to_nat col) pre
       ++ mkCell c (set_attr_columns 1 (cell_attr (defaults (screen t))))
       :: blank_fragments post).
Proof.
  intros Hcol Hul Hrow Hpre.
  assert (Hlen : length (cells row) = S (length pre + length post)).
  { rewrite Hrow, length_app. simpl. lia. }
  unfold insert_char_row, pad_row.
  rewrite row_data_fill_ge by lia.
  set (k := Z.to_nat col) in *.
  (* the cells before the cursor *)
  assert (Hleft : cells (break_wide_left col row)
                  = break_left_cells k pre ++ y :: post).
  { destruct (decide (0 < col)) as [Hpos|Hzero].
    - rewrite break_wide_left_cells by done.
      replace (Z.to_nat (col - 1)) with (k - 1)%nat by lia.
      destruct k as [|p] eqn:Ek; [lia|]. simpl.
      rewrite Nat.sub_0_r, Hrow.
      rewrite back_over_fragments_app by lia.
      pose proof (back_over_fragments_le pre p).
      rewrite alter_app_l by lia. do 3 f_equal. lia.
    - unfold break_wide_left. replace (col >? 0) with false by lia.
      replace k with 0%nat by lia. done. }
  (* the cells behind the character *)
  assert (Hright : cells (break_wide_right (col + 1) (break_wide_left col row))
                   = break_left_cells k pre ++ y :: blank_fragments post).
  { unfold break_wide_right. replace (col + 1 <? 0) with false by lia. simpl.
    rewrite Hleft. replace (Z.to_nat (col + 1)) with (k + 1)%nat by lia.
    rewrite (take_app_add' _ _ k 1) by (by rewrite break_left_cells_length).
    rewrite (drop_app_add' _ _ k 1) by (by rewrite break_left_cells_length).
    simpl. rewrite take_0, drop_0. by rewrite <- app_assoc. }
  unfold write_cells. rewrite overstrike_plain by done.
  replace (Z.to_nat (1 - 1)) with 0%nat by lia. simpl.
  unfold row_alter. replace (col <? 0) with false by lia. simpl.
  rewrite Hright. fold k. f_equal.
  rewrite alter_app_r_alt by (rewrite break_left_cells_length; lia).
  rewrite break_left_cells_length.
  replace (k - length pre)%nat with 0%nat by lia. done.
Qed.

Lemma agree_except_refl (k : nat) row :
  (k < length (cells row))%nat -> agree_except k row row.
Proof. by unfold agree_except. Qed.

(** Writing the character again, over a row that differs from the result of
    the first write at most in the cell of the character, changes nothing. *)
Lemma insert_char_row_again t (c col : Z) row row' :
  0 <= col ->
  col + 1 <= column_count t ->
  c <> 95 \/ flags_ul (flags t) = false ->
  (Z.to_nat col <= length (cells row))%nat ->
  agree_except (Z.to_nat col) row' (insert_char_row t false c col 1 row) ->
  insert_char_row t false c col 1 row' = insert_char_row t false c col 1 row.
Proof.
  intros Hcol Hfit Hul Hlen (Hsw & Htake & Hdrop & Hk' & Hk).
  set (k := Z.to_nat col) in *.
  set (x := mkCell c (set_attr_columns 1 (cell_attr (defaults (screen t))))).
  (* the first write *)
  set (padded := _vte_row_data_fill row basic_cell (col + 1)).
  assert (Hpadlen : (k < length (cells padded))%nat)
    by (unfold padded; rewrite row_data_fill_length; lia).
  destruct (lookup_lt_is_Some_2 _ _ Hpadlen) as [y Hy].
  pose proof (take_drop_middle _ _ _ Hy) as Hsplit.
  assert (Hfirst : insert_char_row t false c col 1 row
                   = insert_char_row t false c col 1 padded).
  { unfold insert_char_row, pad_row. f_equal. f_equal. f_equal.
    symmetry. apply row_data_fill_ge. unfold padded.
    rewrite row_data_fill_length. lia. }
  pose proof (insert_char_row_narrow t c col padded (take k (cells padded))
                (drop (S k) (cells padded)) y Hcol Hul (eq_sym Hsplit)) as Hcells.
  rewrite length_take, Nat.min_l in Hcells by lia. specialize (Hcells eq_refl).
  fold k x in Hcells. rewrite <- Hfirst in Hcells.
  set (pre := break_left_cells k (take k (cells padded))) in *.
  set (post := blank_fragments (drop (S k) (cells padded))) in *.
  assert (Hprelen : length pre = k).
  { unfold pre. rewrite break_left_cells_length, length_take. lia. }
  assert (Hcells' : cells (insert_char_row t false c col 1 row)
                    = pre ++ x :: take (Z.to_nat (column_count t) - S k) post).
  { rewrite Hcells. rewrite take_app, Hprelen, take_ge by lia.
    replace (Z.to_nat (column_count t) - k)%nat
      with (S (Z.to_nat (column_count t) - S k)) by lia. done. }
  (* the second write *)
  destruct (lookup_lt_is_Some_2 _ _ Hk') as [y' Hy'].
  pose proof (take_drop_middle _ _ _ Hy') as Hsplit'.
  rewrite Htake, Hdrop, Hcells' in Hsplit'.
  rewrite take_app_length' in Hsplit' by done.
  assert (Hdrop' : drop (S k) (pre ++ x :: take (Z.to_nat (column_count t) - S k) post)
                   = take (Z.to_nat (column_count t) - S k) post).
  { replace (S k) with (k + 1)%nat by lia.
    rewrite (drop_app_add' _ _ k 1) by done. done. }
  rewrite Hdrop' in Hsplit'.
  pose proof (insert_char_row_narrow t c col row' pre
                (take (Z.to_nat (column_count t) - S k) post) y'
                Hcol Hul (eq_sym Hsplit') Hprelen) as Hcells2.
  fold k x in Hcells2.
  assert (Hsw2 : soft_wrapped (insert_char_row t false c col 1 row')
                 = soft_wrapped (insert_char_row t false c col 1 row))
    by (by rewrite insert_char_row_soft_wrapped).
  assert (Hc2 : cells (insert_char_row t false c col 1 row')
                = cells (insert_char_row t false c col 1 row)).
  { rewrite Hcells2, Hcells'. unfold pre at 1. rewrite break_left_cells_idem.
    fold pre. rewrite blank_fragments_take. unfold post at 1.
    rewrite blank_fragments_idem. fold post.
    apply take_ge. rewrite length_app, Hprelen. simpl. rewrite length_take. lia. }
  by apply row_data_eq.
Qed.

End Overstrike.

Section OverstrikeTerminal.

Implicit Types (t : VteTerminal) (row : VteRowData).

Lemma set_ring_id t : set_ring (ring t) t = t.
Proof. by destruct t as [[] ? ? ? ?]. Qed.

Lemma back_over_fragments_stay (l : list VteCell) (k : nat) (x : VteCell) :
  l !! k = Some x -> cell_fragment x = false -> back_over_fragments l k = k.
Proof. intros Hx Hf. destruct k as [|p]; simpl; [done|]. by rewrite Hx, Hf. Qed.

(** The tab cleanup touches at most the cell under the cursor when that cell
    begins a character of one column. *)
Lemma cleanup_tab_row_agree (fd : VteCell) (col : Z) row (x : VteCell) :
  0 <= col ->
  cells row !! Z.to_nat col = Some x ->
  cell_fragment x = false ->
  cell_columns x = 1 ->
  agree_except (Z.to_nat col) (cleanup_tab_row fd col row) row.
Proof.
  intros Hcol Hx Hf Hc. apply lookup_lt_Some in Hx as Hlen.
  unfold cleanup_tab_row, _vte_row_data_get.
  replace (col <? 0) with false by lia. rewrite Hx.
  destruct (cell_c x =? 9); [|by apply agree_except_refl].
  rewrite (back_over_fragments_stay _ _ x) by done. rewrite Hx, Hc. simpl.
  unfold agree_except. simpl. rewrite length_insert.
  split; [done|]. split; [by apply take_insert_ge|].
  split; [apply drop_insert_lt; lia|]. done.
Qed.

(** The cell that a first write of a narrow character leaves under the
    cursor. *)
Lemma insert_char_row_narrow_cell t (c col : Z) row :
  0 <= col ->
  col + 1 <= column_count t ->
  c <> 95 \/ flags_ul (flags t) = false ->
  (Z.to_nat col <= length (cells row))%nat ->
  cells (insert_char_row t false c col 1 row) !! Z.to_nat col
  = Some (mkCell c (set_attr_columns 1 (cell_attr (defaults (screen t))))).
Proof.
  intros Hcol Hfit Hul Hlen.
  set (k := Z.to_nat col) in *.
  set (padded := _vte_row_data_fill row basic_cell (col + 1)).
  assert (Hpadlen : (k < length (cells padded))%nat)
    by (unfold padded; rewrite row_data_fill_length; lia).
  destruct (lookup_lt_is_Some_2 _ _ Hpadlen) as [y Hy].
  pose proof (take_drop_middle _ _ _ Hy) as Hsplit.
  assert (Hfirst : insert_char_row t false c col 1 row
                   = insert_char_row t false c col 1 padded).
  { unfold insert_char_row, pad_row. f_equal. f_equal. f_equal.
    symmetry. apply row_data_fill_ge. unfold padded.
    rewrite row_data_fill_length. lia. }
  pose proof (insert_char_row_narrow t c col padded (take k (cells padded))
                (drop (S k) (cells padded)) y Hcol Hul (eq_sym Hsplit)) as Hcells.
  rewrite length_take, Nat.min_l in Hcells by lia. specialize (Hcells eq_refl).
  rewrite Hfirst, Hcells. fold k.
  rewrite lookup_take_lt by lia.
  rewrite lookup_app_r by (rewrite break_left_cells_length, length_take; lia).
  rewrite break_left_cells_length, length_take, Nat.min_l by lia.
  by rewrite Nat.sub_diag.
Qed.

Lemma cleanup_tab_row_length (fd : VteCell) (col : Z) row :
  length (cells (cleanup_tab_row fd col row)) = length (cells row).
Proof.
  unfold cleanup_tab_row. destruct (_vte_row_data_get row col) as [pcell|]; [|done].
  destruct (cell_c pcell =? 9); [|done]. destruct (_ !! _) as [cell|]; [|done].
  simpl. generalize (back_over_fragments (cells row) (Z.to_nat col)).
  generalize (cells row).
  induction (Z.to_nat (cell_columns cell)) as [|n IH]; intros l s; simpl; [done|].
  by rewrite IH, length_insert.
Qed.

(** The core of the overstrike law, for a cursor row that is in the ring. *)
Lemma overstrike_core (iso : VteIso2022) t (c c' : Z) row :
  status_line (screen t) = false ->
  character_width iso (charset_substitute iso (screen t) c) = (c', 1) ->
  insert_mode (screen t) = false ->
  0 <= cursor_col t ->
  cursor_col t + 1 <= column_count t ->
  cursor_col t + 1 < column_count t
  \/ flags_am (flags t) = false \/ flags_xn (flags t) = true ->
  c' <> 95 \/ flags_ul (flags t) = false ->
  cell_fragment (defaults (screen t)) = false ->
  _vte_ring_index (ring t) (cursor_row t) = Some row ->
  snd (_vte_terminal_insert_char iso
         (backspace (snd (_vte_terminal_insert_char iso t c false))) c false)
  = snd (_vte_terminal_insert_char iso t c false).
Proof.
  intros Hs Hw Him Hcol Hfit Hnowrap Hul Hfrag Hrow.
  apply ring_index_Some in Hrow as Hrow'.
  set (col := cursor_col t) in *. set (r := cursor_row t) in *.
  set (prep := fun row0 : VteRowData =>
                 cleanup_tab_row (fill_defaults (screen t)) col
                   (_vte_row_data_fill row0 basic_cell col)).
  set (F := fun row0 : VteRowData => insert_char_row t false c' col 1 (prep row0)).
  assert (Hnw : forall t0, column_count t0 = column_count t -> flags t0 = flags t ->
            (col + 1 >=? column_count t0) && flags_am (flags t0)
            && negb (flags_xn (flags t0)) = false).
  { intros t0 -> ->. destruct Hnowrap as [H|[->| ->]].
    - by replace (col + 1 >=? column_count t) with false by lia.
    - by rewrite andb_false_r.
    - by rewrite andb_false_r. }
  (* the first insertion *)
  assert (Hfirst : snd (_vte_terminal_insert_char iso t c false)
                   = set_text_inserted_flag true
                       (set_cursor_col (col + 1) (modify_row F r t))).
  { rewrite (insert_char_no_wrap_before iso t c c' 1 false) by (done || lia).
    rewrite Him. simpl. unfold insert_char_write.
    rewrite insert_char_store_contained by (fold r; lia).
    unfold insert_char_autowrap_after. rewrite column_after_pos by lia.
    fold col r prep F. by rewrite Hnw. }
  rewrite Hfirst.
  set (t1 := set_text_inserted_flag true (set_cursor_col (col + 1) (modify_row F r t))).
  assert (Hback : backspace t1 = set_cursor_col col t1).
  { unfold backspace. change (cursor_col t1) with (col + 1).
    replace (col + 1 >? 0) with true by lia. f_equal. lia. }
  rewrite Hback. set (tb := set_cursor_col col t1).
  (* the row that the first insertion left *)
  assert (Hpreplen : (Z.to_nat col <= length (cells (prep row)))%nat).
  { unfold prep. rewrite cleanup_tab_row_length, row_data_fill_length. lia. }
  assert (Hrow1 : _vte_ring_index (ring tb) r = Some (F row)).
  { change (ring tb) with (ring (modify_row F r t)).
    by rewrite index_modify_row_eq, Hrow. }
  assert (Hcell : cells (F row) !! Z.to_nat col
                  = Some (mkCell c' (set_attr_columns 1
                                       (cell_attr (defaults (screen t)))))).
  { unfold F. by apply insert_char_row_narrow_cell. }
  assert (Hagain : F (F row) = F row).
  { unfold F at 1 3. apply insert_char_row_again; try done.
    unfold prep at 1. apply lookup_lt_Some in Hcell as Hlen1.
    rewrite row_data_fill_ge by lia.
    eapply cleanup_tab_row_agree; [done|exact Hcell|exact Hfrag|done]. }
  (* the second insertion *)
  rewrite (insert_char_no_wrap_before iso tb c c' 1 false);
    [|exact Hs|exact Hw|lia|exact Hfit].
  change (insert_mode (screen tb)) with (insert_mode (screen t)). rewrite Him.
  simpl. unfold insert_char_write.
  rewrite insert_char_store_contained.
  2:{ change (cursor_row tb) with r. change (ring tb) with (ring (modify_row F r t)).
      rewrite ring_modify_row, ring_alter_next. lia. }
  change (cursor_col tb) with col. change (cursor_row tb) with r.
  change (fill_defaults (screen tb)) with (fill_defaults (screen t)).
  assert (Hstore : modify_row
                     (fun row0 => insert_char_row tb false c' col 1 (prep row0)) r tb
                   = tb).
  { unfold modify_row. rewrite ring_alter_id; [apply set_ring_id|].
    intros row0 Hrow0. rewrite Hrow1 in Hrow0. injection Hrow0 as <-.
    exact Hagain. }
  unfold prep in Hstore. cbv beta in Hstore. rewrite Hstore.
  unfold insert_char_autowrap_after. rewrite column_after_pos by lia.
  by rewrite Hnw.
Qed.

End OverstrikeTerminal.

(** Once [_vte_terminal_ensure_row] has run, the cursor row is in the ring;
    only the ring and the two deltas of the screen may have changed. *)
Lemma ensure_row_form (t : VteTerminal) :
  ring_wf (ring t) ->
  ring_delta (ring t) <= cursor_row t ->
  insert_delta (screen t) <= cursor_row t ->
  exists ra id' sd',
    _vte_terminal_ensure_row t
    = (set_screen
         (set_scroll_delta sd' (set_insert_delta id' (set_row_data ra (screen t)))) t,
       cursor_row t)
    /\ ring_delta ra <= cursor_row t < _vte_ring_next ra.
Proof.
  intros Hwf Hd Hid. unfold _vte_terminal_ensure_row.
  destruct (cursor_row t - _vte_ring_next (ring t) + 1 >? 0) eqn:E.
  - rewrite insert_rows_eq.
    set (n := Z.to_nat (cursor_row t - _vte_ring_next (ring t) + 1)).
    destruct (ring_iter_step_ok _vte_ring_append n (ring t) ring_append_step_ok Hwf)
      as ([Hmax _] & Hm & Hn & Hd1 & Hd1' & _).
    set (ra := Nat.iter n _vte_ring_append (ring t)) in *.
    exists ra, (Z.max (insert_delta (screen t)) (ring_delta ra)),
      (if scroll_delta (screen t) >? Z.max (insert_delta (screen t)) (ring_delta ra)
       then Z.max (insert_delta (screen t)) (ring_delta ra)
       else scroll_delta (screen t)).
    split; [|lia]. f_equal.
    assert (Hfix : Z.max (cursor_row t) (Z.max (insert_delta (screen t)) (ring_delta ra))
                   = cursor_row t) by lia.
    destruct t as [[rd [crow ccol] idl sdl ? ? ? ? ? ? ? ? ? ?] ? ? ? ?].
    unfold _vte_terminal_adjust_adjustments, cursor_row, cursor_col, ring,
      _vte_ring_delta, set_cursor_row, set_screen, set_insert_delta,
      set_cursor_current, set_scroll_delta, set_ring, set_row_data, cursor_row,
      cursor_col in *.
    cbn in *. rewrite Hfix. by destruct (sdl >? Z.max idl (ring_delta ra)).
  - exists (ring t), (insert_delta (screen t)), (scroll_delta (screen t)).
    split; [|lia]. f_equal. by destruct t as [[] ? ? ? ?].
Qed.

(** Writing a character of one column over itself, when it fits on the line. *)
Lemma overstrike_in_line (iso : VteIso2022) (t : VteTerminal) (c c' : Z) :
  status_line (screen t) = false ->
  character_width iso (charset_substitute iso (screen t) c) = (c', 1) ->
  insert_mode (screen t) = false ->
  0 <= cursor_col t ->
  cursor_col t + 1 <= column_count t ->
  cursor_col t + 1 < column_count t
  \/ flags_am (flags t) = false \/ flags_xn (flags t) = true ->
  c' <> 95 \/ flags_ul (flags t) = false ->
  cell_fragment (defaults (screen t)) = false ->
  ring_wf (ring t) ->
  ring_delta (ring t) <= cursor_row t ->
  insert_delta (screen t) <= cursor_row t ->
  snd (_vte_terminal_insert_char iso
         (backspace (snd (_vte_terminal_insert_char iso t c false))) c false)
  = snd (_vte_terminal_insert_char iso t c false).
Proof.
  intros Hs Hw Him Hcol Hfit Hnowrap Hul Hfrag Hwf Hd Hid.
  destruct (ensure_row_form t Hwf Hd Hid) as (ra & id' & sd' & He & Hra).
  set (t0 := set_screen
               (set_scroll_delta sd' (set_insert_delta id' (set_row_data ra (screen t))))
               t) in *.
  assert (He0 : _vte_terminal_ensure_row t0 = (t0, cursor_row t)).
  { apply (ensure_row_contained t0). change (cursor_row t0) with (cursor_row t).
    change (ring t0) with ra. lia. }
  assert (Hsame : _vte_terminal_insert_char iso t c false
                  = _vte_terminal_insert_char iso t0 c false).
  { rewrite (insert_char_no_wrap_before iso t c c' 1 false) by (done || lia).
    rewrite (insert_char_no_wrap_before iso t0 c c' 1 false);
      [|exact Hs|exact Hw|lia|exact Hfit].
    change (insert_mode (screen t0)) with (insert_mode (screen t)).
    change (cursor_col t0) with (cursor_col t).
    unfold insert_char_write, insert_char_store, vte_terminal_ensure_cursor.
    by rewrite He, He0. }
  rewrite Hsame.
  destruct (ring_index_contains (ring t0) (cursor_row t0)) as [row Hrow].
  { apply ring_contains_iff. change (cursor_row t0) with (cursor_row t).
    change (ring t0) with ra. lia. }
  by apply (overstrike_core iso t0 c c' row).
Qed.

(** C9 as stated fails: with insert mode the second insertion opens one more
    cell; a wide character is only half covered after one step back; behind
    an autowrap the second insertion lands on the next row; and after a
    combining mark the second mark goes on the cell before. *)
Lemma overstrike_not_idempotent :
  ring (overstrike_twice (insert_mode_terminal 1) 120)
  <> ring (snd (_vte_terminal_insert_char sample_iso2022 (insert_mode_terminal 1) 120 false))
  /\ ring (overstrike_twice (margin_terminal 1) 20000)
     <> ring (snd (_vte_terminal_insert_char sample_iso2022 (margin_terminal 1) 20000 false))
  /\ ring (overstrike_twice (no_xn_terminal 4) 120)
     <> ring (snd (_vte_terminal_insert_char sample_iso2022 (no_xn_terminal 4) 120 false))
  /\ ring (overstrike_twice (margin_terminal 2) 800)
     <> ring (snd (_vte_terminal_insert_char sample_iso2022 (margin_terminal 2) 800 false)).
Proof. repeat split; vm_compute; congruence. Qed.

(** ** The insertion engine once the row under the cursor is allocated *)

Section Ensured.

Implicit Types (t : VteTerminal) (row : VteRowData).

Lemma ensure_row_snd t :
  _vte_terminal_ensure_row t = (fst (_vte_terminal_ensure_row t), cursor_row t).
Proof. unfold _vte_terminal_ensure_row. by destruct (_ >? 0). Qed.

(** Allocating the rows does not depend on the column of the cursor. *)
Lemma ensure_row_set_cursor_col t (v : Z) :
  _vte_terminal_ensure_row (set_cursor_col v t)
  = (set_cursor_col v (fst (_vte_terminal_ensure_row t)), cursor_row t).
Proof.
  unfold _vte_terminal_ensure_row.
  change (cursor_row (set_cursor_col v t)) with (cursor_row t).
  change (ring (set_cursor_col v t)) with (ring t).
  destruct (cursor_row t - _vte_ring_next (ring t) + 1 >? 0); [|done].
  rewrite !insert_rows_eq. simpl. f_equal.
  unfold _vte_terminal_adjust_adjustments. simpl.
  by destruct (_ >? _).
Qed.

Lemma insert_char_store_ensured t t0 (insert : bool) (c col w : Z) :
  _vte_terminal_ensure_row t = (t0, cursor_row t) ->
  _vte_terminal_ensure_row t0 = (t0, cursor_row t) ->
  insert_char_store t insert c col w = insert_char_store t0 insert c col w.
Proof.
  intros He He0. unfold insert_char_store, vte_terminal_ensure_cursor.
  by rewrite He, He0.
Qed.

(** On a terminal in order, allocating the rows up to the cursor leaves a
    terminal in which the cursor row is in the ring and on which a further
    allocation does nothing. *)
Lemma ensure_row_ensured t :
  ring_wf (ring t) ->
  ring_delta (ring t) <= cursor_row t ->
  insert_delta (screen t) <= cursor_row t ->
  let t0 := fst (_vte_terminal_ensure_row t) in
  (exists ra id' sd',
     t0 = set_screen
            (set_scroll_delta sd' (set_insert_delta id' (set_row_data ra (screen t)))) t)
  /\ (exists row, _vte_ring_index (ring t0) (cursor_row t) = Some row)
  /\ (forall v, _vte_terminal_ensure_row (set_cursor_col v t0)
                = (set_cursor_col v t0, cursor_row t))
  /\ _vte_terminal_ensure_row t0 = (t0, cursor_row t)
  /\ (forall ins c0 col w0,
        insert_char_store t ins c0 col w0 = insert_char_store t0 ins c0 col w0).
Proof.
  intros Hwf Hd Hid t0.
  destruct (ensure_row_form t Hwf Hd Hid) as (ra & id' & sd' & He & Hra).
  assert (Ht0 : t0 = set_screen
                       (set_scroll_delta sd'
                          (set_insert_delta id' (set_row_data ra (screen t)))) t)
    by (subst t0; by rewrite He).
  assert (Hcont : forall v, _vte_terminal_ensure_row (set_cursor_col v t0)
                            = (set_cursor_col v t0, cursor_row t)).
  { intros v. rewrite Ht0.
    rewrite ensure_row_contained by (change (cursor_row t < _vte_ring_next ra); lia).
    done. }
  assert (He0 : _vte_terminal_ensure_row t0 = (t0, cursor_row t)).
  { rewrite Ht0.
    rewrite ensure_row_contained by (change (cursor_row t < _vte_ring_next ra); lia).
    done. }
  split; [by exists ra, id', sd'|]. split.
  { rewrite Ht0. change (ring (set_screen _ t)) with ra.
    apply ring_index_contains, ring_contains_iff. lia. }
  split; [exact Hcont|]. split; [exact He0|].
  intros ins c0 col w0. apply insert_char_store_ensured; [apply ensure_row_snd|exact He0].
Qed.

(** There the insertion of a character that occupies columns behaves as on
    the terminal with the rows allocated. *)
Lemma insert_char_ensured (iso : VteIso2022) t (c c' w : Z) (insert : bool) :
  status_line (screen t) = false ->
  character_width iso (charset_substitute iso (screen t) c) = (c', w) ->
  w <> 0 ->
  ring_wf (ring t) ->
  ring_delta (ring t) <= cursor_row t ->
  insert_delta (screen t) <= cursor_row t ->
  _vte_terminal_insert_char iso t c insert
  = _vte_terminal_insert_char iso (fst (_vte_terminal_ensure_row t)) c insert.
Proof.
  intros Hs Hw Hw0 Hwf Hd Hid.
  destruct (ensure_row_ensured t Hwf Hd Hid)
    as ((ra & id' & sd' & Ht0) & _ & Hcont & He0 & _).
  set (t0 := fst (_vte_terminal_ensure_row t)) in *.
  unfold _vte_terminal_insert_char.
  replace (status_line (screen t0)) with (status_line (screen t)) by (by rewrite Ht0).
  replace (charset_substitute iso (screen t0) c)
    with (charset_substitute iso (screen t) c) by (by rewrite Ht0).
  replace (insert_mode (screen t0)) with (insert_mode (screen t)) by (by rewrite Ht0).
  rewrite Hs, Hw. replace (w =? 0) with false by lia.
  unfold insert_char_autowrap_before.
  replace (cursor_col t0) with (cursor_col t) by (by rewrite Ht0).
  replace (column_count t0) with (column_count t) by (by rewrite Ht0).
  replace (flags t0) with (flags t) by (by rewrite Ht0).
  destruct (negb (w =? 0) && (cursor_col t + w >? column_count t)).
  - destruct (flags_am (flags t)).
    + rewrite ensure_row_set_cursor_col. fold t0. by rewrite Hcont.
    + unfold insert_char_write.
      rewrite (insert_char_store_ensured (set_cursor_col (column_count t - w) t)
                 (set_cursor_col (column_count t - w) t0)).
      * done.
      * by rewrite ensure_row_set_cursor_col.
      * apply Hcont.
  - unfold insert_char_write.
    by rewrite (insert_char_store_ensured t t0); [|apply ensure_row_snd|exact He0].
Qed.

End Ensured.

(** ** Padding of the target row *)

(** The padding when the character fits on the line: the rows up to the
    cursor are allocated first. *)
Lemma padding_in_line (iso : VteIso2022) (t : VteTerminal)
    (c c' w : Z) (insert : bool) :
  status_line (screen t) = false ->
  character_width iso (charset_substitute iso (screen t) c) = (c', w) ->
  0 < w ->
  0 <= cursor_col t ->
  cursor_col t + w <= column_count t ->
  ring_wf (ring t) ->
  ring_delta (ring t) <= cursor_row t ->
  insert_delta (screen t) <= cursor_row t ->
  let t0 := fst (_vte_terminal_ensure_row t) in
  let ins := insert || insert_mode (screen t) in
  let col := cursor_col t in
  (cursor_row t < _vte_ring_next (ring t) -> t0 = t)
  /\ exists row,
       _vte_ring_index (ring t0) (cursor_row t) = Some row
       /\ let row1 := cleanup_tab_row (fill_defaults (screen t)) col
                        (_vte_row_data_fill row basic_cell col) in
          let padded := pad_row ins (color_defaults (screen t)) col w row1 in
          cells (_vte_row_data_fill row basic_cell col)
          = cells row ++ replicate (Z.to_nat col - length (cells row)) basic_cell
          /\ (ins = false ->
              cells padded
              = cells row1
                ++ replicate (Z.to_nat (col + w) - length (cells row1)) basic_cell)
          /\ (ins = true ->
              cells padded
              = take (Z.to_nat col) (cells row1)
                ++ replicate (Z.to_nat w) (color_defaults (screen t))
                ++ drop (Z.to_nat col) (cells row1))
          /\ _vte_terminal_insert_char iso t c insert
             = (false,
                set_text_inserted_flag true
                  (insert_char_autowrap_after
                     (modify_row
                        (fun _ => write_cells t0 c' col w
                                    (break_wide_right (col + w)
                                       (break_wide_left col padded)))
                        (cursor_row t) t0)
                     (cursor_row t) col w)).
Proof.
  intros Hs Hw Hw0 Hcol Hfit Hwf Hd Hid t0 ins col.
  destruct (ensure_row_ensured t Hwf Hd Hid)
    as ((ra & id' & sd' & Ht0) & (row & Hrow) & _).
  pose proof (insert_char_ensured iso t c c' w insert Hs Hw ltac:(lia) Hwf Hd Hid) as Heq.
  fold t0 in Ht0, Hrow, Heq.
  split.
  { intros Hin. subst t0. by rewrite ensure_row_contained. }
  exists row. split; [exact Hrow|].
  rewrite Heq. clearbody t0. subst t0.
  exact (padding_of_present_row iso
           (set_screen
              (set_scroll_delta sd' (set_insert_delta id' (set_row_data ra (screen t)))) t)
           c c' w insert row Hs Hw Hw0 Hcol Hfit Hrow).
Qed.

(** ** Wide characters under the new character *)

(** The broken wide characters when the new character fits on the line. *)
Lemma broken_wide_in_line (iso : VteIso2022) (t : VteTerminal)
    (c c' w : Z) (insert : bool) :
  status_line (screen t) = false ->
  character_width iso (charset_substitute iso (screen t) c) = (c', w) ->
  0 < w ->
  0 <= cursor_col t ->
  cursor_col t + w <= column_count t ->
  ring_wf (ring t) ->
  ring_delta (ring t) <= cursor_row t ->
  insert_delta (screen t) <= cursor_row t ->
  let t0 := fst (_vte_terminal_ensure_row t) in
  let ins := insert || insert_mode (screen t) in
  let col := cursor_col t in
  let stored := fst (insert_char_store t ins c' col w) in
  _vte_terminal_insert_char iso t c insert
  = (false,
     set_text_inserted_flag true (insert_char_autowrap_after stored (cursor_row t) col w))
  /\ exists row final,
       _vte_ring_index (ring t0) (cursor_row t) = Some row
       /\ _vte_ring_index (ring stored) (cursor_row t) = Some final
       /\ let row1 := cleanup_tab_row (fill_defaults (screen t)) col
                        (_vte_row_data_fill row basic_cell col) in
          let padded := pad_row ins (color_defaults (screen t)) col w row1 in
          (forall (j : nat) cell,
             col + w <= Z.of_nat j < column_count t ->
             cells padded !! j = Some cell ->
             (forall k : nat, col + w <= Z.of_nat k <= Z.of_nat j ->
                exists cell', cells padded !! k = Some cell'
                              /\ cell_fragment cell' = true) ->
             cells final !! j = Some (set_cell_c 0 (set_cell_columns 1 cell)))
          /\ (0 < col ->
              let col2 := back_over_fragments (cells padded) (Z.to_nat (col - 1)) in
              Z.of_nat col2 < col
              /\ (forall k : nat, Z.of_nat col2 < Z.of_nat k < col ->
                    exists cell', cells padded !! k = Some cell'
                                  /\ cell_fragment cell' = true)
              /\ (forall cell, cells padded !! col2 = Some cell ->
                    cells final !! col2
                    = Some (set_cell_columns (col - Z.of_nat col2) cell)
                    /\ cell_c (set_cell_columns (col - Z.of_nat col2) cell)
                       = cell_c cell)).
Proof.
  intros Hs Hw Hw0 Hcol Hfit Hwf Hd Hid t0 ins col stored.
  destruct (ensure_row_ensured t Hwf Hd Hid)
    as ((ra & id' & sd' & Ht0) & (row & Hrow) & _ & He0 & Hstore).
  fold t0 in Ht0, Hrow, He0, Hstore.
  assert (Hsnd : snd (insert_char_store t ins c' col w) = cursor_row t).
  { unfold insert_char_store, vte_terminal_ensure_cursor.
    by rewrite (ensure_row_snd t). }
  split.
  { rewrite (insert_char_no_wrap_before iso t c c' w insert Hs Hw) by lia.
    unfold insert_char_write. fold ins col. subst stored.
    destruct (insert_char_store t ins c' col w) as [t1 r]. simpl in Hsnd.
    by subst r. }
  subst stored. rewrite Hstore. clearbody t0. subst t0.
  destruct (broken_wide_of_present_row
              (set_screen
                 (set_scroll_delta sd' (set_insert_delta id' (set_row_data ra (screen t)))) t)
              ins c' w row Hcol Hw0 Hfit Hrow) as (final & Hfinal & Hright & Hleft).
  exists row, final. split; [exact Hrow|]. split; [exact Hfinal|].
  split; [exact Hright|exact Hleft].
Qed.

(** ** What row allocation and line feed leave alone *)

Section ScrollVariants.

Implicit Types (t : VteTerminal) (r : VteRing).

Lemma scrolled_self t :
  t = scrolled (ring t) (cursor_row t) (insert_delta (screen t))
        (scroll_delta (screen t)) t.
Proof. by destruct t as [[? [? ?] ? ? ? ? ? ? ? ? ? ? ? ?] ? ? ? ?]. Qed.

Lemma scroll_variant_refl t : scroll_variant t t.
Proof. eexists _, _, _, _. apply scrolled_self. Qed.

Lemma scroll_variant_trans t1 t2 t3 :
  scroll_variant t1 t2 -> scroll_variant t2 t3 -> scroll_variant t1 t3.
Proof.
  intros (r & row & id & sd & ->) (r' & row' & id' & sd' & ->).
  by exists r', row', id', sd'.
Qed.

Lemma scroll_variant_step t t' :
  t' = scrolled (ring t') (cursor_row t') (insert_delta (screen t'))
         (scroll_delta (screen t')) t ->
  scroll_variant t t'.
Proof. intros H. eexists _, _, _, _. exact H. Qed.

Lemma set_ring_variant r t : scroll_variant t (set_ring r t).
Proof. apply scroll_variant_step. by destruct t as [[? [? ?] ? ? ? ? ? ? ? ? ? ? ? ?] ? ? ? ?]. Qed.

Lemma set_cursor_row_variant (v : Z) t : scroll_variant t (set_cursor_row v t).
Proof. apply scroll_variant_step. by destruct t as [[? [? ?] ? ? ? ? ? ? ? ? ? ? ? ?] ? ? ? ?]. Qed.

Lemma set_insert_delta_variant (v : Z) t :
  scroll_variant t (set_screen (set_insert_delta v (screen t)) t).
Proof. apply scroll_variant_step. by destruct t as [[? [? ?] ? ? ? ? ? ? ? ? ? ? ? ?] ? ? ? ?]. Qed.

Lemma set_scroll_delta_variant (v : Z) t :
  scroll_variant t (set_screen (set_scroll_delta v (screen t)) t).
Proof. apply scroll_variant_step. by destruct t as [[? [? ?] ? ? ? ? ? ? ? ? ? ? ? ?] ? ? ? ?]. Qed.

Lemma modify_row_variant (f : VteRowData -> VteRowData) (i : Z) t :
  scroll_variant t (modify_row f i t).
Proof. apply set_ring_variant. Qed.

Lemma adjust_adjustments_variant t :
  scroll_variant t (_vte_terminal_adjust_adjustments t).
Proof.
  unfold _vte_terminal_adjust_adjustments.
  set (t1 := set_screen _ t). set (t2 := set_cursor_row _ t1).
  assert (H2 : scroll_variant t t2).
  { apply (scroll_variant_trans _ t1); [apply set_insert_delta_variant|].
    apply set_cursor_row_variant. }
  destruct (scroll_delta (screen t2) >? insert_delta (screen t2)); [|done].
  apply (scroll_variant_trans _ t2); [done|]. apply set_scroll_delta_variant.
Qed.

Lemma buffer_ring_insert_variant t (position : Z) (fill : bool) :
  scroll_variant t (_vte_buffer_ring_insert t position fill).
Proof. apply set_ring_variant. Qed.

Lemma insert_rows_variant t (cnt : Z) :
  scroll_variant t (vte_terminal_insert_rows t cnt).
Proof. rewrite insert_rows_eq. apply set_ring_variant. Qed.

Lemma ensure_row_variant t : scroll_variant t (fst (_vte_terminal_ensure_row t)).
Proof.
  unfold _vte_terminal_ensure_row. destruct (_ >? 0); simpl.
  - eapply scroll_variant_trans; [apply insert_rows_variant|].
    apply adjust_adjustments_variant.
  - apply scroll_variant_refl.
Qed.

Lemma xterm_fill_row_variant t : scroll_variant t (xterm_fill_row t).
Proof.
  unfold xterm_fill_row. destruct (_ =? VTE_DEF_BG); [apply scroll_variant_refl|].
  rewrite (ensure_row_snd t).
  eapply scroll_variant_trans; [apply ensure_row_variant|]. apply modify_row_variant.
Qed.

Lemma update_insert_delta_variant t :
  scroll_variant t (_vte_terminal_update_insert_delta t).
Proof.
  unfold _vte_terminal_update_insert_delta.
  set (t1 := if _ >? 0 then _ else t).
  assert (H1 : scroll_variant t t1).
  { subst t1. destruct (_ >? 0); [apply insert_rows_variant|apply scroll_variant_refl]. }
  destruct (_ =? insert_delta (screen t1)); [done|].
  eapply scroll_variant_trans; [exact H1|].
  eapply scroll_variant_trans; [apply set_insert_delta_variant|].
  apply adjust_adjustments_variant.
Qed.

Lemma cursor_down_variant t : scroll_variant t (_vte_terminal_cursor_down t).
Proof.
  unfold _vte_terminal_cursor_down.
  destruct (cursor_row t =? _); [|apply set_cursor_row_variant].
  eapply scroll_variant_trans; [|apply xterm_fill_row_variant].
  eapply scroll_variant_trans; [apply xterm_fill_row_variant|].
  destruct (scrolling_restricted _).
  - destruct (_ =? _).
    + unfold cursor_down_into_scrollback.
      eapply scroll_variant_trans; [|apply adjust_adjustments_variant].
      eapply scroll_variant_trans; [|apply buffer_ring_insert_variant].
      apply scroll_variant_step.
      by destruct (xterm_fill_row t) as [[? [? ?] ? ? ? ? ? ? ? ? ? ? ? ?] ? ? ? ?].
    + unfold cursor_down_in_region.
      eapply scroll_variant_trans; [|apply buffer_ring_insert_variant].
      apply set_ring_variant.
  - eapply scroll_variant_trans; [apply set_cursor_row_variant|].
    apply update_insert_delta_variant.
Qed.

End ScrollVariants.

(** ** Row allocation and line feed keep the terminal in order *)

Section InOrder.

Implicit Types (t : VteTerminal) (r : VteRing).

Lemma ring_insert_wf r (pos : Z) :
  ring_wf r ->
  ring_wf (_vte_ring_insert r pos) /\ ring_max (_vte_ring_insert r pos) = ring_max r.
Proof.
  intros [Hmax Hlen]. unfold ring_wf, _vte_ring_insert, ring_maybe_discard_one_row,
    ring_discard_one_row, _vte_ring_length in *.
  destruct (Z.of_nat (length (ring_rows r)) =? ring_max r) eqn:E;
    cbn [ring_delta ring_rows ring_max];
    rewrite length_app, length_take; cbn [length]; rewrite !length_drop; lia.
Qed.

Lemma ring_remove_wf r (pos : Z) :
  ring_wf r ->
  let r' := _vte_ring_remove r pos in
  ring_wf r'
  /\ ring_max r' = ring_max r
  /\ ring_delta r' = ring_delta r
  /\ _vte_ring_length r'
     = if _vte_ring_contains r pos then _vte_ring_length r - 1 else _vte_ring_length r.
Proof.
  intros [Hmax Hlen]. unfold ring_wf, _vte_ring_remove, _vte_ring_length in *.
  destruct (_vte_ring_contains r pos) eqn:E; cbn [ring_delta ring_rows ring_max];
    [|done].
  apply ring_contains_iff in E. unfold _vte_ring_next, _vte_ring_length in E.
  rewrite length_delete by (apply lookup_lt_is_Some_2; lia). lia.
Qed.

Lemma buffer_ring_insert_wf t (position : Z) (fill : bool) :
  ring_wf (ring t) -> ring_wf (ring (_vte_buffer_ring_insert t position fill)).
Proof.
  intros Hwf. unfold _vte_buffer_ring_insert.
  change (ring (set_ring ?x t)) with x.
  destruct (ring_iter_step_ok
              (ring_append_filled (fill_defaults (screen t)) (column_count t))
              (Z.to_nat (position - _vte_ring_next (ring t))) (ring t)
              (ring_append_filled_step_ok _ _) Hwf) as (Hwf1 & _).
  destruct (ring_insert_wf _ position Hwf1) as [[Hmax Hlen] _].
  destruct fill; [|done].
  unfold ring_wf. by rewrite ring_alter_max, ring_alter_length.
Qed.

(** [_vte_terminal_adjust_adjustments] always leaves the visible area inside
    the ring and the cursor inside the visible area or below. *)
Lemma adjust_adjustments_ok t :
  let t' := _vte_terminal_adjust_adjustments t in
  ring t' = ring t
  /\ ring_delta (ring t') <= insert_delta (screen t') <= cursor_row t'
  /\ insert_delta (screen t') = Z.max (insert_delta (screen t)) (ring_delta (ring t))
  /\ cursor_row t' = Z.max (cursor_row t) (insert_delta (screen t')).
Proof.
  destruct t as [[rd [crow ccol] idl sdl ? ? ? ? ? ? ? ? ? ?] ? ? ? ?].
  unfold _vte_terminal_adjust_adjustments, cursor_row, cursor_col, ring,
    _vte_ring_delta, set_cursor_row, set_screen, set_insert_delta,
    set_cursor_current, set_scroll_delta, cursor_row, cursor_col.
  cbn. destruct (sdl >? Z.max idl (ring_delta rd)); cbn; repeat split; lia.
Qed.

Lemma ensure_row_ok t :
  ring_wf (ring t) ->
  ring_delta (ring t) <= cursor_row t ->
  insert_delta (screen t) <= cursor_row t ->
  let t' := fst (_vte_terminal_ensure_row t) in
  ring_wf (ring t')
  /\ ring_delta (ring t') <= cursor_row t' < _vte_ring_next (ring t')
  /\ insert_delta (screen t') <= cursor_row t'
  /\ cursor_row t' = cursor_row t
  /\ (ring_delta (ring t) <= insert_delta (screen t) ->
      ring_delta (ring t') <= insert_delta (screen t')).
Proof.
  intros Hwf Hd Hid. unfold _vte_terminal_ensure_row.
  destruct (cursor_row t - _vte_ring_next (ring t) + 1 >? 0) eqn:E; cbn [fst].
  - rewrite insert_rows_eq.
    set (n := Z.to_nat (cursor_row t - _vte_ring_next (ring t) + 1)).
    destruct (ring_iter_step_ok _vte_ring_append n (ring t) ring_append_step_ok Hwf)
      as (Hwf1 & Hm & Hn & Hd1 & Hd1' & _).
    set (ra := Nat.iter n _vte_ring_append (ring t)) in *.
    destruct (adjust_adjustments_ok (set_ring ra t)) as (Hr & Hord & Hid' & Hcr).
    rewrite Hr. change (ring (set_ring ra t)) with ra in *.
    change (insert_delta (screen (set_ring ra t))) with (insert_delta (screen t)) in *.
    change (cursor_row (set_ring ra t)) with (cursor_row t) in *.
    destruct Hwf as [Hmax Hlen]. split; [done|]. lia.
  - assert (cursor_row t < _vte_ring_next (ring t)) by lia. split; [done|]. lia.
Qed.

Lemma xterm_fill_row_ok t :
  ring_wf (ring t) ->
  ring_delta (ring t) <= cursor_row t ->
  insert_delta (screen t) <= cursor_row t ->
  let t' := xterm_fill_row t in
  ring_wf (ring t')
  /\ ring_delta (ring t') <= cursor_row t'
  /\ insert_delta (screen t') <= cursor_row t'.
Proof.
  intros Hwf Hd Hid. unfold xterm_fill_row.
  destruct (_ =? VTE_DEF_BG); [done|].
  destruct (ensure_row_ok t Hwf Hd Hid) as ([Hmax Hlen] & Hd' & Hid' & Hcr & _).
  rewrite (ensure_row_snd t). cbv zeta.
  rewrite ring_modify_row. unfold ring_wf.
  rewrite ring_alter_max, ring_alter_length, ring_alter_delta.
  split; [done|]. split; [apply Hd'|exact Hid'].
Qed.

Lemma update_insert_delta_ok t :
  ring_wf (ring t) ->
  ring_delta (ring t) <= cursor_row t ->
  insert_delta (screen t) <= cursor_row t ->
  let t' := _vte_terminal_update_insert_delta t in
  ring_wf (ring t')
  /\ ring_delta (ring t') <= cursor_row t'
  /\ insert_delta (screen t') <= cursor_row t'.
Proof.
  intros Hwf Hd Hid. unfold _vte_terminal_update_insert_delta.
  set (t1 := if _ >? 0 then _ else t).
  assert (H1 : ring_wf (ring t1) /\ ring_delta (ring t1) <= cursor_row t1
               /\ insert_delta (screen t1) <= cursor_row t1).
  { subst t1. destruct (cursor_row t - _vte_ring_next (ring t) + 1 >? 0) eqn:E; [|done].
    rewrite insert_rows_eq.
    set (n := Z.to_nat (cursor_row t - _vte_ring_next (ring t) + 1)).
    destruct (ring_iter_step_ok _vte_ring_append n (ring t) ring_append_step_ok Hwf)
      as (Hwf1 & Hm & Hn & Hd1 & Hd1' & _).
    set (ra := Nat.iter n _vte_ring_append (ring t)) in *.
    change (ring (set_ring ra t)) with ra.
    change (insert_delta (screen (set_ring ra t))) with (insert_delta (screen t)).
    change (cursor_row (set_ring ra t)) with (cursor_row t).
    destruct Hwf as [Hmax Hlen]. split; [done|]. lia. }
  destruct H1 as (Hwf1 & Hd1 & Hid1).
  destruct (_ =? insert_delta (screen t1)); [done|].
  match goal with |- context [_vte_terminal_adjust_adjustments ?x] =>
    destruct (adjust_adjustments_ok x) as (Hr & Hord & _) end.
  rewrite Hr in *.
  change (ring (set_screen (set_insert_delta ?d (screen t1)) t1)) with (ring t1) in *.
  split; [exact Hwf1|]. lia.
Qed.

End InOrder.

Section LineFeedInOrder.

Implicit Types (t : VteTerminal) (r : VteRing).

(** The line feed on the bottom line of a region that does not start at the
    top: the top row of the region is in the ring, so room is made before
    the new row is inserted and no row is dropped. *)
Lemma cursor_down_in_region_ok t (start end_ : Z) :
  ring_wf (ring t) ->
  ring_delta (ring t) <= start <= end_ ->
  end_ < _vte_ring_next (ring t) ->
  let t' := cursor_down_in_region start end_ t in
  ring_wf (ring t')
  /\ ring_delta (ring t') = ring_delta (ring t)
  /\ cursor_current (screen t') = cursor_current (screen t)
  /\ insert_delta (screen t') = insert_delta (screen t).
Proof.
  intros Hwf Hstart Hend. unfold cursor_down_in_region.
  split; [apply buffer_ring_insert_wf, (ring_remove_wf (ring t) start Hwf)|].
  destruct (ring_remove_wf (ring t) start Hwf) as (Hwf1 & Hm1 & Hd1 & Hl1).
  assert (Hin : _vte_ring_contains (ring t) start = true)
    by (apply ring_contains_iff; lia).
  rewrite Hin in Hl1.
  rewrite buffer_ring_insert_no_append.
  - change (ring (set_ring ?x ?y)) with x. rewrite ring_alter_delta.
    change (ring (_vte_buffer_ring_remove t start)) with (_vte_ring_remove (ring t) start).
    rewrite ring_insert_delta_no_discard; [done|].
    rewrite Hl1, Hm1. destruct Hwf as [_ Hlen]. lia.
  - change (ring (_vte_buffer_ring_remove t start)) with (_vte_ring_remove (ring t) start).
    unfold _vte_ring_next in *. rewrite Hd1, Hl1. lia.
Qed.

(** [_vte_terminal_cursor_down] from a cursor row that is in the ring leaves
    a ring within its capacity and the cursor neither above the ring nor
    above the visible area. *)
Lemma cursor_down_ok t :
  terminal_ok t ->
  cursor_row t < _vte_ring_next (ring t) ->
  let t' := _vte_terminal_cursor_down t in
  ring_wf (ring t')
  /\ ring_delta (ring t') <= cursor_row t'
  /\ insert_delta (screen t') <= cursor_row t'.
Proof.
  intros (Hwf & Hord & Hreg) Hin. unfold _vte_terminal_cursor_down.
  destruct (cursor_row t =? _) eqn:Eend.
  2:{ change (ring (set_cursor_row ?v t)) with (ring t).
      change (insert_delta (screen (set_cursor_row ?v t))) with (insert_delta (screen t)).
      change (cursor_row (set_cursor_row ?v t)) with v.
      split; [done|]. lia. }
  apply Z.eqb_eq in Eend.
  destruct (xterm_fill_row_frame t Hin)
    as (Hd1 & Hn1 & Hm1 & Hl1 & _ & Hc1 & Hid1 & _ & Hr1 & Hrg1 & _).
  set (t1 := xterm_fill_row t) in *.
  assert (Hwf1 : ring_wf (ring t1)) by (unfold ring_wf; by rewrite Hm1, Hl1).
  assert (Hcr1 : cursor_row t1 = cursor_row t) by (unfold cursor_row; by rewrite Hc1).
  rewrite Hr1, Hid1.
  match goal with |- context [xterm_fill_row ?x] =>
    enough (ring_wf (ring x) /\ ring_delta (ring x) <= cursor_row x
            /\ insert_delta (screen x) <= cursor_row x)
      as (? & ? & ?) by (by apply xterm_fill_row_ok) end.
  destruct (scrolling_restricted (screen t)) eqn:Er.
  - destruct (Hreg eq_refl) as [Hrs Hre].
    destruct (insert_delta (screen t) + region_start (scrolling_region (screen t))
              =? insert_delta (screen t)) eqn:Es.
    + unfold cursor_down_into_scrollback.
      match goal with |- context [_vte_terminal_adjust_adjustments ?x] =>
        destruct (adjust_adjustments_ok x) as (Hr & Ho & _);
        assert (Hx : ring_wf (ring x)) by (by apply buffer_ring_insert_wf) end.
      rewrite Hr in *. split; [exact Hx|]. lia.
    + apply Z.eqb_neq in Es.
      destruct (cursor_down_in_region_ok t1
                  (insert_delta (screen t) + region_start (scrolling_region (screen t)))
                  (insert_delta (screen t) + region_end (scrolling_region (screen t)))
                  Hwf1) as (Hwf2 & Hd2 & Hc2 & Hid2).
      * rewrite Hd1. lia.
      * rewrite Hn1. lia.
      * split; [exact Hwf2|]. unfold cursor_row in *. rewrite Hd2, Hc2, Hid2, Hd1, Hid1.
        rewrite Hc1. lia.
  - apply (update_insert_delta_ok (set_cursor_row (cursor_row t1 + 1) t1)).
    + exact Hwf1.
    + change (ring (set_cursor_row ?v t1)) with (ring t1).
      change (cursor_row (set_cursor_row ?v t1)) with v. lia.
    + change (insert_delta (screen (set_cursor_row ?v t1))) with (insert_delta (screen t1)).
      change (cursor_row (set_cursor_row ?v t1)) with v. lia.
Qed.

End LineFeedInOrder.

(** ** The terminal on which the character is written *)

Section AfterWrap.

Implicit Types (t : VteTerminal) (r : VteRing).

Lemma set_cursor_col_id t : set_cursor_col (cursor_col t) t = t.
Proof. by destruct t as [[? [? ?] ? ? ? ? ? ? ? ? ? ? ? ?] ? ? ? ?]. Qed.

(** The autowrap before the character leaves the terminal in order, with the
    cursor in the column [col] where the character goes and room for the
    character behind it; apart from that column only the ring, the cursor
    row and the two deltas may have changed. *)
Lemma insert_char_autowrap_before_ok t (w : Z) t1 (col : Z) (lw : bool) :
  insert_char_autowrap_before t w = (t1, col, lw) ->
  terminal_ok t ->
  0 < w <= column_count t ->
  0 <= cursor_col t ->
  scroll_variant (set_cursor_col col t) t1
  /\ 0 <= col /\ col + w <= column_count t
  /\ ring_wf (ring t1)
  /\ ring_delta (ring t1) <= cursor_row t1
  /\ insert_delta (screen t1) <= cursor_row t1
  /\ (cursor_col t + w <= column_count t -> t1 = t /\ col = cursor_col t /\ lw = false).
Proof.
  intros Ewr (Hwf & Hord & Hreg) Hw Hcol. unfold insert_char_autowrap_before in Ewr.
  replace (w =? 0) with false in Ewr by lia. cbn [negb andb] in Ewr.
  destruct (cursor_col t + w >? column_count t) eqn:Efit.
  - destruct (flags_am (flags t)).
    + rewrite (ensure_row_snd (set_cursor_col 0 t)) in Ewr. injection Ewr as <- <- <-.
      change (cursor_row (set_cursor_col 0 t)) with (cursor_row t).
      destruct (ensure_row_ok (set_cursor_col 0 t) Hwf
                  ltac:(change (ring_delta (ring t) <= cursor_row t); lia)
                  ltac:(change (insert_delta (screen t) <= cursor_row t); lia))
        as ([Hmax Hlen] & Hd' & Hid' & Hcr & Hdi).
      pose proof (ensure_row_variant (set_cursor_col 0 t)) as HvE.
      set (E := fst (_vte_terminal_ensure_row (set_cursor_col 0 t))) in *.
      change (cursor_row (set_cursor_col 0 t)) with (cursor_row t) in *.
      set (M := modify_row (set_soft_wrapped true) (cursor_row t) E).
      assert (HvM : scroll_variant (set_cursor_col 0 t) M).
      { eapply scroll_variant_trans; [exact HvE|]. apply modify_row_variant. }
      assert (HokM : terminal_ok M).
      { unfold terminal_ok, M. rewrite ring_modify_row. unfold ring_wf.
        rewrite ring_alter_max, ring_alter_length, ring_alter_delta.
        split; [done|]. split.
        - change (insert_delta (screen (modify_row ?f ?i E))) with (insert_delta (screen E)).
          change (cursor_row (modify_row ?f ?i E)) with (cursor_row E).
          split; [apply Hdi; apply Hord|exact Hid'].
        - destruct HvE as (r & row & id & sd & HE). rewrite HE. exact Hreg. }
      assert (HinM : cursor_row M < _vte_ring_next (ring M)).
      { unfold M. rewrite ring_modify_row, ring_alter_next.
        change (cursor_row (modify_row ?f ?i E)) with (cursor_row E). lia. }
      destruct (cursor_down_ok M HokM HinM) as (Hwf2 & Hd2 & Hid2).
      split.
      { eapply scroll_variant_trans; [exact HvM|]. apply cursor_down_variant. }
      split; [lia|]. split; [lia|]. split; [exact Hwf2|]. split; [exact Hd2|].
      split; [exact Hid2|]. lia.
    + injection Ewr as <- <- <-.
      split; [apply scroll_variant_refl|]. split; [lia|]. split; [lia|].
      split; [exact Hwf|]. split; [|split]; [| |lia].
      * change (ring_delta (ring t) <= cursor_row t). lia.
      * change (insert_delta (screen t) <= cursor_row t). lia.
  - injection Ewr as <- <- <-.
    split; [rewrite set_cursor_col_id; apply scroll_variant_refl|].
    split; [lia|]. split; [lia|]. split; [exact Hwf|]. split; [lia|]. split; [lia|].
    done.
Qed.

(** After the autowrap the character is inserted as into a line with room
    for it. *)
Lemma insert_char_after_wrap (iso : VteIso2022) t (c c' w : Z) (insert : bool)
    t1 (col : Z) (lw : bool) :
  status_line (screen t) = false ->
  character_width iso (charset_substitute iso (screen t) c) = (c', w) ->
  w <> 0 ->
  insert_char_autowrap_before t w = (t1, col, lw) ->
  scroll_variant (set_cursor_col col t) t1 ->
  col + w <= column_count t ->
  _vte_terminal_insert_char iso t c insert
  = (lw, snd (_vte_terminal_insert_char iso t1 c insert)).
Proof.
  intros Hs Hw Hw0 Ewr (r & row & id & sd & ->) Hfit.
  rewrite (insert_char_no_wrap_before iso (scrolled r row id sd (set_cursor_col col t))
             c c' w insert Hs Hw Hw0 Hfit).
  unfold _vte_terminal_insert_char. rewrite Hs, Hw, Ewr.
  by replace (w =? 0) with false by lia.
Qed.

End AfterWrap.

(** ** Padding of the target row, wherever the character goes *)

(** C1 (amended): on a terminal in order with the status line off, a
    character of [w > 0] columns is written at the column [col] of the
    terminal [t1] that the autowrap before the character leaves ([t1] is the
    terminal itself and [col] the cursor column when the character fits
    before the right margin).  [_vte_terminal_insert_char] allocates the
    rows up to the cursor and then, with insert mode off, pads the row under
    the cursor with copies of the default blank cell [basic_cell] (and not
    with the screen's [fill_defaults]) out to [col + w]; with insert mode
    on, it inserts [w] cells carrying [color_defaults] at [col].  The
    character is written into the row padded in this way. *)
Theorem insert_char_padding (iso : VteIso2022) (t : VteTerminal)
    (c c' w : Z) (insert : bool) :
  status_line (screen t) = false ->
  character_width iso (charset_substitute iso (screen t) c) = (c', w) ->
  0 < w <= column_count t ->
  0 <= cursor_col t ->
  terminal_ok t ->
  let wrapped := insert_char_autowrap_before t w in
  let t1 := fst (fst wrapped) in
  let col := snd (fst wrapped) in
  let t0 := fst (_vte_terminal_ensure_row t1) in
  let ins := insert || insert_mode (screen t) in
  (cursor_col t + w <= column_count t -> t1 = t /\ col = cursor_col t)
  /\ (cursor_row t1 < _vte_ring_next (ring t1) -> t0 = t1)
  /\ exists row,
       _vte_ring_index (ring t0) (cursor_row t1) = Some row
       /\ let row1 := cleanup_tab_row (fill_defaults (screen t)) col
                        (_vte_row_data_fill row basic_cell col) in
          let padded := pad_row ins (color_defaults (screen t)) col w row1 in
          cells (_vte_row_data_fill row basic_cell col)
          = cells row ++ replicate (Z.to_nat col - length (cells row)) basic_cell
          /\ (ins = false ->
              cells padded
              = cells row1
                ++ replicate (Z.to_nat (col + w) - length (cells row1)) basic_cell)
          /\ (ins = true ->
              cells padded
              = take (Z.to_nat col) (cells row1)
                ++ replicate (Z.to_nat w) (color_defaults (screen t))
                ++ drop (Z.to_nat col) (cells row1))
          /\ _vte_terminal_insert_char iso t c insert
             = (snd wrapped,
                set_text_inserted_flag true
                  (insert_char_autowrap_after
                     (modify_row
                        (fun _ => write_cells t0 c' col w
                                    (break_wide_right (col + w)
                                       (break_wide_left col padded)))
                        (cursor_row t1) t0)
                     (cursor_row t1) col w)).
Proof.
  intros Hs Hw Hw0 Hcol Hok wrapped t1 col t0 ins. subst t0 t1 col wrapped.
  destruct (insert_char_autowrap_before t w) as [[t1 col] lw] eqn:Ewr. cbn [fst snd].
  destruct (insert_char_autowrap_before_ok t w t1 col lw Ewr Hok Hw0 Hcol)
    as (Hv & Hcol1 & Hfit1 & Hwf1 & Hd1 & Hid1 & Hsame).
  rewrite (insert_char_after_wrap iso t c c' w insert t1 col lw Hs Hw ltac:(lia) Ewr Hv Hfit1).
  destruct Hv as (r & row' & id & sd & ->).
  destruct (padding_in_line iso (scrolled r row' id sd (set_cursor_col col t))
              c c' w insert Hs Hw ltac:(lia) Hcol1 Hfit1 Hwf1 Hd1 Hid1)
    as (Hin & row & Hrow & Hfill & Hover & Hins & Heq).
  split; [intros Hfit; by destruct (Hsame Hfit) as (? & ? & ?)|].
  split; [exact Hin|].
  exists row. split; [exact Hrow|]. split; [exact Hfill|]. split; [exact Hover|].
  split; [exact Hins|]. by rewrite Heq.
Qed.

Lemma insert_char_padding_witness :
  let wrapped := insert_char_autowrap_before blue_wrap_terminal 1 in
  exists row,
    _vte_ring_index (ring (fst (_vte_terminal_ensure_row (fst (fst wrapped))))) 1
    = Some row
    /\ cells (_vte_row_data_fill row basic_cell 0)
       = cells row ++ replicate (0 - length (cells row)) basic_cell
    /\ fst (_vte_terminal_insert_char sample_iso2022 blue_wrap_terminal 120 false) = true.
Proof.
  destruct (insert_char_padding sample_iso2022 blue_wrap_terminal 120 120 1 false
              eq_refl eq_refl
              ltac:(vm_compute; split; congruence)
              ltac:(vm_compute; congruence)
              ltac:(vm_compute; repeat split; congruence))
    as (_ & _ & row & Hrow & Hfill & _ & _ & Heq).
  exists row. split; [exact Hrow|]. split; [exact Hfill|]. by rewrite Heq.
Defined.

(** ** Wide characters under the new character, wherever it goes *)

(** C2 (amended): on a terminal in order with the status line off, when a
    character of [w > 0] columns is written at the column [col] (the cursor
    column, or the column that the autowrap before the character leaves),
    every fragment cell left over behind it (the run of fragment cells that
    starts at [col + w]) is converted to a single-column blank with [c = 0]
    and [columns = 1].  The cell that begins a wide character before [col]
    is not blanked: it keeps its [c], and only its [columns] is cut to the
    number of cells that remain before [col].  [padded] is the row under the
    cursor after the padding, [final] the row that
    [_vte_terminal_insert_char] stores. *)
Theorem insert_char_breaks_wide (iso : VteIso2022) (t : VteTerminal)
    (c c' w : Z) (insert : bool) :
  status_line (screen t) = false ->
  character_width iso (charset_substitute iso (screen t) c) = (c', w) ->
  0 < w <= column_count t ->
  0 <= cursor_col t ->
  terminal_ok t ->
  let wrapped := insert_char_autowrap_before t w in
  let t1 := fst (fst wrapped) in
  let col := snd (fst wrapped) in
  let t0 := fst (_vte_terminal_ensure_row t1) in
  let ins := insert || insert_mode (screen t) in
  let stored := fst (insert_char_store t1 ins c' col w) in
  (cursor_col t + w <= column_count t -> t1 = t /\ col = cursor_col t)
  /\ _vte_terminal_insert_char iso t c insert
     = (snd wrapped,
        set_text_inserted_flag true
          (insert_char_autowrap_after stored (cursor_row t1) col w))
  /\ exists row final,
       _vte_ring_index (ring t0) (cursor_row t1) = Some row
       /\ _vte_ring_index (ring stored) (cursor_row t1) = Some final
       /\ let row1 := cleanup_tab_row (fill_defaults (screen t)) col
                        (_vte_row_data_fill row basic_cell col) in
          let padded := pad_row ins (color_defaults (screen t)) col w row1 in
          (forall (j : nat) cell,
             col + w <= Z.of_nat j < column_count t ->
             cells padded !! j = Some cell ->
             (forall k : nat, col + w <= Z.of_nat k <= Z.of_nat j ->
                exists cell', cells padded !! k = Some cell'
                              /\ cell_fragment cell' = true) ->
             cells final !! j = Some (set_cell_c 0 (set_cell_columns 1 cell)))
          /\ (0 < col ->
              let col2 := back_over_fragments (cells padded) (Z.to_nat (col - 1)) in
              Z.of_nat col2 < col
              /\ (forall k : nat, Z.of_nat col2 < Z.of_nat k < col ->
                    exists cell', cells padded !! k = Some cell'
                                  /\ cell_fragment cell' = true)
              /\ (forall cell, cells padded !! col2 = Some cell ->
                    cells final !! col2
                    = Some (set_cell_columns (col - Z.of_nat col2) cell)
                    /\ cell_c (set_cell_columns (col - Z.of_nat col2) cell)
                       = cell_c cell)).
Proof.
  intros Hs Hw Hw0 Hcol Hok wrapped t1 col t0 ins stored.
  subst stored t0 t1 col wrapped.
  destruct (insert_char_autowrap_before t w) as [[t1 col] lw] eqn:Ewr. cbn [fst snd].
  destruct (insert_char_autowrap_before_ok t w t1 col lw Ewr Hok Hw0 Hcol)
    as (Hv & Hcol1 & Hfit1 & Hwf1 & Hd1 & Hid1 & Hsame).
  rewrite (insert_char_after_wrap iso t c c' w insert t1 col lw Hs Hw ltac:(lia) Ewr Hv Hfit1).
  destruct Hv as (r & row' & id & sd & ->).
  destruct (broken_wide_in_line iso (scrolled r row' id sd (set_cursor_col col t))
              c c' w insert Hs Hw ltac:(lia) Hcol1 Hfit1 Hwf1 Hd1 Hid1)
    as (Heq & row & final & Hrow & Hfinal & Hright & Hleft).
  split; [intros Hfit; by destruct (Hsame Hfit) as (? & ? & ?)|].
  split; [by rewrite Heq|].
  exists row, final. split; [exact Hrow|]. split; [exact Hfinal|].
  split; [exact Hright|exact Hleft].
Qed.

Lemma insert_char_breaks_wide_witness :
  exists final,
    _vte_ring_index
      (ring (snd (_vte_terminal_insert_char sample_iso2022 (wide_terminal 0) 97 false))) 0
    = Some final
    /\ cells final !! 1%nat = Some (set_cell_c 0 (set_cell_columns 1 (wide_cell 20000 true))).
Proof.
  destruct (insert_char_breaks_wide sample_iso2022 (wide_terminal 0) 97 97 1 false
              eq_refl eq_refl
              ltac:(vm_compute; split; congruence)
              ltac:(vm_compute; congruence)
              ltac:(vm_compute; repeat split; congruence))
    as (_ & Hins & row & final & Hrow & Hfinal & Hright & _).
  exists final. split.
  - rewrite Hins. exact Hfinal.
  - vm_compute in Hrow. injection Hrow as <-.
    apply (Hright 1%nat (wide_cell 20000 true)).
    + vm_compute. split; congruence.
    + reflexivity.
    + intros k Hk. assert (k = 1%nat) as ->.
      { change (snd (fst (insert_char_autowrap_before (wide_terminal 0) 1))) with 0 in Hk.
        lia. }
      exists (wide_cell 20000 true). split; reflexivity.
Defined.

(** ** Overstrike *)

(** C9 (amended): for a code point [c] of one column with [c <> '_'] or the
    [ul] flag unset, on a terminal in order without insert mode and status
    line, and when the character does not autowrap behind itself (it ends
    before the right margin, or [am] is unset, or [xn] is set), inserting
    [c], moving the cursor back by one column and inserting [c] again leaves
    the terminal, grid and cursor, in exactly the state that the first
    insertion left.  [col] is the column where the character is written: the
    cursor column, or the column that the autowrap before the character
    leaves.  The defaults are taken not to carry the fragment bit. *)
Theorem overstrike_idempotent (iso : VteIso2022) (t : VteTerminal) (c c' : Z) :
  status_line (screen t) = false ->
  character_width iso (charset_substitute iso (screen t) c) = (c', 1) ->
  insert_mode (screen t) = false ->
  0 <= cursor_col t ->
  1 <= column_count t ->
  snd (fst (insert_char_autowrap_before t 1)) + 1 < column_count t
  \/ flags_am (flags t) = false \/ flags_xn (flags t) = true ->
  c' <> 95 \/ flags_ul (flags t) = false ->
  cell_fragment (defaults (screen t)) = false ->
  terminal_ok t ->
  snd (_vte_terminal_insert_char iso
         (backspace (snd (_vte_terminal_insert_char iso t c false))) c false)
  = snd (_vte_terminal_insert_char iso t c false).
Proof.
  intros Hs Hw Him Hcol Hcc Hnowrap Hul Hfrag Hok.
  destruct (insert_char_autowrap_before t 1) as [[t1 col] lw] eqn:Ewr.
  cbn [fst snd] in Hnowrap.
  destruct (insert_char_autowrap_before_ok t 1 t1 col lw Ewr Hok ltac:(lia) Hcol)
    as (Hv & Hcol1 & Hfit1 & Hwf1 & Hd1 & Hid1 & _).
  rewrite (insert_char_after_wrap iso t c c' 1 false t1 col lw Hs Hw ltac:(lia) Ewr Hv Hfit1).
  cbn [snd]. destruct Hv as (r & row' & id & sd & ->).
  exact (overstrike_in_line iso (scrolled r row' id sd (set_cursor_col col t)) c c'
           Hs Hw Him Hcol1 Hfit1 Hnowrap Hul Hfrag Hwf1 Hd1 Hid1).
Qed.

Lemma overstrike_idempotent_witness :
  overstrike_twice (margin_terminal 1) 120
  = snd (_vte_terminal_insert_char sample_iso2022 (margin_terminal 1) 120 false)
  /\ overstrike_twice (margin_terminal 5) 120
     = snd (_vte_terminal_insert_char sample_iso2022 (margin_terminal 5) 120 false).
Proof.
  split.
  - exact (overstrike_idempotent sample_iso2022 (margin_terminal 1) 120 120
             eq_refl eq_refl eq_refl
             ltac:(vm_compute; congruence) ltac:(vm_compute; congruence)
             ltac:(left; vm_compute; reflexivity)
             ltac:(left; lia) eq_refl
             ltac:(vm_compute; repeat split; congruence)).
  - exact (overstrike_idempotent sample_iso2022 (margin_terminal 5) 120 120
             eq_refl eq_refl eq_refl
             ltac:(vm_compute; congruence) ltac:(vm_compute; congruence)
             ltac:(left; vm_compute; reflexivity)
             ltac:(left; lia) eq_refl
             ltac:(vm_compute; repeat split; congruence)).
Defined.

(** * Further properties of the code *)

(** ** Snapping the deltas *)

Lemma adjust_adjustments_eq (t : VteTerminal) :
  let id' := Z.max (insert_delta (screen t)) (ring_delta (ring t)) in
  _vte_terminal_adjust_adjustments t
  = scrolled (ring t) (Z.max (cursor_row t) id') id'
      (if scroll_delta (screen t) >? id' then id' else scroll_delta (screen t)) t.
Proof.
  destruct t as [[rd [crow ccol] idl sdl ? ? ? ? ? ? ? ? ? ?] ? ? ? ?].
  unfold _vte_terminal_adjust_adjustments, scrolled, cursor_row, cursor_col, ring,
    _vte_ring_delta, set_cursor_row, set_screen, set_insert_delta,
    set_cursor_current, set_scroll_delta, set_row_data, cursor_row, cursor_col.
  cbn. by destruct (sdl >? Z.max idl (ring_delta rd)).
Qed.

(** X1: [_vte_terminal_adjust_adjustments] never touches the ring; it moves
    [insert_delta] and the cursor row down only, and [scroll_delta] up only;
    afterwards the visible area starts inside the ring, the cursor stands in
    or below its first row and the view is not scrolled past it; running it
    a second time changes nothing. *)
Theorem adjust_adjustments_snaps (t : VteTerminal) :
  let t' := _vte_terminal_adjust_adjustments t in
  ring t' = ring t
  /\ _vte_ring_delta (ring t') <= insert_delta (screen t') <= cursor_row t'
  /\ scroll_delta (screen t') <= insert_delta (screen t')
  /\ insert_delta (screen t) <= insert_delta (screen t')
  /\ cursor_row t <= cursor_row t'
  /\ scroll_delta (screen t') <= scroll_delta (screen t)
  /\ cursor_col t' = cursor_col t
  /\ _vte_terminal_adjust_adjustments t' = t'.
Proof.
  intros t'. subst t'. rewrite (adjust_adjustments_eq t).
  set (id' := Z.max (insert_delta (screen t)) (ring_delta (ring t))).
  set (sd' := if scroll_delta (screen t) >? id' then id' else scroll_delta (screen t)).
  set (cr' := Z.max (cursor_row t) id').
  assert (Hsd : sd' <= id' /\ sd' <= scroll_delta (screen t))
    by (subst sd'; destruct (scroll_delta (screen t) >? id') eqn:E; lia).
  change (ring (scrolled (ring t) cr' id' sd' t)) with (ring t).
  change (insert_delta (screen (scrolled (ring t) cr' id' sd' t))) with id'.
  change (scroll_delta (screen (scrolled (ring t) cr' id' sd' t))) with sd'.
  change (cursor_row (scrolled (ring t) cr' id' sd' t)) with cr'.
  change (cursor_col (scrolled (ring t) cr' id' sd' t)) with (cursor_col t).
  unfold _vte_ring_delta.
  repeat (split; [lia || done|]).
  apply adjust_adjustments_id.
  - change (ring_delta (ring t) <= id'). lia.
  - change (id' <= cr'). lia.
  - change (sd' <= id'). lia.
Qed.

(** ** The frame of a line feed *)

(** X2: whatever the state, [_vte_terminal_cursor_down] changes nothing but
    the ring, the cursor row and the two deltas: the cursor column, the
    scrolling region, the three attribute defaults, the modes, the status
    line, the size and the flags stay as they are. *)
Theorem cursor_down_leaves_settings (t : VteTerminal) :
  let t' := _vte_terminal_cursor_down t in
  cursor_col t' = cursor_col t
  /\ scrolling_restricted (screen t') = scrolling_restricted (screen t)
  /\ scrolling_region (screen t') = scrolling_region (screen t)
  /\ defaults (screen t') = defaults (screen t)
  /\ color_defaults (screen t') = color_defaults (screen t)
  /\ fill_defaults (screen t') = fill_defaults (screen t)
  /\ insert_mode (screen t') = insert_mode (screen t)
  /\ alternate_charset (screen t') = alternate_charset (screen t)
  /\ status_line (screen t') = status_line (screen t)
  /\ status_line_changed (screen t') = status_line_changed (screen t)
  /\ status_line_contents (screen t') = status_line_contents (screen t)
  /\ row_count t' = row_count t
  /\ column_count t' = column_count t
  /\ flags t' = flags t
  /\ text_inserted_flag t' = text_inserted_flag t.
Proof.
  intros t'. subst t'.
  destruct (cursor_down_variant t) as (r & row & id & sd & ->).
  by repeat split.
Qed.

(** ** Word classes, again *)

(** X3: [vte_same_class] does not depend on the order of its two positions,
    and two positions of the same class both hold populated cells. *)
Theorem vte_same_class_sym
    (iso : VteIso2022) (u : GUnichar) (wc : option (list VteWordCharRange))
    (s : VteScreen) (acol arow bcol brow : Z) :
  vte_same_class iso u wc s acol arow bcol brow
  = vte_same_class iso u wc s bcol brow acol arow
  /\ (vte_same_class iso u wc s acol arow bcol brow = true ->
      exists a b,
        vte_screen_find_charcell s acol arow = Some a /\ cell_c a <> 0
        /\ vte_screen_find_charcell s bcol brow = Some b /\ cell_c b <> 0).
Proof.
  unfold vte_same_class.
  destruct (vte_screen_find_charcell s acol arow) as [a|] eqn:Ea;
    destruct (vte_screen_find_charcell s bcol brow) as [b|] eqn:Eb; simpl.
  - destruct (cell_c a =? 0) eqn:Ha; destruct (cell_c b =? 0) eqn:Hb; simpl.
    + split; [done|discriminate].
    + split; [by destruct (vte_terminal_is_word_char _ _ _)|discriminate].
    + split; [by destruct (vte_terminal_is_word_char _ _ _)|].
      by destruct (vte_terminal_is_word_char _ _ _).
    + split.
      * destruct (vte_terminal_is_word_char u wc (unistr_get_base iso (cell_c a)));
          by destruct (vte_terminal_is_word_char u wc (unistr_get_base iso (cell_c b))).
      * intros _. exists a, b. repeat split; lia.
  - destruct (cell_c a =? 0); simpl; [done|].
    split; [by destruct (vte_terminal_is_word_char _ _ _)|].
    by destruct (vte_terminal_is_word_char _ _ _).
  - destruct (cell_c b =? 0); simpl; [done|].
    split; [by destruct (vte_terminal_is_word_char _ _ _)|discriminate].
  - done.
Qed.

(** ** The match table as a whole *)

Section MatchTableFacts.

Context {GRegex : Type}.
Implicit Types (l : list (vte_match_regex GRegex)) (m : VteMatch GRegex).

Lemma match_table_ok_insert l (i : nat) (e : vte_match_regex GRegex) :
  match_table_ok l -> match_entry_ok i e -> match_table_ok (<[i := e]> l).
Proof.
  intros Hl He j e' Hj. destruct (decide (i = j)) as [->|Hne].
  - apply list_lookup_insert_Some in Hj as [(_ & <- & _)|(? & _)]; [done|done].
  - rewrite list_lookup_insert_ne in Hj by done. by apply Hl.
Qed.

Lemma match_entry_ok_clear (i : nat) (e : vte_match_regex GRegex) :
  match_entry_ok i (regex_match_clear e).
Proof. by left. Qed.

Lemma search_hole_first l (n : nat) :
  (forall j e, (j < search_hole l n - n)%nat -> l !! j = Some e -> mr_tag e <> -1)
  /\ (n <= search_hole l n <= n + length l)%nat.
Proof.
  revert n. induction l as [|e0 l IH]; intros n; simpl.
  - split; [|lia]. intros j e Hj. lia.
  - destruct (mr_tag e0 =? -1) eqn:E; [split; [intros j e Hj; lia|lia]|].
    destruct (IH (S n)) as [Hb Hr]. split; [|lia].
    intros [|j] e Hj He; simpl in He.
    + injection He as <-. lia.
    + apply (Hb j e); [lia|done].
Qed.

End MatchTableFacts.

(** X4: the match table keeps its shape: if every entry is a hole without a
    regex or carries its own index as its tag (as in the empty table), the
    same holds after [vte_terminal_match_add_gregex],
    [vte_terminal_match_remove], [vte_terminal_match_remove_all] and the
    cursor setters, whatever their arguments; the tag that add returns
    names the entry that holds the new regex. *)
Theorem match_table_keeps_shape {GRegex : Type} (default_cursor : Z)
    (m : VteMatch GRegex) :
  match_table_ok (match_regexes m) ->
  (forall regex flags,
     let r := vte_terminal_match_add_gregex default_cursor m regex flags in
     match_table_ok (match_regexes (snd r))
     /\ exists e, match_regexes (snd r) !! Z.to_nat (fst r) = Some e
                  /\ mr_regex e = Some regex /\ mr_tag e = fst r)
  /\ (forall tag, match_table_ok (match_regexes (vte_terminal_match_remove m tag)))
  /\ match_table_ok (match_regexes (vte_terminal_match_remove_all m))
  /\ (forall tag cur, match_table_ok (match_regexes (match_set_cursor_at m tag cur))).
Proof.
  intros Hok. split; [|split; [|split]].
  - intros regex flags r. subst r. unfold vte_terminal_match_add_gregex.
    destruct (search_hole_first (match_regexes m) 0) as [_ Hr].
    set (ret := search_hole (match_regexes m) 0) in *.
    assert (Hnew : match_entry_ok ret
                     (mkMatchRegex (Some regex) flags (Z.of_nat ret)
                        (VTE_REGEX_CURSOR_GDKCURSORTYPE default_cursor)))
      by (right; split; [done|by eexists]).
    destruct (ret <? length (match_regexes m))%nat eqn:E; cbn [fst snd mr_tag];
      change (match_regexes (set_match_regexes ?l m)) with l.
    + apply Nat.ltb_lt in E. split; [by apply match_table_ok_insert|].
      rewrite Nat2Z.id. eexists. split; [by apply list_lookup_insert_eq|done].
    + apply Nat.ltb_ge in E. assert (ret = length (match_regexes m)) as Hlen by lia.
      split.
      * intros j e Hj. destruct (decide (j < length (match_regexes m))%nat).
        -- rewrite lookup_app_l in Hj by done. by apply Hok.
        -- rewrite lookup_app_r in Hj by lia.
           destruct (j - length (match_regexes m))%nat as [|k] eqn:Ek; [|done].
           injection Hj as <-. assert (j = ret) as -> by lia. exact Hnew.
      * rewrite Nat2Z.id. eexists.
        split; [rewrite lookup_app_r by lia;
                by replace (ret - length (match_regexes m))%nat with 0%nat by lia|done].
  - intros tag. unfold vte_terminal_match_remove.
    destruct (_ >? _); [|done].
    destruct (match_regexes m !! Z.to_nat tag) as [regex|]; [|done].
    destruct (mr_tag regex <? 0); [done|].
    apply match_table_ok_insert; [done|apply match_entry_ok_clear].
  - intros j e Hj. cbn in Hj. by destruct j.
  - intros tag cur. unfold match_set_cursor_at.
    destruct (_ <? _); [|done].
    destruct (match_regexes m !! Z.to_nat tag) as [regex|] eqn:E; [|done].
    apply match_table_ok_insert; [done|]. apply (Hok _ _ E).
Qed.

Lemma match_table_keeps_shape_witness :
  match_table_ok (match_regexes (vte_terminal_match_remove sample_match 1))
  /\ fst (vte_terminal_match_add_gregex 0 (vte_terminal_match_remove sample_match 1) 13 0)
     = 1.
Proof.
  assert (H : match_table_ok (match_regexes sample_match)).
  { intros [|[|[|i]]] e He; simpl in He; try done; injection He as <-;
      right; split; by try eexists. }
  split; [|reflexivity].
  exact (proj1 (proj2 (match_table_keeps_shape 0 sample_match H)) 1).
Defined.

Section MatchCacheFacts.

Context {GRegex : Type}.
Implicit Types (l : list (vte_match_regex GRegex)) (m : VteMatch GRegex).

Lemma hilite_clear_outside m (row col : Z) :
  rowcol_inside_match (vte_terminal_match_hilite_clear m) row col = false.
Proof.
  unfold rowcol_inside_match, vte_terminal_match_hilite_clear. cbn.
  destruct (row <? -1) eqn:E1; [done|]. destruct (row >? -2) eqn:E2; [done|]. lia.
Qed.

(** With the highlight cleared a check runs the regexes. *)
Lemma match_check_scans
    (get_text : VteTerminal -> string * list VteCharAttributes)
    (scan : VteMatch GRegex -> Z -> Z -> option string * Z * Z * Z)
    (t : VteTerminal) m (column row : Z) :
  (forall r c, rowcol_inside_match m r c = false) ->
  exists ev,
    snd (vte_terminal_match_check get_text scan t m column row) = ev ++ [RegexesScanned].
Proof.
  intros Hout. unfold vte_terminal_match_check, vte_terminal_match_check_internal.
  rewrite Hout.
  destruct (match_contents m); destruct (scan _ _ _) as [[[? ?] ?] ?]; cbn.
  - by exists [].
  - by exists [ContentsRefreshed].
Qed.

Lemma search_hole_at l (k n : nat) e :
  l !! k = Some e -> mr_tag e = -1 ->
  (forall j e', (j < k)%nat -> l !! j = Some e' -> mr_tag e' <> -1) ->
  search_hole l n = (n + k)%nat.
Proof.
  revert k n. induction l as [|e0 l IH]; intros k n He Ht Hb; [done|].
  destruct k as [|k]; simpl in *.
  - injection He as ->. rewrite Ht. simpl. lia.
  - replace (mr_tag e0 =? -1) with false.
    + rewrite (IH k (S n)); [lia|done|done|].
      intros j e' Hj. apply (Hb (S j)). lia.
    + symmetry. apply Z.eqb_neq. apply (Hb 0%nat e0); [lia|done].
Qed.

End MatchCacheFacts.

(** X5: once the highlight is cleared no position lies inside the cached
    range, so the next [vte_terminal_match_check] runs the regexes again
    instead of answering from the cache.  This is the case after
    [vte_terminal_match_remove_all], after [vte_terminal_match_contents_clear],
    after a cursor setter with a tag inside the table and after
    [vte_terminal_match_remove] of an entry that is not yet a hole. *)
Theorem match_changes_forget_cache {GRegex : Type}
    (get_text : VteTerminal -> string * list VteCharAttributes)
    (scan : VteMatch GRegex -> Z -> Z -> option string * Z * Z * Z)
    (t : VteTerminal) (m : VteMatch GRegex) (tag : Z) (e : vte_match_regex GRegex)
    (cur : vte_regex_cursor) (column row : Z) :
  0 <= tag < 2 ^ 31 ->
  match_regexes m !! Z.to_nat tag = Some e ->
  let scans m' :=
    exists ev,
      snd (vte_terminal_match_check get_text scan t m' column row)
      = ev ++ [RegexesScanned] in
  (forall r c, rowcol_inside_match (vte_terminal_match_hilite_clear m) r c = false)
  /\ scans (vte_terminal_match_remove_all m)
  /\ scans (vte_terminal_match_contents_clear m)
  /\ scans (match_set_cursor_at m tag cur)
  /\ (0 <= mr_tag e -> scans (vte_terminal_match_remove m tag)).
Proof.
  intros Htag He scans.
  assert (Hlen : (Z.to_nat tag < length (match_regexes m))%nat)
    by (by eapply lookup_lt_Some).
  split; [apply hilite_clear_outside|]. subst scans. cbv beta.
  split; [apply match_check_scans, hilite_clear_outside|].
  split; [apply match_check_scans, hilite_clear_outside|].
  split.
  - apply match_check_scans. unfold match_set_cursor_at.
    rewrite to_guint_small by lia.
    replace (tag <? Z.of_nat (length (match_regexes m))) with true by lia.
    rewrite He. apply hilite_clear_outside.
  - intros Hlive. apply match_check_scans. unfold vte_terminal_match_remove.
    rewrite to_guint_small by lia.
    replace (Z.of_nat (length (match_regexes m)) >? tag) with true by lia.
    rewrite He. replace (mr_tag e <? 0) with false by lia.
    apply hilite_clear_outside.
Qed.

Lemma match_changes_forget_cache_witness :
  exists ev,
    snd (vte_terminal_match_check (fun _ => (EmptyString, [])) (fun _ _ _ => (None, -1, 0, 0))
           (sample_terminal (sample_screen (mkRing 0 [] 100) (mkPos 0 0)))
           (vte_terminal_match_remove cached_match 1) 10 7)
    = ev ++ [RegexesScanned].
Proof.
  destruct (match_changes_forget_cache
              (fun _ => (EmptyString, [])) (fun _ _ _ => (None, -1, 0, 0))
              (sample_terminal (sample_screen (mkRing 0 [] 100) (mkPos 0 0)))
              cached_match 1 (mkMatchRegex (Some 11) 0 1 sample_cursor)
              sample_cursor 10 7 ltac:(lia) eq_refl)
    as (_ & _ & _ & _ & H).
  apply H. simpl. lia.
Defined.

(** X6: tags are reused: the tag that [vte_terminal_match_add_gregex]
    returns, removed and followed by another add, is returned again, and the
    second add touches no other entry; after
    [vte_terminal_match_remove_all] the table is empty and the next add
    returns the tag 0. *)
Theorem match_add_remove_add {GRegex : Type} (default_cursor : Z)
    (m : VteMatch GRegex) (regex regex' : GRegex) (flags flags' : Z) :
  Z.of_nat (length (match_regexes m)) < 2 ^ 31 ->
  let r1 := vte_terminal_match_add_gregex default_cursor m regex flags in
  let m2 := vte_terminal_match_remove (snd r1) (fst r1) in
  let r3 := vte_terminal_match_add_gregex default_cursor m2 regex' flags' in
  (exists e, match_regexes m2 !! Z.to_nat (fst r1) = Some e /\ mr_tag e = -1)
  /\ fst r3 = fst r1
  /\ length (match_regexes (snd r3)) = length (match_regexes (snd r1))
  /\ (forall j, j <> Z.to_nat (fst r1) ->
        match_regexes (snd r3) !! j = match_regexes (snd r1) !! j)
  /\ match_regexes (vte_terminal_match_remove_all m) = []
  /\ fst (vte_terminal_match_add_gregex default_cursor
            (vte_terminal_match_remove_all m) regex flags) = 0.
Proof.
  intros Hsmall r1 m2 r3.
  destruct (search_hole_first (match_regexes m) 0) as [Hbefore Hr].
  set (ret := search_hole (match_regexes m) 0) in *.
  set (new := mkMatchRegex (Some regex) flags (Z.of_nat ret)
                (VTE_REGEX_CURSOR_GDKCURSORTYPE default_cursor)).
  set (l1 := if (ret <? length (match_regexes m))%nat
             then <[ret := new]> (match_regexes m) else match_regexes m ++ [new]).
  assert (Hr1 : r1 = (Z.of_nat ret, set_match_regexes l1 m)).
  { subst r1 l1. unfold vte_terminal_match_add_gregex. fold ret. fold new.
    by destruct (ret <? length (match_regexes m))%nat. }
  assert (Hl1 : l1 !! ret = Some new /\ (ret < length l1)%nat
                /\ forall j e', (j < ret)%nat -> l1 !! j = Some e' -> mr_tag e' <> -1).
  { subst l1. destruct (ret <? length (match_regexes m))%nat eqn:E.
    - apply Nat.ltb_lt in E. split; [by apply list_lookup_insert_eq|].
      split; [by rewrite length_insert|].
      intros j e' Hj. rewrite list_lookup_insert_ne by lia.
      apply Hbefore. lia.
    - apply Nat.ltb_ge in E. split.
      { rewrite lookup_app_r by lia.
        by replace (ret - length (match_regexes m))%nat with 0%nat by lia. }
      split; [rewrite length_app; simpl; lia|].
      intros j e' Hj. rewrite lookup_app_l by lia. apply Hbefore. lia. }
  destruct Hl1 as (Hat & Hlt & Hb1).
  assert (Hlen1 : Z.of_nat (length l1) <= 2 ^ 31).
  { subst l1. destruct (ret <? length (match_regexes m))%nat.
    - rewrite length_insert. lia.
    - rewrite length_app. simpl. lia. }
  assert (Hm2 : match_regexes m2 = <[ret := regex_match_clear new]> l1).
  { subst m2. rewrite Hr1. cbn [fst snd]. unfold vte_terminal_match_remove.
    change (match_regexes (set_match_regexes l1 m)) with l1.
    rewrite to_guint_small by lia.
    replace (Z.of_nat (length l1) >? Z.of_nat ret) with true by lia.
    rewrite Nat2Z.id, Hat. cbn [mr_tag new].
    replace (Z.of_nat ret <? 0) with false by lia. done. }
  assert (Hhole : search_hole (match_regexes m2) 0 = ret).
  { rewrite Hm2.
    rewrite (search_hole_at _ ret 0 (regex_match_clear new)); [done| |done|].
    - by apply list_lookup_insert_eq.
    - intros j e' Hj. rewrite list_lookup_insert_ne by lia. by apply Hb1. }
  assert (Hr3 : r3 = (Z.of_nat ret,
                      set_match_regexes
                        (<[ret := mkMatchRegex (Some regex') flags' (Z.of_nat ret)
                                    (VTE_REGEX_CURSOR_GDKCURSORTYPE default_cursor)]>
                           (match_regexes m2)) m2)).
  { subst r3. unfold vte_terminal_match_add_gregex. rewrite Hhole.
    replace (ret <? length (match_regexes m2))%nat with true; [done|].
    symmetry. apply Nat.ltb_lt. rewrite Hm2, length_insert. lia. }
  rewrite Hr1, Hr3. cbn [fst snd].
  change (match_regexes (set_match_regexes ?l ?x)) with l.
  rewrite Nat2Z.id. split.
  { exists (regex_match_clear new). rewrite Hm2. split; [|done].
    by apply list_lookup_insert_eq. }
  split; [done|]. split; [by rewrite Hm2, !length_insert|]. split.
  { intros j Hj. rewrite Hm2. by rewrite !list_lookup_insert_ne by done. }
  split; reflexivity.
Qed.

Lemma match_add_remove_add_witness :
  let r1 := vte_terminal_match_add_gregex 0 sample_match 13 0 in
  fst r1 = 3
  /\ fst (vte_terminal_match_add_gregex 0
            (vte_terminal_match_remove (snd r1) (fst r1)) 14 0) = 3.
Proof.
  split; [reflexivity|].
  destruct (match_add_remove_add 0 sample_match 13 14 0 0 ltac:(vm_compute; congruence))
    as (_ & H & _).
  exact H.
Defined.

(** X7: when the pointer moves to another cell, [vte_terminal_match_hilite_update]
    stores the answer of the scan (text, tag, whether to show it) together
    with the positions of the two ends of the match, read from the attribute
    array; from then on [vte_terminal_match_check] at any position between
    those two ends, in reading order, returns that text and tag from the
    cache, without a scan. *)
Theorem match_hilite_update_caches {GRegex : Type}
    (get_text : VteTerminal -> string * list VteCharAttributes)
    (scan : VteMatch GRegex -> Z -> Z -> option string * Z * Z * Z)
    (char_width char_height x y : Z) (t : VteTerminal) (m m1 : VteMatch GRegex)
    (s : option string) (tag start end_ : Z) (ev : list match_event)
    (attrs : list VteCharAttributes) (sa ea : VteCharAttributes) :
  char_width <> 0 ->
  char_height <> 0 ->
  vte_terminal_match_check_internal get_text scan t m
    (Z.quot x char_width) (Z.quot y char_height + scroll_delta (screen t))
  = ((s, tag, start, end_), m1, ev) ->
  match_attributes m1 = Some attrs ->
  Z.of_nat (length attrs) < 2 ^ 32 ->
  0 <= start -> attrs !! Z.to_nat start = Some sa ->
  0 <= end_ -> attrs !! Z.to_nat end_ = Some ea ->
  exists m2,
    vte_terminal_match_hilite_update get_text scan char_width char_height t m x y
    = Some (m2, ev)
    /\ match_start m2 = mkPos (ca_row sa) (ca_column sa)
    /\ match_end m2 = mkPos (ca_row ea) (ca_column ea)
    /\ match_ m2 = s
    /\ match_tag m2 = tag
    /\ show_match m2 = bool_decide (s <> None)
    /\ match_regexes m2 = match_regexes m1
    /\ forall column row,
         position_le (match_start m2) (mkPos (row + scroll_delta (screen t)) column) ->
         position_le (mkPos (row + scroll_delta (screen t)) column) (match_end m2) ->
         vte_terminal_match_check get_text scan t m2 column row = (s, tag, m2, []).
Proof.
  intros Hw Hh Hscan Hattrs Hlen Hs Hsa He Hea.
  apply lookup_lt_Some in Hsa as Hs'. apply lookup_lt_Some in Hea as He'.
  eexists. split.
  { unfold vte_terminal_match_hilite_update, c_div.
    rewrite (proj2 (Z.eqb_neq char_width 0)) by done.
    rewrite (proj2 (Z.eqb_neq char_height 0)) by done.
    rewrite Hscan, Hattrs. rewrite !to_guint_small by lia.
    replace (start <? Z.of_nat (length attrs)) with true by lia.
    replace (end_ <? Z.of_nat (length attrs)) with true by lia.
    rewrite Hsa, Hea. reflexivity. }
  cbn [match_start match_end match_ match_tag show_match match_regexes].
  repeat (split; [reflexivity|]).
  intros column row Hstart Hend. unfold vte_terminal_match_check.
  match goal with |- context [rowcol_inside_match ?m2 ?r ?c] =>
    assert (Hin : rowcol_inside_match m2 r c = true)
      by (by apply rowcol_inside_match_iff) end.
  by rewrite Hin.
Qed.

Lemma match_hilite_update_caches_witness :
  let get_text := fun _ : VteTerminal =>
    ("ab"%string, [mkCharAttributes 0 0; mkCharAttributes 0 1]) in
  let scan := fun (_ : VteMatch Z) (_ _ : Z) => (Some "ab"%string, 0, 0, 1) in
  let t := sample_terminal (sample_screen (mkRing 0 [] 100) (mkPos 0 0)) in
  exists m2,
    vte_terminal_match_hilite_update get_text scan 10 20 t sample_match 5 5
    = Some (m2, [ContentsRefreshed; RegexesScanned])
    /\ vte_terminal_match_check get_text scan t m2 1 0 = (Some "ab"%string, 0, m2, []).
Proof.
  intros get_text scan t.
  destruct (match_hilite_update_caches get_text scan 10 20 5 5 t sample_match
              (vte_terminal_match_contents_refresh get_text t sample_match)
              (Some "ab"%string) 0 0 1 [ContentsRefreshed; RegexesScanned]
              [mkCharAttributes 0 0; mkCharAttributes 0 1]
              (mkCharAttributes 0 0) (mkCharAttributes 0 1)
              ltac:(lia) ltac:(lia) eq_refl eq_refl ltac:(vm_compute; congruence)
              ltac:(lia) eq_refl ltac:(lia) eq_refl)
    as (m2 & Hupd & Hs & He & _ & _ & _ & _ & Hcheck).
  exists m2. split; [exact Hupd|]. apply Hcheck.
  - rewrite Hs. right. simpl. lia.
  - rewrite He. right. simpl. lia.
Defined.

(** ** The ends of a character *)

Lemma back_over_fragments_head (l : list VteCell) (s n : nat) (head : VteCell) :
  (s <= n)%nat ->
  l !! s = Some head ->
  cell_fragment head = false ->
  (forall k : nat, (s < k <= n)%nat ->
     exists cell, l !! k = Some cell /\ cell_fragment cell = true) ->
  back_over_fragments l n = s.
Proof.
  intros Hsn Hhead Hfrag Hrun. induction n as [|n IH].
  - by replace s with 0%nat by lia.
  - destruct (decide (s = S n)) as [->|Hne].
    + simpl. by rewrite Hhead, Hfrag.
    + simpl. destruct (Hrun (S n)) as (cell & -> & ->); [lia|].
      apply IH; [lia|]. intros k Hk. apply Hrun. lia.
Qed.

(** X8: for a column [col] that is covered by a character which begins in
    column [s] and is [w] columns wide (the cell of [s] is no fragment and
    carries the width, the cells from there to [col] are its fragments),
    [find_start_column] returns [s] and [find_end_column] returns the last
    column [s + w - 1] of the character, cut at the width of the terminal.
    In any row [find_start_column] of a column that is not negative lies
    between 0 and the column, and a negative column is returned as it is by
    both. *)
Theorem find_columns_of_character (t : VteTerminal) (col row s w : Z)
    (row_data : VteRowData) (head : VteCell) :
  _vte_screen_find_row_data (screen t) row = Some row_data ->
  0 <= s <= col ->
  cells row_data !! Z.to_nat s = Some head ->
  cell_fragment head = false ->
  cell_columns head = w ->
  (forall k : nat, s < Z.of_nat k <= col ->
     exists cell, cells row_data !! k = Some cell /\ cell_fragment cell = true) ->
  find_start_column t col row = s
  /\ find_end_column t col row = Z.min (s + w - 1) (column_count t)
  /\ (forall col' row', 0 <= col' -> 0 <= find_start_column t col' row' <= col')
  /\ (forall col' row', col' < 0 ->
        find_start_column t col' row' = col' /\ find_end_column t col' row' = col').
Proof.
  intros Hrow Hs Hhead Hfrag Hw Hrun.
  assert (Hback : back_over_fragments (cells row_data) (Z.to_nat col) = Z.to_nat s).
  { apply (back_over_fragments_head _ _ _ head); [lia|done|done|].
    intros k Hk. apply Hrun. lia. }
  split; [|split; [|split]].
  - unfold find_start_column. replace (col <? 0) with false by lia.
    rewrite Hrow, Hback. lia.
  - unfold find_end_column. replace (col <? 0) with false by lia.
    rewrite Hrow, Hback. unfold _vte_row_data_get.
    destruct (Z.of_nat (Z.to_nat s) <? 0) eqn:E; [apply Z.ltb_lt in E; lia|].
    rewrite Nat2Z.id, Hhead. cbv beta iota. rewrite Hw. f_equal. lia.
  - intros col' row' Hc. unfold find_start_column.
    replace (col' <? 0) with false by lia.
    destruct (_vte_screen_find_row_data (screen t) row') as [rd|]; [|lia].
    pose proof (back_over_fragments_le (cells rd) (Z.to_nat col')). lia.
  - intros col' row' Hc. unfold find_start_column, find_end_column.
    by replace (col' <? 0) with true by lia.
Qed.

Lemma find_columns_of_character_witness :
  find_start_column (wide_terminal 0) 1 0 = 0
  /\ find_end_column (wide_terminal 0) 1 0 = 1.
Proof.
  destruct (find_columns_of_character (wide_terminal 0) 1 0 0 2
              (mkRow [wide_cell 20000 false; wide_cell 20000 true] false)
              (wide_cell 20000 false) eq_refl ltac:(lia) eq_refl eq_refl eq_refl)
    as (Hs & He & _).
  - intros k Hk. assert (k = 1%nat) as -> by lia.
    exists (wide_cell 20000 true). split; reflexivity.
  - split; [exact Hs|exact He].
Defined.

(** ** Tab stops *)

Lemma tabstop_key_inj (c c' : Z) : tabstop_key c = tabstop_key c' -> c = c'.
Proof. unfold tabstop_key. lia. Qed.

(** X9: a tab stop that was set is found and one that was cleared is not;
    setting or clearing the tab stop of one column leaves the answer for
    every other column as it was; without a table ([tabstops] is NULL) no
    column has a tab stop and setting one does nothing. *)
Theorem tabstop_set_get_clear (tabstops : option (gset Z)) (c c' : Z) :
  (is_Some tabstops ->
   _vte_terminal_get_tabstop (_vte_terminal_set_tabstop tabstops c) c = true)
  /\ _vte_terminal_get_tabstop (_vte_terminal_clear_tabstop tabstops c) c = false
  /\ (c <> c' ->
      _vte_terminal_get_tabstop (_vte_terminal_set_tabstop tabstops c) c'
      = _vte_terminal_get_tabstop tabstops c'
      /\ _vte_terminal_get_tabstop (_vte_terminal_clear_tabstop tabstops c) c'
         = _vte_terminal_get_tabstop tabstops c')
  /\ _vte_terminal_set_tabstop None c = None
  /\ _vte_terminal_get_tabstop (_vte_terminal_set_tabstop None c) c = false.
Proof.
  split; [|split; [|split]].
  - intros [h ->]. simpl. apply bool_decide_eq_true. set_solver.
  - destruct tabstops as [h|]; simpl; [|done]. apply bool_decide_eq_false. set_solver.
  - intros Hne.
    assert (Hk : tabstop_key c' <> tabstop_key c).
    { intros Heq. apply Hne. symmetry. by apply tabstop_key_inj. }
    destruct tabstops as [h|]; simpl; [|done].
    split; apply bool_decide_ext; set_solver.
  - done.
Qed.

Lemma tabstop_set_get_clear_witness :
  _vte_terminal_get_tabstop (_vte_terminal_set_tabstop (Some ∅) 8) 8 = true.
Proof.
  apply (proj1 (tabstop_set_get_clear (Some ∅) 8 0)). by eexists.
Defined.

Section DefaultTabstopFacts.

Variable VTE_TAB_MAX : Z.

Lemma set_tabstops_from_spec (fuel : nat) (j width : Z) (h : gset Z) :
  0 < width ->
  0 <= j ->
  VTE_TAB_MAX < j * width + Z.of_nat fuel * width ->
  exists h',
    set_tabstops_from VTE_TAB_MAX fuel (j * width) width (Some h) = Some h'
    /\ forall c, tabstop_key c ∈ h'
                 <-> tabstop_key c ∈ h
                     \/ exists k, j <= k /\ c = k * width /\ c <= VTE_TAB_MAX.
Proof.
  intros Hw. revert j h. induction fuel as [|fuel IH]; intros j h Hj Hfuel.
  - exists h. split; [done|]. intros c. split; [by left|].
    intros [H|(k & Hk & -> & Hmax)]; [done|nia].
  - simpl. destruct (j * width <=? VTE_TAB_MAX) eqn:E.
    + replace (j * width + width) with ((j + 1) * width) by lia.
      destruct (IH (j + 1) ({[tabstop_key (j * width)]} ∪ h)) as (h' & -> & Hh');
        [lia|lia|].
      exists h'. split; [done|]. intros c. rewrite Hh'. split.
      * intros [[Hc%elem_of_singleton|Hc]%elem_of_union|(k & Hk & -> & Hmax)].
        -- apply tabstop_key_inj in Hc as ->. right. exists j. lia.
        -- by left.
        -- right. exists k. lia.
      * intros [Hc|(k & Hk & -> & Hmax)]; [left; set_solver|].
        destruct (decide (k = j)) as [->|Hne]; [left; set_solver|].
        right. exists k. lia.
    + exists h. split; [done|]. intros c. split; [by left|].
      intros [H|(k & Hk & -> & Hmax)]; [done|nia].
Qed.

End DefaultTabstopFacts.

(** X10: with a tab width that is positive (the capability "it" of the
    termcap, or [VTE_TAB_WIDTH] when that is 0)
    [vte_terminal_set_default_tabstops] builds a fresh table in which a column
    has a tab stop exactly when it is a multiple of the width between 0 and
    [VTE_TAB_MAX]. *)
Theorem default_tabstops_columns (VTE_TAB_WIDTH VTE_TAB_MAX it : Z) (c : Z) :
  let width := if it =? 0 then VTE_TAB_WIDTH else it in
  0 < width ->
  exists tabstops,
    vte_terminal_set_default_tabstops VTE_TAB_WIDTH VTE_TAB_MAX it = Some (Some tabstops)
    /\ (_vte_terminal_get_tabstop (Some tabstops) c = true
        <-> 0 <= c <= VTE_TAB_MAX /\ c mod width = 0).
Proof.
  intros width Hw. unfold vte_terminal_set_default_tabstops. fold width.
  replace (width <=? 0) with false by lia.
  destruct (set_tabstops_from_spec VTE_TAB_MAX (Z.to_nat (VTE_TAB_MAX + 1)) 0 width ∅
              Hw ltac:(lia) ltac:(nia)) as (h & Hh & Hspec).
  rewrite Z.mul_0_l in Hh. rewrite Hh.
  exists h. split; [done|]. simpl. rewrite bool_decide_eq_true, Hspec. split.
  - intros [Hc|(k & Hk & -> & Hmax)]; [set_solver|].
    split; [nia|]. apply Z.mod_mul. lia.
  - intros [Hc Hmod]. right. exists (c / width). split; [apply Z.div_pos; lia|].
    split; [|lia]. apply Z.mod_divide in Hmod as [q ->]; [|lia].
    by rewrite Z.div_mul by lia.
Qed.

Lemma default_tabstops_columns_witness :
  exists tabstops,
    vte_terminal_set_default_tabstops 8 999 0 = Some (Some tabstops)
    /\ (_vte_terminal_get_tabstop (Some tabstops) 16 = true
        <-> 0 <= 16 <= 999 /\ 16 mod 8 = 0).
Proof. apply (default_tabstops_columns 8 999 0 16). reflexivity. Defined.

(** ** The selection *)

(** X11: [vte_cell_is_between] answers TRUE exactly for the cells that, in
    reading order, are not before the first point and not behind the second
    one, the second point itself only when [inclusive] is set; when the second
    point lies before the first one no cell is between them. *)
Theorem cell_is_between_reading_order (col row acol arow bcol brow : Z)
    (inclusive : bool) :
  vte_cell_is_between col row acol arow bcol brow inclusive = true
  <-> position_le (mkPos arow acol) (mkPos row col)
      /\ position_le (mkPos row col) (mkPos brow bcol)
      /\ (inclusive = true \/ ~ (row = brow /\ col = bcol)).
Proof.
  unfold vte_cell_is_between, position_le. cbn [pos_row pos_col].
  destruct (Z.lt_total arow brow) as [Hab|[Hab|Hab]];
    destruct (Z.lt_total row arow) as [Hra|[Hra|Hra]];
    destruct (Z.lt_total row brow) as [Hrb|[Hrb|Hrb]]; try lia;
    destruct (Z.lt_total acol bcol) as [Hcab|[Hcab|Hcab]];
    destruct (Z.lt_total col acol) as [Hca|[Hca|Hca]];
    destruct (Z.lt_total col bcol) as [Hcb|[Hcb|Hcb]]; try lia;
    repeat match goal with
      | |- context [?a >? ?b] => rewrite (Z.gtb_ltb a b)
      | |- context [?a >=? ?b] => rewrite (Z.geb_leb a b)
      end;
    repeat match goal with
      | |- context [?a <? ?b] =>
          first [replace (a <? b) with true by lia | replace (a <? b) with false by lia]
      | |- context [?a <=? ?b] =>
          first [replace (a <=? b) with true by lia | replace (a <=? b) with false by lia]
      | |- context [?a =? ?b] =>
          first [replace (a =? b) with true by lia | replace (a =? b) with false by lia]
      end;
    cbn; destruct inclusive; intuition (try done; try lia).
Qed.

(** X12: after [vte_terminal_select_all] on a ring whose rows are not
    negative, a cell of a column that is not negative is selected exactly when
    its row is a row of the ring (scrollback included) and the selection is
    not in block mode; in block mode, which [vte_terminal_select_all] leaves
    as it is, no cell is selected. *)
Theorem select_all_selects_ring (t : VteTerminal) (sel : VteSelection) (col row : Z) :
  0 <= _vte_ring_delta (ring t) ->
  0 <= col ->
  vte_cell_is_selected (vte_terminal_select_all t sel) col row
  = negb (selection_block_mode sel) && _vte_ring_contains (ring t) row.
Proof.
  intros Hd Hc.
  assert (Hbm : selection_block_mode (vte_terminal_deselect_all sel)
                = selection_block_mode sel).
  { unfold vte_terminal_deselect_all. by destruct (has_selection sel). }
  unfold vte_cell_is_selected, vte_terminal_select_all.
  cbn [has_selection selection_start selection_end selection_block_mode
       pos_row pos_col negb].
  rewrite Hbm.
  assert (Hlen : 0 <= _vte_ring_length (ring t)) by (unfold _vte_ring_length; lia).
  unfold _vte_ring_contains, _vte_ring_next, _vte_ring_delta in *.
  replace (ring_delta (ring t) <? 0) with false by lia.
  replace (ring_delta (ring t) + _vte_ring_length (ring t) <? 0) with false by lia.
  cbn [orb]. destruct (selection_block_mode sel); cbn [andb negb].
  - replace (col >? -1) with true by lia. by rewrite orb_true_r.
  - apply eq_true_iff_eq. rewrite cell_is_between_reading_order.
    unfold position_le. cbn [pos_row pos_col].
    rewrite andb_true_iff, Z.leb_le, Z.ltb_lt. intuition lia.
Qed.

Lemma select_all_selects_ring_witness :
  vte_cell_is_selected
    (vte_terminal_select_all (wide_terminal 0)
       (mkSelection false false selection_type_char (mkPos 0 0) (mkPos 0 0) false false))
    1 0
  = true.
Proof.
  apply (select_all_selects_ring (wide_terminal 0)
           (mkSelection false false selection_type_char (mkPos 0 0) (mkPos 0 0)
                        false false) 1 0);
    vm_compute; congruence.
Defined.

(** ** Pixels and cells *)

Lemma c_div_pos (a b : Z) : 0 < b -> c_div a b = Some (Z.quot a b).
Proof. intros Hb. unfold c_div. by replace (b =? 0) with false by lia. Qed.

Lemma quot_cell (a b c : Z) :
  0 < b -> 0 <= c ->
  Z.quot a b = c <-> (c * b <= a < (c + 1) * b \/ (c = 0 /\ - b < a < 0)).
Proof.
  intros Hb Hc. destruct (Z_lt_le_dec a 0) as [Ha|Ha].
  - rewrite <- (Z.opp_involutive a) at 1. rewrite Z.quot_opp_l by lia.
    rewrite Z.quot_div_nonneg by lia.
    pose proof (Z.div_pos (- a) b ltac:(lia) Hb).
    split.
    + intros Hq. right. assert (- a / b = 0) as Hz by lia.
      apply Z.div_small_iff in Hz; lia.
    + intros [H1|[-> H1]]; [nia|]. rewrite Z.div_small; lia.
  - rewrite Z.quot_div_nonneg by lia. split.
    + intros <-. left. pose proof (Z.mul_div_le a b Hb).
      pose proof (Z.mul_succ_div_gt a b Hb). lia.
    + intros [H1|[-> H1]]; [|lia]. symmetry. apply (Z.div_unique a b c (a - c * b)); lia.
Qed.

(** X13: with positive cell metrics [_vte_terminal_xy_to_grid] returns TRUE
    with the cell [(c, r)] exactly when the cell is one of the grid and the
    pixel, taken from the inner corner of the padding, lies in the rectangle
    of the cell, or, for column 0 and row 0, up to one cell less a pixel
    before it: the division cuts towards zero, so a strip of the left and of
    the top padding counts as column 0 and row 0.  A zero metric traps. *)
Theorem xy_to_grid_cell (g : VteMetrics) (t : VteTerminal) (x y c r : Z) :
  0 < char_width g ->
  0 < char_height g ->
  (_vte_terminal_xy_to_grid g t x y = Some (Some (c, r))
   <-> (0 <= c < column_count t /\ 0 <= r < row_count t)
       /\ (c * char_width g <= x - padding_left g < (c + 1) * char_width g
           \/ (c = 0 /\ - char_width g < x - padding_left g < 0))
       /\ (r * char_height g <= y - padding_top g < (r + 1) * char_height g
           \/ (r = 0 /\ - char_height g < y - padding_top g < 0)))
  /\ _vte_terminal_xy_to_grid (mkMetrics 0 (char_height g) (padding_left g)
                                 (padding_right g) (padding_top g) (padding_bottom g))
       t x y = None.
Proof.
  intros Hw Hh. split; [|done].
  unfold _vte_terminal_xy_to_grid. rewrite !c_div_pos by done.
  set (qc := Z.quot (x - padding_left g) (char_width g)).
  set (qr := Z.quot (y - padding_top g) (char_height g)).
  split.
  - destruct (_ || _) eqn:E; [done|]. intros [= <- <-].
    apply orb_false_iff in E as [[E1 E2]%orb_false_iff [E3 E4]%orb_false_iff].
    assert (0 <= qc < column_count t /\ 0 <= qr < row_count t) as Hin by lia.
    split; [done|]. split; apply quot_cell; try done; lia.
  - intros (Hin & Hc & Hr).
    apply quot_cell in Hc; [|done|lia]. apply quot_cell in Hr; [|done|lia].
    fold qc in Hc. fold qr in Hr. rewrite Hc, Hr.
    replace (c <? 0) with false by lia. replace (c >=? column_count t) with false by lia.
    replace (r <? 0) with false by lia. by replace (r >=? row_count t) with false by lia.
Qed.

Lemma xy_to_grid_cell_witness :
  _vte_terminal_xy_to_grid (mkMetrics 8 16 1 1 1 1) (wide_terminal 0) 0 17
  = Some (Some (0, 1)).
Proof.
  apply (proj1 (xy_to_grid_cell (mkMetrics 8 16 1 1 1 1) (wide_terminal 0) 0 17 0 1
                  ltac:(reflexivity) ltac:(reflexivity)));
    vm_compute; intuition congruence.
Defined.

(** X14: with positive cell metrics, a widget that is the padding plus
    [n_cols] by [n_rows] whole cells plus less than one cell more in each
    direction gives back the grid size [n_cols] by [n_rows], and
    [_vte_terminal_size_to_grid_size] returns FALSE exactly when, without the
    padding, the width is below one column or the height below one row. *)
Theorem size_to_grid_size_round_trip (g : VteMetrics) (n_cols n_rows dx dy w h : Z) :
  0 < char_width g ->
  0 < char_height g ->
  (0 < n_cols -> 0 < n_rows -> 0 <= dx < char_width g -> 0 <= dy < char_height g ->
   _vte_terminal_size_to_grid_size g
     (padding_left g + padding_right g + n_cols * char_width g + dx)
     (padding_top g + padding_bottom g + n_rows * char_height g + dy)
   = Some (Some (n_cols, n_rows)))
  /\ (_vte_terminal_size_to_grid_size g w h = Some None
      <-> w - padding_left g - padding_right g < char_width g
          \/ h - padding_top g - padding_bottom g < char_height g).
Proof.
  intros Hw Hh. unfold _vte_terminal_size_to_grid_size. rewrite !c_div_pos by done.
  split.
  - intros Hc Hr Hdx Hdy.
    assert (Z.quot (padding_left g + padding_right g + n_cols * char_width g + dx
                    - padding_left g - padding_right g) (char_width g) = n_cols) as ->.
    { apply quot_cell; [done|lia|]. left. lia. }
    assert (Z.quot (padding_top g + padding_bottom g + n_rows * char_height g + dy
                    - padding_top g - padding_bottom g) (char_height g) = n_rows) as ->.
    { apply quot_cell; [done|lia|]. left. lia. }
    replace (n_cols <=? 0) with false by lia. by replace (n_rows <=? 0) with false by lia.
  - set (a := w - padding_left g - padding_right g).
    set (b := h - padding_top g - padding_bottom g).
    assert (Hq : forall u v, 0 < v -> Z.quot u v <= 0 <-> u < v).
    { intros u v Hv. destruct (Z_lt_le_dec u 0) as [Hu|Hu].
      - pose proof (Z.quot_opp_l (- u) v ltac:(lia)) as Ho.
        rewrite Z.opp_involutive in Ho.
        pose proof (Z.quot_pos (- u) v ltac:(lia) Hv). lia.
      - rewrite Z.quot_div_nonneg by lia. split.
        + intros Hle. destruct (Z_lt_le_dec u v) as [|Hge]; [done|].
          pose proof (Z.div_le_mono v u v Hv Hge) as Hm.
          rewrite Z.div_same in Hm by lia. lia.
        + intros Hlt. rewrite Z.div_small; lia. }
    destruct (_ || _) eqn:E.
    + split; [intros _|done].
      apply orb_true_iff in E as [E%Z.leb_le|E%Z.leb_le]; [left|right]; by apply Hq.
    + split; [done|]. apply orb_false_iff in E as [E1%Z.leb_gt E2%Z.leb_gt].
      intros [H|H]; apply Hq in H; [lia|done|lia|done].
Qed.

Lemma size_to_grid_size_round_trip_witness :
  _vte_terminal_size_to_grid_size (mkMetrics 8 16 1 1 1 1) (2 + 80 * 8 + 3) (2 + 24 * 16 + 5)
  = Some (Some (80, 24)).
Proof.
  apply (proj1 (size_to_grid_size_round_trip (mkMetrics 8 16 1 1 1 1) 80 24 3 5 0 0
                  ltac:(reflexivity) ltac:(reflexivity)));
    cbn; lia.
Defined.

(** X15: for a positive divisor [math_div] rounds the quotient down, towards
    minus infinity, except that a negative multiple of the divisor gives one
    less than the exact quotient; in one formula, a negative [a] gives the
    rounded down quotient of [a - 1].  A zero divisor traps. *)
Theorem math_div_rounds_down (a b : Z) :
  0 < b ->
  math_div a b
  = Some (if (a <? 0) && (a mod b =? 0) then a / b - 1 else a / b)
  /\ (a < 0 -> math_div a b = Some ((a - 1) / b))
  /\ math_div a 0 = None.
Proof.
  intros Hb. unfold math_div. rewrite c_div_pos by done.
  assert (Hneg : a < 0 -> Z.quot a b - 1 = (a - 1) / b).
  { intros Ha. rewrite <- (Z.opp_involutive a) at 1. rewrite Z.quot_opp_l by lia.
    rewrite Z.quot_div_nonneg by lia.
    apply (Z.div_unique (a - 1) b _ (b - 1 - (- a) mod b)).
    - pose proof (Z.mod_pos_bound (- a) b Hb). lia.
    - pose proof (Z.div_mod (- a) b ltac:(lia)). lia. }
  split; [|split].
  - destruct (a >=? 0) eqn:E.
    + replace (a <? 0) with false by lia. cbn. by rewrite Z.quot_div_nonneg by lia.
    + replace (a <? 0) with true by lia. cbn [andb]. f_equal. rewrite Hneg by lia.
      destruct (a mod b =? 0) eqn:Em.
      * apply Z.eqb_eq in Em. apply Z.mod_divide in Em as [q ->]; [|lia].
        rewrite Z.div_mul by lia.
        symmetry. apply (Z.div_unique_pos (q * b - 1) b (q - 1) (b - 1)); lia.
      * apply Z.eqb_neq in Em.
        pose proof (Z.mod_pos_bound a b Hb). pose proof (Z.div_mod a b ltac:(lia)).
        symmetry. apply (Z.div_unique_pos (a - 1) b (a / b) (a mod b - 1)); lia.
  - intros Ha. replace (a >=? 0) with false by lia. by rewrite Hneg.
  - unfold c_div. cbn. by destruct (a >=? 0).
Qed.

Lemma math_div_rounds_down_witness :
  math_div (-16) 8 = Some (-3) /\ math_div (-15) 8 = Some (-2).
Proof.
  split.
  - apply (proj1 (math_div_rounds_down (-16) 8 ltac:(reflexivity))).
  - apply (proj1 (math_div_rounds_down (-15) 8 ltac:(reflexivity))).
Defined.

(** ** Selecting text from outside *)

(** X16: after [_vte_terminal_select_text] with rows that are not negative a
    cell is selected exactly when it lies, in reading order, between the two
    given ends, both included, and, if the selection was in block mode
    before (the call does not change the mode), also between their columns;
    after [_vte_terminal_select_empty_at] there is a selection and no cell is
    in it. *)
Theorem select_text_selects_between (sel : VteSelection)
    (start_col start_row end_col end_row col row : Z) :
  0 <= start_row ->
  0 <= end_row ->
  (vte_cell_is_selected
     (_vte_terminal_select_text sel start_col start_row end_col end_row) col row = true
   <-> position_le (mkPos start_row start_col) (mkPos row col)
       /\ position_le (mkPos row col) (mkPos end_row end_col)
       /\ (selection_block_mode sel = true -> start_col <= col <= end_col))
  /\ has_selection (_vte_terminal_select_empty_at sel col row) = true
  /\ (forall col' row',
        vte_cell_is_selected (_vte_terminal_select_empty_at sel col row) col' row'
        = false).
Proof.
  intros Hs He.
  assert (Hbm : selection_block_mode (vte_terminal_deselect_all sel)
                = selection_block_mode sel).
  { unfold vte_terminal_deselect_all. by destruct (has_selection sel). }
  assert (Hsel : forall sc sr ec er c r,
             vte_cell_is_selected (_vte_terminal_select_text sel sc sr ec er) c r
             = if (sr <? 0) || (er <? 0) then false
               else if selection_block_mode sel && ((c <? sc) || (c >? ec)) then false
               else vte_cell_is_between c r sc sr ec er true).
  { intros. unfold vte_cell_is_selected, _vte_terminal_select_text, vte_terminal_copy.
    cbn [has_selection selection_start selection_end selection_block_mode
         pos_row pos_col negb]. by rewrite Hbm. }
  split; [|split].
  - rewrite Hsel. replace (start_row <? 0) with false by lia.
    replace (end_row <? 0) with false by lia. cbn [orb].
    destruct (selection_block_mode sel); cbn [andb].
    + destruct ((col <? start_col) || (col >? end_col)) eqn:E.
      * split; [done|]. intros (_ & _ & Hb). specialize (Hb eq_refl).
        apply orb_true_iff in E as [E|E]; lia.
      * rewrite cell_is_between_reading_order.
        apply orb_false_iff in E as [E1 E2]. intuition lia.
    + rewrite cell_is_between_reading_order. intuition congruence.
  - done.
  - intros col' row'. unfold _vte_terminal_select_empty_at. rewrite Hsel.
    destruct ((row <? 0) || (row <? 0)); [done|].
    destruct (selection_block_mode sel && _); [done|].
    apply not_true_is_false. rewrite cell_is_between_reading_order.
    unfold position_le. cbn [pos_row pos_col]. lia.
Qed.

Lemma select_text_selects_between_witness :
  vte_cell_is_selected
    (_vte_terminal_select_text
       (mkSelection false false selection_type_word (mkPos 0 0) (mkPos 0 0) false false)
       3 1 2 4) 0 2
  = true.
Proof.
  apply (proj1 (select_text_selects_between
                  (mkSelection false false selection_type_word (mkPos 0 0) (mkPos 0 0)
                               false false) 3 1 2 4 0 2
                  ltac:(lia) ltac:(lia))).
  unfold position_le. cbn. repeat split; (lia || congruence).
Defined.

(** ** Showing the match under the pointer *)

Section MatchHiliteFacts.

Context {GRegex : Type}.

Lemma cursor_inside_match_cell (char_width char_height : Z) (t : VteTerminal)
    (m : VteMatch GRegex) (x y : Z) :
  char_width <> 0 -> char_height <> 0 ->
  cursor_inside_match char_width char_height t m x y
  = Some (rowcol_inside_match m (Z.quot y char_height + scroll_delta (screen t))
                              (Z.quot x char_width)).
Proof.
  intros Hw Hh. unfold cursor_inside_match, c_div, rowcol_inside_match.
  replace (char_width =? 0) with false by lia.
  by replace (char_height =? 0) with false by lia.
Qed.

Lemma hilite_update_shown_ok
    (get_text : VteTerminal -> string * list VteCharAttributes)
    (scan : VteMatch GRegex -> Z -> Z -> option string * Z * Z * Z)
    (char_width char_height : Z) (t : VteTerminal) (m m' : VteMatch GRegex)
    (x y : Z) (ev : list match_event) :
  vte_terminal_match_hilite_update get_text scan char_width char_height t m x y
  = Some (m', ev) ->
  match_shown_ok m'.
Proof.
  unfold vte_terminal_match_hilite_update.
  destruct (c_div x char_width) as [col|]; [|done].
  destruct (c_div y char_height) as [line|]; [|done].
  destruct (vte_terminal_match_check_internal _ _ _ _ _ _)
    as [[[[[s tag] start] end_] m1] ev1].
  destruct (match_attributes m1) as [attrs|]; [|done].
  match goal with |- context [match ?f with Some _ => _ | None => _ end = _] =>
    destruct f as [[s0 e0]|] end.
  - intros [= <- _]. unfold match_shown_ok. cbn. by intros ?%bool_decide_eq_true.
  - destruct s; [done|]. by intros [= <- _].
Qed.

End MatchHiliteFacts.

(** X17: a match is only ever shown when there is one: the state in which
    [show_match] implies a match text is kept by
    [vte_terminal_match_hilite_show], [vte_terminal_match_hilite_hide] and
    [vte_terminal_match_hilite], and it is what
    [vte_terminal_match_hilite_clear] and [vte_terminal_match_hilite_update]
    leave behind from any state; after hiding nothing is shown. *)
Theorem match_shown_only_with_match {GRegex : Type}
    (get_text : VteTerminal -> string * list VteCharAttributes)
    (scan : VteMatch GRegex -> Z -> Z -> option string * Z * Z * Z)
    (char_width char_height allocation_width allocation_height : Z)
    (mouse_last_x mouse_last_y : Z)
    (t : VteTerminal) (m : VteMatch GRegex) (x y : Z) :
  match_shown_ok (vte_terminal_match_hilite_clear m)
  /\ (forall m' ev,
        vte_terminal_match_hilite_update get_text scan char_width char_height t m x y
        = Some (m', ev) -> match_shown_ok m')
  /\ (forall m' ev,
        vte_terminal_match_hilite get_text scan char_width char_height
          allocation_width allocation_height mouse_last_x mouse_last_y t m x y
        = Some (m', ev) ->
        match_shown_ok m -> match_shown_ok m')
  /\ (forall m',
        vte_terminal_match_hilite_show char_width char_height t m x y = Some m' ->
        match_shown_ok m -> match_shown_ok m')
  /\ (match_shown_ok m ->
      match_shown_ok (vte_terminal_match_hilite_hide m)
      /\ show_match (vte_terminal_match_hilite_hide m) = false).
Proof.
  assert (Hset : match_shown_ok (set_show_match (bool_decide (match_ m <> None)) m)).
  { unfold match_shown_ok. cbn. by intros ?%bool_decide_eq_true. }
  split; [done|]. split; [intros m' ev; apply hilite_update_shown_ok|].
  split; [|split].
  - intros m' ev. unfold vte_terminal_match_hilite.
    destruct (_ || _); [by intros [= <- _]|].
    destruct (c_div x char_width) as [cx|]; [|done].
    destruct (c_div mouse_last_x char_width) as [lx|]; [|done].
    match goal with |- context [match ?f with Some _ => _ | None => _ end = _] =>
      destruct f as [[|]|] end; [by intros [= <- _]| |done].
    destruct (cursor_inside_match _ _ _ _ _ _) as [[|]|]; [by intros [= <- _]| |done].
    intros H _. by eapply hilite_update_shown_ok.
  - intros m'. unfold vte_terminal_match_hilite_show.
    destruct (bool_decide (match_ m <> None)) eqn:Em; cbn [andb].
    + destruct (negb (show_match m)); [|by intros [= <-]].
      destruct (cursor_inside_match _ _ _ _ _ _) as [[|]|]; [|by intros [= <-]|done].
      intros [= <-] _ _. cbn. by apply bool_decide_eq_true in Em.
    + by intros [= <-].
  - intros Hok. unfold vte_terminal_match_hilite_hide, match_shown_ok in *.
    destruct (bool_decide (match_ m <> None)) eqn:Em; cbn [andb].
    + destruct (show_match m) eqn:Es; [done|]. by rewrite Es.
    + apply bool_decide_eq_false in Em. split; [done|].
      destruct (show_match m); [by specialize (Hok eq_refl)|done].
Qed.

(** X18: [cursor_inside_match] at a pixel is [rowcol_inside_match] at the
    cell of that pixel in the buffer.  So when the pointer moves, inside the
    widget, to a pixel whose cell lies in the cached range,
    [vte_terminal_match_hilite] runs no scan and keeps the cached match, only
    setting [show_match] to whether there is a match text, and
    [vte_terminal_match_check] at that cell still answers from the cache. *)
Theorem match_hilite_inside_keeps_cache {GRegex : Type}
    (get_text : VteTerminal -> string * list VteCharAttributes)
    (scan : VteMatch GRegex -> Z -> Z -> option string * Z * Z * Z)
    (char_width char_height allocation_width allocation_height : Z)
    (mouse_last_x mouse_last_y : Z)
    (t : VteTerminal) (m : VteMatch GRegex) (x y : Z) :
  char_width <> 0 ->
  char_height <> 0 ->
  0 <= x <= allocation_width ->
  0 <= y <= allocation_height ->
  let column := Z.quot x char_width in
  let row := Z.quot y char_height in
  cursor_inside_match char_width char_height t m x y
  = Some (rowcol_inside_match m (row + scroll_delta (screen t)) column)
  /\ (rowcol_inside_match m (row + scroll_delta (screen t)) column = true ->
      let m' := set_show_match (bool_decide (match_ m <> None)) m in
      vte_terminal_match_hilite get_text scan char_width char_height
        allocation_width allocation_height mouse_last_x mouse_last_y t m x y
      = Some (m', [])
      /\ vte_terminal_match_check get_text scan t m' column row
         = (match_ m, match_tag m, m', [])).
Proof.
  intros Hw Hh Hx Hy column row.
  pose proof (cursor_inside_match_cell char_width char_height t m x y Hw Hh) as Hin.
  fold column row in Hin. split; [done|]. intros Hcell m'. split.
  - unfold vte_terminal_match_hilite.
    replace (x <? 0) with false by lia. replace (x >? allocation_width) with false by lia.
    replace (y <? 0) with false by lia. replace (y >? allocation_height) with false by lia.
    cbn [orb]. unfold c_div at 1 2 3 4.
    replace (char_width =? 0) with false by lia.
    replace (char_height =? 0) with false by lia.
    rewrite Hin, Hcell. fold column row.
    destruct (column =? _); [|done]. by destruct (row =? _).
  - unfold vte_terminal_match_check.
    change (rowcol_inside_match m' (row + scroll_delta (screen t)) column)
      with (rowcol_inside_match m (row + scroll_delta (screen t)) column).
    by rewrite Hcell.
Qed.

Lemma match_hilite_inside_keeps_cache_witness :
  cursor_inside_match 8 16 (sample_terminal punctuation_screen) cached_match 20 5
  = Some (rowcol_inside_match cached_match
            (Z.quot 5 16 + scroll_delta (screen (sample_terminal punctuation_screen)))
            (Z.quot 20 8)).
Proof.
  apply (proj1 (match_hilite_inside_keeps_cache
                  (fun _ => (EmptyString, [])) (fun _ _ _ => (None, -1, 0, 0))
                  8 16 100 100 0 0 (sample_terminal punctuation_screen) cached_match
                  20 5 ltac:(lia) ltac:(lia) ltac:(lia) ltac:(lia))).
Defined.

(** ** The colours of a cell *)

(** X19: when neither a highlight colour nor a cursor colour is set, the
    selection and the cursor each exchange foreground and background, so a
    selected cell under the cursor gets the colours of a plain one and a cell
    that is only selected gets those of one that is only under the cursor,
    which for a visible cell are the plain colours exchanged; an invisible
    cell always gets its background as foreground. *)
Theorem determine_colors_exchange
    (VTE_BOLD_FG VTE_DIM_FG VTE_DEF_HL VTE_CUR_BG VTE_REV_BG : Z)
    (VTE_LEGACY_COLOR_SET_SIZE VTE_COLOR_BRIGHT_OFFSET : Z)
    (f : VteColorFlags) (cell : option VteCell) :
  let colors := vte_terminal_determine_colors_internal
                  VTE_BOLD_FG VTE_DIM_FG VTE_DEF_HL VTE_CUR_BG VTE_REV_BG
                  VTE_LEGACY_COLOR_SET_SIZE VTE_COLOR_BRIGHT_OFFSET f cell in
  let invisible := attr_invisible
                     (cell_attr (match cell with Some c => c | None => basic_cell end)) in
  highlight_color_set f = false ->
  cursor_color_set f = false ->
  colors true true = colors false false
  /\ colors true false = colors false true
  /\ (invisible = false ->
      forall fore back, colors false false = Some (fore, back) ->
                        colors true false = Some (back, fore))
  /\ (invisible = true ->
      forall selected cursor fore back,
        colors selected cursor = Some (fore, back) -> fore = back).
Proof.
  intros colors invisible Hh Hc. subst colors invisible.
  unfold vte_terminal_determine_colors_internal. rewrite Hh, Hc.
  set (a := cell_attr (match cell with Some c => c | None => basic_cell end)).
  destruct (if xorb (reverse_mode f) (reverse f)
            then (if attr_fore a =? VTE_DEF_FG then VTE_DEF_BG else attr_fore a,
                  if attr_back a =? VTE_DEF_BG then VTE_DEF_FG else attr_back a)
            else (attr_fore a, attr_back a)) as [fore0 back0].
  match goal with |- context [match ?h with Some _ => _ | None => _ end] =>
    destruct h as [fore1|] end; [|repeat split; done].
  set (back1 := if attr_standout a then _ else _).
  destruct (if attr_reverse a then _ else _) as [fore2 back2].
  cbn beta iota.
  destruct (attr_invisible a); repeat split; try done.
  - intros _ [|] [|] fore back; by intros [= <- <-].
  - by intros _ fore back [= <- <-].
Qed.

Lemma determine_colors_exchange_witness :
  vte_terminal_determine_colors_internal 258 259 260 261 262 8 8
    (mkColorFlags false false false false false) None true true
  = Some (VTE_DEF_FG, VTE_DEF_BG).
Proof.
  rewrite (proj1 (determine_colors_exchange 258 259 260 261 262 8 8
                    (mkColorFlags false false false false false) None
                    eq_refl eq_refl)).
  reflexivity.
Defined.

(** ** Incoming chunks *)

Lemma free_chunks_ok_tail (c : _vte_incoming_chunk) (l : list _vte_incoming_chunk) :
  free_chunks_ok (c :: l) -> free_chunks_ok l.
Proof.
  intros H i chunk Hi. rewrite (H (S i) chunk Hi). cbn [length]. f_equal. lia.
Qed.

Lemma free_chunks_ok_head (c : _vte_incoming_chunk) (l : list _vte_incoming_chunk) :
  free_chunks_ok (c :: l) -> chunk_len c = Z.of_nat (length l).
Proof. intros H. rewrite (H 0%nat c eq_refl). cbn [length]. f_equal. lia. Qed.

Lemma free_chunks_ok_cons (c : _vte_incoming_chunk) (l : list _vte_incoming_chunk) :
  chunk_len c = Z.of_nat (length l) -> free_chunks_ok l -> free_chunks_ok (c :: l).
Proof.
  intros Hc Hl [|i] chunk Hi.
  - injection Hi as <-. rewrite Hc. cbn [length]. f_equal. lia.
  - rewrite (Hl i chunk Hi). cbn [length]. f_equal. lia.
Qed.

Lemma release_chunk_ok (c : _vte_incoming_chunk) (l : list _vte_incoming_chunk) :
  Z.of_nat (length l) < 2 ^ 32 ->
  free_chunks_ok l -> free_chunks_ok (release_chunk c l).
Proof.
  intros Hlen Hl. unfold release_chunk. apply free_chunks_ok_cons; [|done].
  destruct l as [|h l']; [done|]. cbn [chunk_len].
  rewrite (free_chunks_ok_head _ _ Hl). cbn [length] in *.
  unfold to_guint. rewrite Z.mod_small; lia.
Qed.

Lemma chunks_release_ok (cs l : list _vte_incoming_chunk) :
  Z.of_nat (length l + length cs) <= 2 ^ 32 ->
  free_chunks_ok l ->
  free_chunks_ok (_vte_incoming_chunks_release cs l)
  /\ length (_vte_incoming_chunks_release cs l) = (length l + length cs)%nat.
Proof.
  revert l. induction cs as [|c cs IH]; intros l Hlen Hl; cbn [_vte_incoming_chunks_release].
  - split; [done|]. cbn. lia.
  - cbn [length] in Hlen.
    destruct (IH (release_chunk c l)) as [Hok Hn].
    + unfold release_chunk. cbn [length]. lia.
    + apply release_chunk_ok; [lia|done].
    + split; [done|]. rewrite Hn. unfold release_chunk. cbn [length]. lia.
Qed.

Lemma prune_loop_ok (len : Z) (l : list _vte_incoming_chunk) :
  0 <= len ->
  free_chunks_ok l ->
  l <> [] ->
  exists freed keep,
    prune_loop len l = Some keep /\ l = freed ++ keep /\ free_chunks_ok keep
    /\ length keep = Nat.min (length l) (Z.to_nat len + 1).
Proof.
  intros Hlen. induction l as [|c l IH]; intros Hok Hne; [done|].
  cbn [prune_loop]. rewrite (free_chunks_ok_head _ _ Hok).
  destruct (Z.gtb_spec (Z.of_nat (length l)) len) as [E|E].
  - destruct l as [|c' l']; [cbn [length] in E; lia|].
    destruct IH as (freed & keep & -> & Heq & Hk & Hn);
      [by eapply free_chunks_ok_tail|done|].
    exists (c :: freed), keep. split; [done|]. split; [by rewrite Heq|].
    split; [done|]. rewrite Hn. cbn [length] in *. lia.
  - exists [], (c :: l). split; [done|]. split; [done|]. split; [done|].
    cbn [length]. lia.
Qed.

(** X20: the free list of chunks keeps count of itself: if every chunk of
    the list holds in [len] the number of chunks behind it, as in the empty
    list, this is still so after [get_chunk], [release_chunk],
    [_vte_incoming_chunks_release] and [prune_chunks]; a chunk from
    [get_chunk] has length 0; [_vte_incoming_chunks_release] moves every
    chunk given to it to the list; and [prune_chunks len] never reads through
    NULL and cuts the list, from its head, down to [len + 1] chunks, or to
    none when [len] is 0. *)
Theorem free_chunks_keep_count (g_new_chunk chunk : _vte_incoming_chunk)
    (free_chunks chunks : list _vte_incoming_chunk) (len : Z) :
  free_chunks_ok free_chunks ->
  Z.of_nat (length free_chunks + length chunks) < 2 ^ 32 ->
  0 <= len ->
  (free_chunks_ok (snd (get_chunk g_new_chunk free_chunks))
   /\ chunk_len (fst (get_chunk g_new_chunk free_chunks)) = 0)
  /\ free_chunks_ok (release_chunk chunk free_chunks)
  /\ (free_chunks_ok (_vte_incoming_chunks_release chunks free_chunks)
      /\ length (_vte_incoming_chunks_release chunks free_chunks)
         = (length free_chunks + length chunks)%nat)
  /\ exists freed keep,
       prune_chunks len free_chunks = Some keep
       /\ free_chunks = freed ++ keep
       /\ free_chunks_ok keep
       /\ length keep = if len =? 0 then 0%nat
                        else Nat.min (length free_chunks) (Z.to_nat len + 1).
Proof.
  intros Hok Hsmall Hlen. split; [|split; [|split]].
  - destruct free_chunks as [|c l]; cbn; [done|]. split; [|done].
    by eapply free_chunks_ok_tail.
  - apply release_chunk_ok; [lia|done].
  - apply chunks_release_ok; [lia|done].
  - unfold prune_chunks. destruct free_chunks as [|c l].
    + exists [], []. repeat split; [done|]. by destruct (len =? 0).
    + destruct (len =? 0) eqn:E0.
      * exists (c :: l), []. split; [done|]. split; [by rewrite app_nil_r|]. done.
      * rewrite (free_chunks_ok_head _ _ Hok).
        destruct (Z.gtb_spec (Z.of_nat (length l)) len) as [E|E].
        -- destruct (prune_loop_ok len (c :: l) Hlen Hok) as (freed & keep & H);
             [done|]. by exists freed, keep.
        -- exists [], (c :: l). split; [done|]. split; [done|]. split; [done|].
           cbn [length]. lia.
Qed.

Lemma free_chunks_keep_count_witness :
  exists freed keep,
    prune_chunks 1 (release_chunk (mkChunk 7 [])
                      (release_chunk (mkChunk 5 [])
                         (release_chunk (mkChunk 3 []) [])))
    = Some keep
    /\ release_chunk (mkChunk 7 [])
         (release_chunk (mkChunk 5 []) (release_chunk (mkChunk 3 []) []))
       = freed ++ keep
    /\ free_chunks_ok keep
    /\ length keep = 2%nat.
Proof.
  apply (free_chunks_keep_count (mkChunk 0 []) (mkChunk 0 [])
           (release_chunk (mkChunk 7 [])
              (release_chunk (mkChunk 5 []) (release_chunk (mkChunk 3 []) [])))
           [] 1).
  - intros [|[|[|i]]] c; cbn; intros [= <-]; reflexivity.
  - cbn. lia.
  - lia.
Defined.

Lemma chunks_reverse_onto_rev (l prev : list _vte_incoming_chunk) :
  chunks_reverse_onto l prev = rev l ++ prev.
Proof.
  revert prev. induction l as [|c l IH]; intros prev; [done|].
  cbn [chunks_reverse_onto rev]. by rewrite IH, <- app_assoc.
Qed.

Lemma chunks_reverse_rev (l : list _vte_incoming_chunk) :
  _vte_incoming_chunks_reverse l = rev l.
Proof. unfold _vte_incoming_chunks_reverse. by rewrite chunks_reverse_onto_rev, app_nil_r. Qed.

Lemma chunks_bytes_rev_cons (c : _vte_incoming_chunk) (l : list _vte_incoming_chunk) :
  chunks_bytes (rev (c :: l)) = chunks_bytes (rev l) ++ chunk_bytes c.
Proof.
  unfold chunks_bytes. cbn [rev]. rewrite map_app, concat_app. cbn. by rewrite app_nil_r.
Qed.

Lemma chunk_append_spec (size : Z) (c : _vte_incoming_chunk) (data : list Byte.byte)
    (len : Z) :
  size < 2 ^ 32 ->
  chunk_ok size c ->
  0 <= len ->
  chunk_len c + len <= size ->
  len <= Z.of_nat (length data) ->
  chunk_ok size (chunk_append c data len)
  /\ chunk_len (chunk_append c data len) = chunk_len c + len
  /\ chunk_bytes (chunk_append c data len) = chunk_bytes c ++ take (Z.to_nat len) data.
Proof.
  intros Hsize [Hc Hd] Hlen Hfit Hdata. unfold chunk_append, chunk_ok, chunk_bytes.
  cbn [chunk_len chunk_data]. unfold to_guint. rewrite Z.mod_small by lia.
  assert (Ht1 : length (take (Z.to_nat (chunk_len c)) (chunk_data c))
                = Z.to_nat (chunk_len c)) by (rewrite length_take; lia).
  assert (Ht2 : length (take (Z.to_nat len) data) = Z.to_nat len)
    by (rewrite length_take; lia).
  split; [|split; [done|]].
  - split; [lia|]. rewrite !length_app, Ht1, Ht2, length_drop. lia.
  - rewrite app_assoc, take_app_le by (rewrite length_app; lia).
    rewrite take_ge; [done|]. rewrite length_app. lia.
Qed.

Section FeedFacts.

Variable g_new_chunk : _vte_incoming_chunk.
Variable size : Z.

Hypothesis Hsize : 0 < size < 2 ^ 32.
Hypothesis Hnew : chunk_sized size g_new_chunk.

Lemma get_chunk_spec (free_chunks : list _vte_incoming_chunk) :
  Forall (chunk_sized size) free_chunks ->
  chunk_ok size (fst (get_chunk g_new_chunk free_chunks))
  /\ chunk_len (fst (get_chunk g_new_chunk free_chunks)) = 0
  /\ Forall (chunk_sized size) (snd (get_chunk g_new_chunk free_chunks)).
Proof.
  intros Hfree. unfold chunk_ok. destruct free_chunks as [|c l]; cbn.
  - split_and!; try done; lia.
  - apply Forall_cons in Hfree as [Hc Hl]. split_and!; try done; lia.
Qed.

Lemma feed_loop_spec (fuel : nat) (free_chunks : list _vte_incoming_chunk)
    (chunk : _vte_incoming_chunk) (incoming : list _vte_incoming_chunk)
    (data : list Byte.byte) (length_ : Z) :
  Forall (chunk_sized size) free_chunks ->
  chunk_ok size chunk ->
  chunk_len chunk < size ->
  Forall (chunk_ok size) incoming ->
  0 < length_ <= Z.of_nat (length data) ->
  (Z.to_nat length_ <= fuel)%nat ->
  exists free' incoming',
    feed_loop g_new_chunk size fuel free_chunks chunk incoming data length_
    = Some (free', incoming')
    /\ chunks_bytes (rev incoming')
       = chunks_bytes (rev (chunk :: incoming)) ++ take (Z.to_nat length_) data
    /\ Forall (chunk_ok size) incoming'
    /\ Forall (chunk_sized size) free'
    /\ _vte_incoming_chunks_length incoming'
       = _vte_incoming_chunks_length (chunk :: incoming) + length_.
Proof.
  revert free_chunks chunk incoming data length_.
  induction fuel as [|fuel IH];
    intros free_chunks chunk incoming data length_ Hfree Hchunk Hroom Hinc Hlen Hfuel;
    [lia|].
  cbn [feed_loop]. unfold to_gsize. rewrite Z.mod_small by (destruct Hchunk; lia).
  set (rem := size - chunk_len chunk).
  set (len := if length_ <? rem then length_ else rem).
  assert (Hl : 0 < len /\ len <= length_ /\ len <= rem
               /\ (len < length_ -> len = rem))
    by (subst len rem; destruct (Z.ltb_spec length_ (size - chunk_len chunk)); lia).
  destruct (chunk_append_spec size chunk data len) as (Hok' & Hlen' & Hbytes');
    [lia|done|lia|subst rem; lia|lia|].
  destruct (Z.eqb_spec (length_ - len) 0) as [E|E].
  - eexists _, _. split; [done|]. replace length_ with len by lia.
    split; [by rewrite !chunks_bytes_rev_cons, Hbytes', app_assoc|].
    split; [by apply Forall_cons|]. split; [done|].
    cbn [_vte_incoming_chunks_length]. rewrite Hlen'. lia.
  - destruct (get_chunk_spec free_chunks Hfree) as (Hc0 & Hc0len & Hfree').
    destruct (get_chunk g_new_chunk free_chunks) as [chunk0 free0]. cbn [fst snd] in *.
    cbn [_vte_terminal_feed_chunks app].
    destruct (IH free0 chunk0 (chunk_append chunk data len :: incoming)
                (drop (Z.to_nat len) data) (length_ - len))
      as (free' & incoming' & -> & Hb & Hi & Hf & Hn);
      [done|done|lia|by apply Forall_cons|rewrite length_drop; lia|lia|].
    exists free', incoming'. split; [done|].
    split; [|split; [done|split; [done|]]].
    + rewrite Hb, !chunks_bytes_rev_cons, Hbytes'.
      assert (chunk_bytes chunk0 = []) as ->
        by (unfold chunk_bytes; by rewrite Hc0len).
      rewrite app_nil_r, <- !app_assoc. do 2 f_equal.
      rewrite <- (take_drop (Z.to_nat len) (take (Z.to_nat length_) data)).
      rewrite take_take, skipn_firstn_comm.
      f_equal; f_equal; lia.
    + rewrite Hn. cbn [_vte_incoming_chunks_length]. rewrite Hlen', Hc0len. lia.
Qed.

End FeedFacts.

(** X21: [vte_terminal_feed] loses and reorders nothing: with chunks whose
    arrays have the one size of a chunk and whose used part fits into it,
    feeding [length] bytes of a buffer returns, and the bytes in use of the
    incoming chunks, read in the order of [_vte_incoming_chunks_reverse], are
    those of before followed by the bytes fed; the chunks still fit their
    arrays and [_vte_incoming_chunks_length] has grown by [length].  A length
    of 0 changes nothing. *)
Theorem feed_keeps_bytes (g_new_chunk : _vte_incoming_chunk) (size : Z)
    (free_chunks incoming : list _vte_incoming_chunk) (data : list Byte.byte)
    (length_ : Z) :
  0 < size < 2 ^ 32 ->
  chunk_sized size g_new_chunk ->
  Forall (chunk_sized size) free_chunks ->
  Forall (chunk_ok size) incoming ->
  0 < length_ <= Z.of_nat (length data) ->
  (exists free' incoming',
     vte_terminal_feed g_new_chunk size free_chunks incoming data length_
     = Some (free', incoming')
     /\ chunks_bytes (_vte_incoming_chunks_reverse incoming')
        = chunks_bytes (_vte_incoming_chunks_reverse incoming)
          ++ take (Z.to_nat length_) data
     /\ Forall (chunk_ok size) incoming'
     /\ Forall (chunk_sized size) free'
     /\ _vte_incoming_chunks_length incoming'
        = _vte_incoming_chunks_length incoming + length_)
  /\ vte_terminal_feed g_new_chunk size free_chunks incoming data 0
     = Some (free_chunks, incoming).
Proof.
  intros Hsize Hnew Hfree Hinc Hlen. split; [|done].
  unfold vte_terminal_feed.
  replace (length_ =? -1) with false by lia. replace (length_ >? 0) with true by lia.
  replace (length_ >? Z.of_nat (length data)) with false by lia.
  setoid_rewrite chunks_reverse_rev.
  assert (Hfresh :
    exists free' incoming',
      (let '(chunk, free_chunks0) := get_chunk g_new_chunk free_chunks in
       match _vte_terminal_feed_chunks [chunk] incoming with
       | Some (chunk0 :: incoming0) =>
           feed_loop g_new_chunk size (Z.to_nat length_) free_chunks0 chunk0 incoming0
                     data length_
       | _ => None
       end) = Some (free', incoming')
      /\ chunks_bytes (rev incoming')
         = chunks_bytes (rev incoming) ++ take (Z.to_nat length_) data
      /\ Forall (chunk_ok size) incoming'
      /\ Forall (chunk_sized size) free'
      /\ _vte_incoming_chunks_length incoming'
         = _vte_incoming_chunks_length incoming + length_).
  { destruct (get_chunk_spec g_new_chunk size Hsize Hnew free_chunks Hfree)
      as (Hc0 & Hc0len & Hfree').
    destruct (get_chunk g_new_chunk free_chunks) as [chunk0 free0]. cbn [fst snd] in *.
    cbn [_vte_terminal_feed_chunks app].
    destruct (feed_loop_spec g_new_chunk size Hsize Hnew (Z.to_nat length_) free0 chunk0
                incoming data length_)
      as (free' & incoming' & -> & Hb & Hi & Hf & Hn); [done|done|lia|done|done|lia|].
    exists free', incoming'. split; [done|]. split; [|split; [done|split; [done|]]].
    - rewrite Hb, chunks_bytes_rev_cons.
      assert (chunk_bytes chunk0 = []) as ->
        by (unfold chunk_bytes; by rewrite Hc0len).
      by rewrite app_nil_r.
    - rewrite Hn. cbn [_vte_incoming_chunks_length]. lia. }
  destruct incoming as [|head next]; [done|].
  apply Forall_cons in Hinc as [Hhead Hnext].
  unfold to_gsize. rewrite Z.mod_small by (destruct Hhead; lia).
  destruct (Z.ltb_spec length_ (size - chunk_len head)) as [E|E]; [|done].
  destruct (feed_loop_spec g_new_chunk size Hsize Hnew (Z.to_nat length_) free_chunks head
              next data length_)
    as (free' & incoming' & -> & Hb & Hi & Hf & Hn); [done|done|lia|done|done|lia|].
  by exists free', incoming'.
Qed.

Lemma feed_keeps_bytes_witness :
  exists free' incoming',
    vte_terminal_feed (mkChunk 0 [Byte.x00; Byte.x00]) 2 []
      [mkChunk 1 [Byte.x61; Byte.x00]] [Byte.x62; Byte.x63; Byte.x64] 3
    = Some (free', incoming')
    /\ chunks_bytes (_vte_incoming_chunks_reverse incoming') = [Byte.x61; Byte.x62; Byte.x63; Byte.x64].
Proof.
  assert (Hinc : Forall (chunk_ok 2) [mkChunk 1 [Byte.x61; Byte.x00]]).
  { apply Forall_cons_2; [|apply Forall_nil_2]. split; [cbn [chunk_len]; lia|reflexivity]. }
  assert (Hlen : 0 < 3 <= Z.of_nat (length [Byte.x62; Byte.x63; Byte.x64]))
    by (cbn [length]; lia).
  destruct (proj1 (feed_keeps_bytes (mkChunk 0 [Byte.x00; Byte.x00]) 2 []
                     [mkChunk 1 [Byte.x61; Byte.x00]] [Byte.x62; Byte.x63; Byte.x64] 3
                     ltac:(lia) eq_refl (Forall_nil_2 _) Hinc Hlen))
    as (free' & incoming' & H1 & H2 & _).
  exists free', incoming'. split; [exact H1|exact H2].
Defined.

(** ** Filling an array *)

Lemma array_fill_loop_spec {A : Type} (fuel : nat) (array : list A) (item : A) :
  (0 < fuel)%nat ->
  Z.of_nat fuel < 2 ^ 32 ->
  array_fill_loop fuel array item (Z.of_nat fuel) = Some (array ++ replicate fuel item).
Proof.
  revert array. induction fuel as [|fuel IH]; intros array Hpos Hsmall; [lia|].
  cbn [array_fill_loop]. unfold to_guint.
  replace (Z.of_nat (S fuel) - 1) with (Z.of_nat fuel) by lia.
  rewrite Z.mod_small by lia.
  destruct (Z.eqb_spec (Z.of_nat fuel) 0) as [E|E].
  - by replace fuel with 0%nat by lia.
  - rewrite IH by lia. by rewrite <- app_assoc.
Qed.

(** X22: [vte_g_array_fill] brings an array to the length [final_size] by
    appending copies of [item] and leaves an array that is long enough as it
    is: the guard in front of the [do ... while (--final_size)] loop keeps
    the counter from starting at 0, so the loop ends after
    [final_size - len] turns. *)
Theorem g_array_fill_length {A : Type} (array : list A) (item : A) (final_size : Z) :
  0 <= final_size < 2 ^ 32 ->
  Z.of_nat (length array) < 2 ^ 32 ->
  exists array',
    vte_g_array_fill array item final_size = Some array'
    /\ array' = array ++ replicate (Z.to_nat final_size - length array) item
    /\ Z.of_nat (length array') = Z.max (Z.of_nat (length array)) final_size.
Proof.
  intros Hf Hlen. unfold vte_g_array_fill.
  destruct (Z.geb_spec (Z.of_nat (length array)) final_size) as [E|E].
  - exists array. split; [done|].
    replace (Z.to_nat final_size - length array)%nat with 0%nat by lia.
    cbn [replicate]. rewrite app_nil_r. split; [done|lia].
  - unfold to_guint. rewrite Z.mod_small by lia.
    set (n := Z.to_nat (final_size - Z.of_nat (length array))).
    replace (final_size - Z.of_nat (length array)) with (Z.of_nat n) by lia.
    rewrite array_fill_loop_spec by lia. eexists. split; [done|].
    replace (Z.to_nat final_size - length array)%nat with n by lia.
    split; [done|]. rewrite length_app, length_replicate. lia.
Qed.

Lemma g_array_fill_length_witness :
  exists array',
    vte_g_array_fill [1; 2] 0 5 = Some array'
    /\ array' = [1; 2] ++ replicate (Z.to_nat 5 - length [1; 2]) 0
    /\ Z.of_nat (length array') = Z.max (Z.of_nat (length [1; 2])) 5.
Proof.
  apply (g_array_fill_length [1; 2] 0 5); [lia|cbn [length]; lia].
Defined.

(** ** Building the word character table *)

Ltac loop_goes_on :=
  match goal with
  | |- context [?x <? ?y] => destruct (Z.ltb_spec x y); [|lia]
  end.

Ltac loop_ends :=
  match goal with
  | |- context [?x <? ?y] => destruct (Z.ltb_spec x y); [lia|]
  end.

Lemma set_word_chars_from_plain (pre before after : list Z) (x : Z) (fuel : nat)
    (n : Z) (acc : list VteWordCharRange) :
  Forall (fun c => c <> 45) pre ->
  x <> 45 ->
  Z.of_nat (length before + length pre) <= n ->
  set_word_chars_from (length pre + fuel) (before ++ pre ++ x :: after) n
                      (Z.of_nat (length before)) acc
  = set_word_chars_from fuel (before ++ pre ++ x :: after) n
                        (Z.of_nat (length before + length pre))
                        (acc ++ map single_range pre).
Proof.
  revert before acc. induction pre as [|c pre IH]; intros before acc Hpre Hx Hn.
  - cbn [length map Nat.add]. by rewrite Nat.add_0_r, app_nil_r.
  - apply Forall_cons in Hpre as [Hc Hpre]. cbn [length] in Hn.
    cbn [length Nat.add set_word_chars_from].
    replace (Z.of_nat (length before) <? n) with true by lia.
    rewrite Nat2Z.id.
    assert (H0 : (before ++ (c :: pre) ++ x :: after) !! length before = Some c)
      by (by rewrite lookup_app_r, Nat.sub_diag by lia).
    rewrite H0. replace (c =? 45) with false by lia.
    assert (H1 : exists w1, (before ++ (c :: pre) ++ x :: after)
                              !! Z.to_nat (Z.of_nat (length before) + 1) = Some w1
                            /\ w1 <> 45).
    { replace (Z.to_nat (Z.of_nat (length before) + 1)) with (S (length before)) by lia.
      rewrite lookup_app_r by lia.
      replace (S (length before) - length before)%nat with 1%nat by lia.
      destruct pre as [|c' pre']; cbn.
      - by exists x.
      - exists c'. split; [done|]. by apply Forall_cons in Hpre as [? _]. }
    destruct H1 as (w1 & -> & Hw1). replace (w1 =? 45) with false by lia.
    cbn [negb].
    replace (before ++ (c :: pre) ++ x :: after)
      with ((before ++ [c]) ++ pre ++ x :: after) by (by rewrite <- app_assoc).
    replace (Z.of_nat (length before) + 1)
      with (Z.of_nat (length (before ++ [c]))) by (rewrite length_app; cbn; lia).
    rewrite IH; [|done|done|rewrite length_app; cbn [length]; lia].
    cbn [map]. f_equal; [rewrite length_app; cbn [length]; f_equal; lia|].
    by rewrite <- app_assoc.
Qed.

Lemma in_single_ranges (chars : list Z) (c : Z) :
  in_word_char_ranges (map single_range chars) c = true <-> c ∈ chars.
Proof.
  induction chars as [|a chars IH]; cbn [map in_word_char_ranges].
  - split; [done|]. by intros ?%elem_of_nil.
  - cbn [single_range range_start range_end]. rewrite elem_of_cons.
    destruct (Z.geb_spec c a); destruct (Z.leb_spec c a); cbn [andb];
      try (rewrite IH; split; [by right|intros [?|?]; [lia|done]]).
    split; [intros _; left; lia|done].
Qed.

(** X23: a spec without hyphens, every character of which took one byte (so
    that the NUL which the code stores behind the spec follows the converted
    characters), gives the table of its characters, one range each, in their
    order.  With that table [vte_terminal_is_word_char] holds for the
    characters of the spec and, among the characters below 128, for no other
    one. *)
Theorem word_chars_of_plain_spec (u : GUnichar) (chars rest : list Z) (c : Z) :
  Forall (fun c => c <> 45) chars ->
  set_word_chars_loop (chars ++ 0 :: rest) (Z.of_nat (length chars))
  = Some (map single_range chars)
  /\ (c ∈ chars ->
      vte_terminal_is_word_char u (Some (map single_range chars)) c = true)
  /\ (c ∉ chars -> chars <> [] -> c < 128 ->
      vte_terminal_is_word_char u (Some (map single_range chars)) c = false).
Proof.
  intros Hplain. split; [|split].
  - unfold set_word_chars_loop. rewrite Nat2Z.id.
    pose proof (set_word_chars_from_plain chars [] rest 0 0 (Z.of_nat (length chars)) []
                  Hplain ltac:(lia) ltac:(cbn [length]; lia)) as H.
    rewrite Nat.add_0_r in H. cbn [app length] in H.
    change (Z.of_nat 0) with 0 in H. rewrite H.
    cbn [Nat.add set_word_chars_from].
    by replace (Z.of_nat (length chars) <? Z.of_nat (length chars)) with false by lia.
  - intros Hin. unfold vte_terminal_is_word_char.
    by rewrite (proj2 (in_single_ranges chars c) Hin).
  - intros Hout Hne Hc. unfold vte_terminal_is_word_char.
    destruct (in_word_char_ranges (map single_range chars) c) eqn:E;
      [by apply in_single_ranges in E|].
    replace (c >=? 128) with false by lia. rewrite length_map.
    by destruct chars.
Qed.

Lemma word_chars_of_plain_spec_witness :
  set_word_chars_loop ([97; 95] ++ 0 :: [7]) (Z.of_nat (length [97; 95]))
  = Some (map single_range [97; 95]).
Proof.
  apply (proj1 (word_chars_of_plain_spec sample_unichar [97; 95] [7] 97
                  ltac:(repeat constructor; lia))).
Defined.

(** X24: a hyphen between two characters, in a spec that has no other
    hyphen and every character of which took one byte, gives one range from
    the character before it to the character behind it, between the single
    ranges of the other characters; a hyphen at the very end of such a spec
    gives the range of the hyphen alone and the character in front of it is
    dropped. *)
Theorem word_chars_of_range_spec (pre post rest : list Z) (a b : Z) :
  Forall (fun c => c <> 45) pre ->
  Forall (fun c => c <> 45) post ->
  a <> 45 ->
  (b <> 45 -> b <> 0 ->
   set_word_chars_loop ((pre ++ [a; 45; b] ++ post) ++ 0 :: rest)
                       (Z.of_nat (length (pre ++ [a; 45; b] ++ post)))
   = Some (map single_range pre ++ [mkRange a b] ++ map single_range post))
  /\ set_word_chars_loop ((pre ++ [a; 45]) ++ 0 :: rest)
                         (Z.of_nat (length (pre ++ [a; 45])))
     = Some (map single_range pre ++ [mkRange 45 45]).
Proof.
  intros Hpre Hpost Ha. split.
  - intros Hb Hb0. unfold set_word_chars_loop. rewrite Nat2Z.id.
    rewrite !length_app. cbn [length].
    replace (length pre + (3 + length post))%nat
      with (length pre + S (length post + 2))%nat by lia.
    replace ((pre ++ [a; 45; b] ++ post) ++ 0 :: rest)
      with ([] ++ pre ++ a :: (45 :: b :: post ++ 0 :: rest))
      by (cbn [app]; by rewrite <- !app_assoc).
    rewrite (set_word_chars_from_plain pre [] _ a); [|done|done|cbn [length]; lia].
    cbn [length app Nat.add set_word_chars_from].
    loop_goes_on.
    rewrite Nat2Z.id.
    replace (Z.to_nat (Z.of_nat (length pre) + 1)) with (S (length pre)) by lia.
    replace (Z.to_nat (Z.of_nat (length pre) + 2)) with (S (S (length pre))) by lia.
    rewrite !lookup_app_r by lia.
    rewrite Nat.sub_diag.
    replace (S (length pre) - length pre)%nat with 1%nat by lia.
    replace (S (S (length pre)) - length pre)%nat with 2%nat by lia.
    cbn [lookup list_lookup].
    replace (a =? 45) with false by lia. cbn [Z.eqb negb].
    replace (b =? 45) with false by lia. replace (b =? 0) with false by lia.
    cbn [negb andb].
    replace (pre ++ a :: 45 :: b :: post ++ 0 :: rest)
      with ((pre ++ [a; 45; b]) ++ post ++ 0 :: rest) by (by rewrite <- app_assoc).
    replace (Z.of_nat (length pre) + 2 + 1)
      with (Z.of_nat (length (pre ++ [a; 45; b])))
      by (rewrite length_app; cbn [length]; lia).
    rewrite (set_word_chars_from_plain post (pre ++ [a; 45; b]) rest 0);
      [|done|done|rewrite length_app; cbn [length]; lia].
    cbn [set_word_chars_from].
    match goal with |- context [?x <? ?y] =>
      destruct (Z.ltb_spec x y) as [Hlt|_];
        [rewrite !length_app in Hlt; cbn [length] in Hlt; lia|] end.
    by rewrite <- !app_assoc.
  - unfold set_word_chars_loop. rewrite Nat2Z.id.
    rewrite !length_app. cbn [length].
    replace (length pre + 2)%nat with (length pre + 2)%nat by lia.
    replace ((pre ++ [a; 45]) ++ 0 :: rest)
      with ([] ++ pre ++ a :: (45 :: 0 :: rest))
      by (cbn [app]; by rewrite <- !app_assoc).
    rewrite (set_word_chars_from_plain pre [] _ a); [|done|done|cbn [length]; lia].
    cbn [length app Nat.add set_word_chars_from].
    loop_goes_on.
    rewrite Nat2Z.id.
    replace (Z.to_nat (Z.of_nat (length pre) + 1)) with (S (length pre)) by lia.
    replace (Z.to_nat (Z.of_nat (length pre) + 2)) with (S (S (length pre))) by lia.
    rewrite !lookup_app_r by lia.
    rewrite Nat.sub_diag.
    replace (S (length pre) - length pre)%nat with 1%nat by lia.
    replace (S (S (length pre)) - length pre)%nat with 2%nat by lia.
    cbn [lookup list_lookup].
    replace (a =? 45) with false by lia.
    change (45 =? 45) with true. change (0 =? 45) with false.
    change (0 =? 0) with true. cbn [negb andb].
    loop_goes_on. loop_ends. done.
Qed.

Lemma word_chars_of_range_spec_witness :
  set_word_chars_loop (([95] ++ [97; 45; 122] ++ [46]) ++ 0 :: [])
                      (Z.of_nat (length ([95] ++ [97; 45; 122] ++ [46])))
  = Some (map single_range [95] ++ [mkRange 97 122] ++ map single_range [46]).
Proof.
  apply (proj1 (word_chars_of_range_spec [95] [46] [] 97 122
                  ltac:(repeat constructor; lia) ltac:(repeat constructor; lia)
                  ltac:(lia)));
    lia.
Defined.

(** ** Row allocation, again *)

Section Allocation.

Implicit Types (t : VteTerminal) (r : VteRing).

(** The rows that [n] appends add are empty and the rows that are kept stay
    where they are. *)
Lemma ring_iter_append_rows (n : nat) r :
  ring_wf r ->
  forall i,
    ring_delta (Nat.iter n _vte_ring_append r) <= i
      < _vte_ring_next (Nat.iter n _vte_ring_append r) ->
    _vte_ring_index (Nat.iter n _vte_ring_append r) i
    = if i <? _vte_ring_next r then _vte_ring_index r i else Some empty_row.
Proof.
  intros Hwf. induction n as [|n IH]; intros i.
  - change (Nat.iter 0 _vte_ring_append r) with r. intros Hi.
    destruct (Z.ltb_spec i (_vte_ring_next r)); [done|lia].
  - change (Nat.iter (S n) _vte_ring_append r)
      with (_vte_ring_append (Nat.iter n _vte_ring_append r)).
    destruct (ring_iter_step_ok _vte_ring_append n r ring_append_step_ok Hwf)
      as (Hwf1 & Hm1 & Hn1 & Hd1 & _ & _).
    set (r1 := Nat.iter n _vte_ring_append r) in *.
    unfold _vte_ring_append.
    destruct (ring_insert_spec r1 (_vte_ring_next r1) Hwf1)
      as (_ & _ & Hn & Hd & _ & _ & Hlt & Hat & _).
    { split; [by apply ring_insert_delta_le_next|lia]. }
    intros Hi.
    destruct (decide (i = _vte_ring_next r1)) as [->|Hne].
    + rewrite Hat. destruct (Z.ltb_spec (_vte_ring_next r1) (_vte_ring_next r)); [lia|done].
    + rewrite Hlt by lia. apply IH. lia.
Qed.

(** What [_vte_terminal_ensure_row] does, in one formula. *)
Lemma ensure_row_eq t :
  terminal_ok t ->
  exists ra id sd,
    fst (_vte_terminal_ensure_row t) = scrolled ra (cursor_row t) id sd t
    /\ ring_wf ra
    /\ ring_delta ra <= id <= cursor_row t
    /\ cursor_row t < _vte_ring_next ra
    /\ (forall i, ring_delta ra <= i < _vte_ring_next ra ->
          _vte_ring_index ra i
          = if i <? _vte_ring_next (ring t) then _vte_ring_index (ring t) i
            else Some empty_row)
    /\ (cursor_row t < _vte_ring_next (ring t) ->
        fst (_vte_terminal_ensure_row t) = t).
Proof.
  intros (Hwf & Hord & Hreg). unfold _vte_terminal_ensure_row.
  destruct (Z.gtb_spec (cursor_row t - _vte_ring_next (ring t) + 1) 0) as [E|E];
    cbn [fst].
  - rewrite insert_rows_eq.
    set (n := Z.to_nat (cursor_row t - _vte_ring_next (ring t) + 1)).
    destruct (ring_iter_step_ok _vte_ring_append n (ring t) ring_append_step_ok Hwf)
      as (Hwf1 & Hm & Hn & Hd1 & Hd1' & _).
    pose proof (ring_iter_append_rows n (ring t) Hwf) as Hrows.
    set (ra := Nat.iter n _vte_ring_append (ring t)) in *.
    rewrite (adjust_adjustments_eq (set_ring ra t)).
    change (ring (set_ring ra t)) with ra.
    change (insert_delta (screen (set_ring ra t))) with (insert_delta (screen t)).
    change (scroll_delta (screen (set_ring ra t))) with (scroll_delta (screen t)).
    change (cursor_row (set_ring ra t)) with (cursor_row t).
    destruct Hwf as [Hmax Hlen].
    set (id := Z.max (insert_delta (screen t)) (ring_delta ra)).
    assert (Hid : ring_delta ra <= id <= cursor_row t) by lia.
    rewrite (Z.max_l (cursor_row t) id) by lia.
    eexists ra, id, _. split; [reflexivity|]. split; [done|]. split; [done|].
    split; [lia|]. split; [done|]. lia.
  - exists (ring t), (insert_delta (screen t)), (scroll_delta (screen t)).
    split; [by destruct t as [[? [] ? ? ? ? ? ? ? ? ? ? ? ?] ? ? ? ?]|].
    split; [done|]. split; [done|]. split; [lia|]. split; [|done].
    intros i Hi. by destruct (Z.ltb_spec i (_vte_ring_next (ring t))); [|lia].
Qed.

(** What [_vte_terminal_update_insert_delta] does, in one formula. *)
Lemma update_insert_delta_eq t :
  terminal_ok t ->
  exists ra,
    ring_wf ra
    /\ ring_max ra = ring_max (ring t)
    /\ _vte_ring_next ra = Z.max (_vte_ring_next (ring t)) (cursor_row t + 1)
    /\ ring_delta (ring t) <= ring_delta ra <= cursor_row t
    /\ ring_delta ra <= Z.max (ring_delta (ring t)) (_vte_ring_next ra - ring_max ra)
    /\ (forall i, ring_delta ra <= i < _vte_ring_next ra ->
          _vte_ring_index ra i
          = if i <? _vte_ring_next (ring t) then _vte_ring_index (ring t) i
            else Some empty_row)
    /\ (cursor_row t < _vte_ring_next (ring t) -> ra = ring t)
    /\ let delta :=
         Z.max (Z.max (Z.min (insert_delta (screen t)) (_vte_ring_next ra - row_count t))
                      (cursor_row t - (row_count t - 1)))
               (ring_delta ra) in
       _vte_terminal_update_insert_delta t
       = if delta =? insert_delta (screen t) then set_ring ra t
         else scrolled ra (Z.max (cursor_row t) delta) delta
                       (if scroll_delta (screen t) >? delta then delta
                        else scroll_delta (screen t)) t.
Proof.
  intros (Hwf & Hord & Hreg). unfold _vte_terminal_update_insert_delta.
  set (t1 := if _ >? 0 then _ else t).
  assert (H1 : exists ra,
    t1 = set_ring ra t
    /\ ring_wf ra
    /\ ring_max ra = ring_max (ring t)
    /\ _vte_ring_next ra = Z.max (_vte_ring_next (ring t)) (cursor_row t + 1)
    /\ ring_delta (ring t) <= ring_delta ra <= cursor_row t
    /\ ring_delta ra <= Z.max (ring_delta (ring t)) (_vte_ring_next ra - ring_max ra)
    /\ (forall i, ring_delta ra <= i < _vte_ring_next ra ->
          _vte_ring_index ra i
          = if i <? _vte_ring_next (ring t) then _vte_ring_index (ring t) i
            else Some empty_row)
    /\ (cursor_row t < _vte_ring_next (ring t) -> ra = ring t)).
  { subst t1.
    destruct (Z.gtb_spec (cursor_row t - _vte_ring_next (ring t) + 1) 0) as [E|E].
    - rewrite insert_rows_eq.
      set (n := Z.to_nat (cursor_row t - _vte_ring_next (ring t) + 1)).
      destruct (ring_iter_step_ok _vte_ring_append n (ring t) ring_append_step_ok Hwf)
        as (Hwf1 & Hm & Hn & Hd1 & Hd1' & _).
      pose proof (ring_iter_append_rows n (ring t) Hwf) as Hrows.
      set (ra := Nat.iter n _vte_ring_append (ring t)) in *.
      destruct Hwf as [Hmax Hlen].
      exists ra. split; [done|]. split; [done|]. split; [done|]. split; [lia|].
      split; [lia|]. split; [rewrite Hm; lia|]. split; [done|]. lia.
    - exists (ring t). split; [by rewrite set_ring_id|]. split; [done|].
      split; [done|]. split; [lia|]. split; [lia|]. destruct Hwf as [Hmax Hlen].
      split; [lia|]. split; [|done].
      intros i Hi. by destruct (Z.ltb_spec i (_vte_ring_next (ring t))); [|lia]. }
  destruct H1 as (ra & Ht1 & Hwf1 & Hm & Hn & Hd & Hd' & Hrows & Hsame).
  exists ra. do 7 (split; [done|]). cbv zeta. rewrite Ht1.
  change (ring (set_ring ra t)) with ra.
  change (insert_delta (screen (set_ring ra t))) with (insert_delta (screen t)).
  change (cursor_row (set_ring ra t)) with (cursor_row t).
  change (row_count (set_ring ra t)) with (row_count t).
  unfold _vte_ring_delta.
  set (delta := Z.max (Z.max (Z.min _ _) _) (ring_delta ra)).
  destruct (delta =? insert_delta (screen t)); [done|].
  rewrite adjust_adjustments_eq.
  change (ring (set_screen _ (set_ring ra t))) with ra.
  change (insert_delta (screen (set_screen (set_insert_delta delta _) (set_ring ra t))))
    with delta.
  change (scroll_delta (screen (set_screen (set_insert_delta delta _) (set_ring ra t))))
    with (scroll_delta (screen t)).
  change (cursor_row (set_screen (set_insert_delta delta _) (set_ring ra t)))
    with (cursor_row t).
  rewrite (Z.max_l delta (ring_delta ra)) by lia. reflexivity.
Qed.

End Allocation.

(** X25: [_vte_terminal_ensure_row] on a terminal in order returns the row
    of the cursor and afterwards that row is in the ring; the cursor has not
    moved; the terminal is in order again; the rows of before that are still
    in the ring are unchanged and the rows added are empty; a second call
    changes nothing, and neither does the first when the row was there. *)
Theorem ensure_row_allocates (t : VteTerminal) :
  terminal_ok t ->
  let t' := fst (_vte_terminal_ensure_row t) in
  snd (_vte_terminal_ensure_row t) = cursor_row t
  /\ cursor_current (screen t') = cursor_current (screen t)
  /\ _vte_ring_contains (ring t') (cursor_row t) = true
  /\ terminal_ok t'
  /\ (forall i, ring_delta (ring t') <= i < _vte_ring_next (ring t') ->
        _vte_ring_index (ring t') i
        = if i <? _vte_ring_next (ring t) then _vte_ring_index (ring t) i
          else Some empty_row)
  /\ _vte_terminal_ensure_row t' = (t', cursor_row t)
  /\ (cursor_row t < _vte_ring_next (ring t) -> t' = t).
Proof.
  intros Hok t'. subst t'.
  destruct (ensure_row_eq t Hok) as (ra & id & sd & Ht' & Hwf & Hid & Hin & Hrows & Hsame).
  split; [by rewrite (ensure_row_snd t)|]. rewrite Ht'.
  change (ring (scrolled ra (cursor_row t) id sd t)) with ra.
  split; [by destruct t as [[? [] ? ? ? ? ? ? ? ? ? ? ? ?] ? ? ? ?]|].
  split; [apply ring_contains_iff; lia|].
  split.
  { split; [done|]. split; [exact Hid|]. destruct Hok as (_ & _ & Hreg). exact Hreg. }
  split; [done|]. split; [|by rewrite <- Ht'].
  by rewrite ensure_row_contained.
Qed.

Lemma ensure_row_allocates_witness :
  _vte_ring_contains (ring (fst (_vte_terminal_ensure_row fresh_terminal)))
                     (cursor_row fresh_terminal) = true.
Proof.
  assert (Hok : terminal_ok fresh_terminal).
  { split; [split; vm_compute; congruence|]. split; [vm_compute; split; congruence|].
    vm_compute. congruence. }
  exact (proj1 (proj2 (proj2 (ensure_row_allocates fresh_terminal Hok)))).
Defined.

Lemma xterm_fill_row_default (t : VteTerminal) :
  attr_back (cell_attr (fill_defaults (screen t))) = VTE_DEF_BG ->
  xterm_fill_row t = t.
Proof. intros H. unfold xterm_fill_row. by rewrite H, Z.eqb_refl. Qed.

(** X26: [_vte_terminal_update_insert_delta] on a terminal in order, with at
    least one row on the screen, brings the cursor into view: afterwards the
    row of the cursor is in the ring and among the [row_count] rows from
    [insert_delta] on; the cursor has not moved; the terminal is in order
    again; the rows of before that are still in the ring are unchanged and
    the rows added are empty; a second call changes nothing. *)
Theorem update_insert_delta_shows_cursor (t : VteTerminal) :
  terminal_ok t ->
  0 < row_count t ->
  let t' := _vte_terminal_update_insert_delta t in
  terminal_ok t'
  /\ cursor_current (screen t') = cursor_current (screen t)
  /\ _vte_ring_contains (ring t') (cursor_row t) = true
  /\ insert_delta (screen t') <= cursor_row t < insert_delta (screen t') + row_count t
  /\ (forall i, ring_delta (ring t') <= i < _vte_ring_next (ring t') ->
        _vte_ring_index (ring t') i
        = if i <? _vte_ring_next (ring t) then _vte_ring_index (ring t) i
          else Some empty_row)
  /\ _vte_terminal_update_insert_delta t' = t'.
Proof.
  intros Hok Hrc t'.
  destruct (update_insert_delta_eq t Hok)
    as (ra & Hwf & Hm & Hn & Hd & Hd' & Hrows & Hsame & Heq).
  cbv zeta in Heq.
  set (delta := Z.max (Z.max (Z.min _ _) _) (ring_delta ra)) in Heq.
  destruct Hok as (Hwf0 & Hord & Hreg).
  assert (Hdelta : ring_delta ra <= delta <= cursor_row t
                   /\ cursor_row t < delta + row_count t) by lia.
  assert (Hform : exists sd,
             t' = scrolled ra (cursor_row t) delta sd t).
  { subst t'. rewrite Heq. destruct (Z.eqb_spec delta (insert_delta (screen t))) as [E|E].
    - exists (scroll_delta (screen t)). rewrite E.
      by destruct t as [[? [] ? ? ? ? ? ? ? ? ? ? ? ?] ? ? ? ?].
    - eexists. by rewrite (Z.max_l (cursor_row t) delta) by lia. }
  destruct Hform as (sd & Ht'). clearbody t'. subst t'.
  change (ring (scrolled ra (cursor_row t) delta sd t)) with ra.
  change (insert_delta (screen (scrolled ra (cursor_row t) delta sd t))) with delta.
  assert (Hok' : terminal_ok (scrolled ra (cursor_row t) delta sd t)).
  { split; [done|]. split; [exact (proj1 Hdelta)|exact Hreg]. }
  split; [done|].
  split; [by destruct t as [[? [] ? ? ? ? ? ? ? ? ? ? ? ?] ? ? ? ?]|].
  split; [apply ring_contains_iff; lia|]. split; [lia|]. split; [done|].
  destruct (update_insert_delta_eq _ Hok')
    as (ra2 & _ & _ & _ & _ & _ & _ & Hsame2 & Heq2).
  cbv zeta in Heq2. rewrite Heq2.
  change (ring (scrolled ra (cursor_row t) delta sd t)) with ra in *.
  change (cursor_row (scrolled ra (cursor_row t) delta sd t)) with (cursor_row t) in *.
  change (row_count (scrolled ra (cursor_row t) delta sd t)) with (row_count t).
  change (insert_delta (screen (scrolled ra (cursor_row t) delta sd t))) with delta.
  rewrite (Hsame2 ltac:(lia)).
  match goal with |- context [?x =? delta] =>
    destruct (Z.eqb_spec x delta) as [_|Hne]; [|exfalso; apply Hne; lia] end.
  apply (set_ring_id (scrolled ra (cursor_row t) delta sd t)).
Qed.

Lemma update_insert_delta_shows_cursor_witness :
  _vte_ring_contains (ring (_vte_terminal_update_insert_delta fresh_terminal))
                     (cursor_row fresh_terminal) = true.
Proof.
  assert (Hok : terminal_ok fresh_terminal).
  { split; [split; vm_compute; congruence|]. split; [vm_compute; split; congruence|].
    vm_compute. congruence. }
  exact (proj1 (proj2 (proj2 (update_insert_delta_shows_cursor fresh_terminal Hok
                                eq_refl)))).
Defined.

(** X27: a line feed on the bottom row of a screen without scrolling region,
    when that row is the last one of the ring, the ring has room for a
    screen and no background colour is set, scrolls by one row: the cursor
    goes down by one row and keeps its column, [insert_delta] goes up by one,
    one empty row is added to the ring for the cursor, the rows of before
    that are still in the ring are unchanged, and [scroll_delta] stays where
    it is unless it was beyond the new [insert_delta]. *)
Theorem cursor_down_unrestricted_scrolls (t : VteTerminal) :
  terminal_ok t ->
  scrolling_restricted (screen t) = false ->
  attr_back (cell_attr (fill_defaults (screen t))) = VTE_DEF_BG ->
  0 < row_count t <= ring_max (ring t) ->
  cursor_row t = insert_delta (screen t) + row_count t - 1 ->
  _vte_ring_next (ring t) = cursor_row t + 1 ->
  let t' := _vte_terminal_cursor_down t in
  cursor_current (screen t') = mkPos (cursor_row t + 1) (cursor_col t)
  /\ insert_delta (screen t') = insert_delta (screen t) + 1
  /\ scroll_delta (screen t')
     = Z.min (scroll_delta (screen t)) (insert_delta (screen t) + 1)
  /\ _vte_ring_next (ring t') = _vte_ring_next (ring t) + 1
  /\ _vte_ring_index (ring t') (cursor_row t + 1) = Some empty_row
  /\ (forall i, ring_delta (ring t') <= i <= cursor_row t ->
        _vte_ring_index (ring t') i = _vte_ring_index (ring t) i)
  /\ terminal_ok t'.
Proof.
  intros Hok Hunr Hback Hrc Hbottom Hlast t'.
  set (t0 := set_cursor_row (cursor_row t + 1) t).
  assert (Ht' : t' = _vte_terminal_update_insert_delta t0).
  { subst t'. unfold _vte_terminal_cursor_down. rewrite Hunr.
    replace (cursor_row t =? insert_delta (screen t) + row_count t - 1) with true by lia.
    rewrite (xterm_fill_row_default t Hback), Hunr. fold t0.
    apply xterm_fill_row_default.
    destruct (update_insert_delta_eq t0) as (ra & _ & _ & _ & _ & _ & _ & _ & Heq).
    { destruct Hok as (Hwf & Hord & Hreg). split; [done|]. split; [|done].
      change (ring t0) with (ring t).
      change (insert_delta (screen t0)) with (insert_delta (screen t)).
      change (cursor_row t0) with (cursor_row t + 1). lia. }
    cbv zeta in Heq. rewrite Heq.
    match goal with |- context [if ?c then set_ring ra t0 else _] => destruct c end;
      exact Hback. }
  clearbody t'. subst t'.
  assert (Hok0 : terminal_ok t0).
  { destruct Hok as (Hwf & Hord & Hreg). split; [done|]. split; [|done].
    change (ring t0) with (ring t).
    change (insert_delta (screen t0)) with (insert_delta (screen t)).
    change (cursor_row t0) with (cursor_row t + 1). lia. }
  destruct (update_insert_delta_eq t0 Hok0)
    as (ra & Hwf & Hm & Hn & Hd & Hd' & Hrows & _ & Heq).
  cbv zeta in Heq. rewrite Heq. clear Heq.
  change (ring t0) with (ring t) in *.
  change (insert_delta (screen t0)) with (insert_delta (screen t)) in *.
  change (scroll_delta (screen t0)) with (scroll_delta (screen t)) in *.
  change (cursor_row t0) with (cursor_row t + 1) in *.
  change (row_count t0) with (row_count t) in *.
  destruct Hok as (Hwf0 & Hord & Hreg). destruct Hwf0 as [Hmax Hlen].
  set (delta := Z.max (Z.max (Z.min _ _) _) (ring_delta ra)).
  assert (Hdelta : delta = insert_delta (screen t) + 1) by lia.
  destruct (Z.eqb_spec delta (insert_delta (screen t))) as [E|_]; [lia|].
  rewrite (Z.max_l (cursor_row t + 1) delta) by lia.
  set (sd := if scroll_delta (screen t) >? delta then delta else scroll_delta (screen t)).
  assert (Hsd : sd = Z.min (scroll_delta (screen t)) (insert_delta (screen t) + 1))
    by (subst sd; destruct (Z.gtb_spec (scroll_delta (screen t)) delta); lia).
  change (ring (scrolled ra (cursor_row t + 1) delta sd t0)) with ra.
  change (insert_delta (screen (scrolled ra (cursor_row t + 1) delta sd t0))) with delta.
  change (scroll_delta (screen (scrolled ra (cursor_row t + 1) delta sd t0))) with sd.
  change (cursor_current (screen (scrolled ra (cursor_row t + 1) delta sd t0)))
    with (mkPos (cursor_row t + 1) (cursor_col t)).
  split; [done|]. split; [done|]. split; [done|]. split; [lia|].
  split; [|split].
  - rewrite Hrows by lia. by destruct (Z.ltb_spec (cursor_row t + 1) (_vte_ring_next (ring t))); [lia|].
  - intros i Hi. rewrite Hrows by lia.
    by destruct (Z.ltb_spec i (_vte_ring_next (ring t))); [|lia].
  - split; [done|]. split; [|exact Hreg].
    change (ring_delta ra <= delta <= cursor_row t + 1). lia.
Qed.

Lemma cursor_down_unrestricted_scrolls_witness :
  cursor_current (screen (_vte_terminal_cursor_down bottom_row_terminal)) = mkPos 2 0
  /\ insert_delta (screen (_vte_terminal_cursor_down bottom_row_terminal)) = 1.
Proof.
  assert (Hok : terminal_ok bottom_row_terminal).
  { split; [split; vm_compute; congruence|]. split; [vm_compute; split; congruence|].
    vm_compute. congruence. }
  assert (Hrc : 0 < row_count bottom_row_terminal <= ring_max (ring bottom_row_terminal))
    by (vm_compute; split; congruence).
  destruct (cursor_down_unrestricted_scrolls bottom_row_terminal Hok eq_refl eq_refl Hrc
              eq_refl eq_refl) as (Hc & Hi & _).
  split; [exact Hc|exact Hi].
Defined.

(** ** Expanding the selection *)

Lemma last_nonempty_total (l : list VteCell) (i : nat) :
  (i <= length l)%nat ->
  exists k, last_nonempty l i = Some k /\ 0 <= k <= Z.of_nat i.
Proof.
  induction i as [|p IH]; intros Hi; cbn [last_nonempty].
  - exists 0. split; [done|lia].
  - destruct (lookup_lt_is_Some_2 l p ltac:(lia)) as [cell ->].
    destruct (cell_fragment cell || negb (cell_c cell =? 0)).
    + eexists. split; [done|lia].
    + destruct IH as (k & -> & Hk); [lia|]. exists k. split; [done|lia].
Qed.

Lemma line_is_wrappable_contains (t : VteTerminal) (j : Z) :
  vte_line_is_wrappable t j = true -> ring_delta (ring t) <= j < _vte_ring_next (ring t).
Proof.
  unfold vte_line_is_wrappable, _vte_screen_find_row_data.
  destruct (_vte_ring_index (row_data (screen t)) j) as [row|] eqn:E; [|done].
  intros _. by apply ring_index_Some in E as [? _].
Qed.

Lemma expand_line_up_spec (t : VteTerminal) (fuel : nat) (j : Z) :
  (vte_line_is_wrappable t (j - 1) = true ->
   (Z.to_nat (j - ring_delta (ring t)) <= fuel)%nat) ->
  exists s,
    expand_line_up t fuel j = Some s
    /\ s <= j
    /\ (forall k, s <= k < j -> vte_line_is_wrappable t k = true)
    /\ vte_line_is_wrappable t (s - 1) = false.
Proof.
  revert j. induction fuel as [|fuel IH]; intros j Hfuel; cbn [expand_line_up].
  - destruct (vte_line_is_wrappable t (j - 1)) eqn:E.
    + specialize (Hfuel eq_refl). apply line_is_wrappable_contains in E. lia.
    + rewrite andb_false_r. exists j. repeat split; [lia|intros; lia|done].
  - destruct (vte_line_is_wrappable t (j - 1)) eqn:E.
    + specialize (Hfuel eq_refl).
      pose proof (line_is_wrappable_contains t _ E) as Hin.
      rewrite (proj2 (ring_contains_iff (ring t) (j - 1)) Hin). cbn [andb].
      destruct (IH (j - 1)) as (s & -> & Hs & Hrun & Hstop); [intros _; lia|].
      exists s. split; [done|]. split; [lia|]. split; [|done].
      intros k Hk. destruct (decide (k = j - 1)) as [->|Hne]; [done|].
      apply Hrun. lia.
    + rewrite andb_false_r. exists j. repeat split; [lia|intros; lia|done].
Qed.

Lemma expand_line_down_spec (t : VteTerminal) (fuel : nat) (j : Z) :
  (vte_line_is_wrappable t j = true ->
   (Z.to_nat (_vte_ring_next (ring t) - j) <= fuel)%nat) ->
  exists e,
    expand_line_down t fuel j = Some e
    /\ j <= e
    /\ (forall k, j <= k < e -> vte_line_is_wrappable t k = true)
    /\ vte_line_is_wrappable t e = false.
Proof.
  revert j. induction fuel as [|fuel IH]; intros j Hfuel; cbn [expand_line_down].
  - destruct (vte_line_is_wrappable t j) eqn:E.
    + specialize (Hfuel eq_refl). apply line_is_wrappable_contains in E. lia.
    + rewrite andb_false_r. exists j. repeat split; [lia|intros; lia|done].
  - destruct (vte_line_is_wrappable t j) eqn:E.
    + specialize (Hfuel eq_refl).
      pose proof (line_is_wrappable_contains t _ E) as Hin.
      rewrite (proj2 (ring_contains_iff (ring t) j) Hin). cbn [andb].
      destruct (IH (j + 1)) as (e & -> & He & Hrun & Hstop); [intros _; lia|].
      exists e. split; [done|]. split; [lia|]. split; [|done].
      intros k Hk. destruct (decide (k = j)) as [->|Hne]; [done|].
      apply Hrun. lia.
    + rewrite andb_false_r. exists j. repeat split; [lia|intros; lia|done].
Qed.

Lemma expand_start_of_line_row (t : VteTerminal) (type : vte_selection_type)
    (sc ec : VteVisualPosition) :
  exists sc', expand_start_of_line t type sc ec = Some sc'
              /\ (type = selection_type_line -> pos_row sc' = pos_row sc).
Proof.
  unfold expand_start_of_line.
  destruct (_vte_screen_find_row_data (screen t) (pos_row sc)) as [rowdata|];
    [|by eexists].
  destruct (last_nonempty_total (cells rowdata) (length (cells rowdata)))
    as (i & -> & _); [done|].
  destruct type; cbn [andb]; rewrite ?andb_true_r, ?andb_false_r.
  - destruct (pos_col sc >=? i); [|by eexists].
    destruct (pos_row sc <? pos_row ec); by eexists.
  - destruct (pos_col sc >=? i); [|by eexists].
    destruct (pos_row sc <? pos_row ec); by eexists.
  - by eexists.
Qed.

Lemma expand_end_of_line_row (t : VteTerminal) (ec : VteVisualPosition) :
  exists ec', expand_end_of_line t ec = Some ec' /\ pos_row ec' = pos_row ec.
Proof.
  unfold expand_end_of_line.
  destruct (_vte_screen_find_row_data (screen t) (pos_row ec)) as [rowdata|].
  - destruct (last_nonempty_total (cells rowdata) (length (cells rowdata)))
      as (i & -> & _); [done|].
    destruct (pos_col ec >=? i); by eexists.
  - destruct (pos_col ec >=? 0); by eexists.
Qed.

(** X28: a selection by lines that is not in block mode is expanded to
    whole lines of text: [vte_terminal_extend_selection_expand] returns, the
    start goes to column 0 of the first row of the run of soft-wrapped rows
    that leads to the start row, the end goes down over the soft-wrapped rows
    from the end row on to the first row that is not soft-wrapped, and there
    to the column [column_count], or to the length of that row if it is
    longer. *)
Theorem expand_selects_whole_lines (iso : VteIso2022) (u : GUnichar)
    (word_chars : option (list VteWordCharRange)) (t : VteTerminal)
    (sel : VteSelection) :
  selection_block_mode sel = false ->
  selection_type sel = selection_type_line ->
  exists s e ecol,
    vte_terminal_extend_selection_expand iso u word_chars t sel
    = Some (set_selection_ends sel (mkPos s 0) (mkPos e ecol))
    /\ s <= pos_row (selection_start sel)
    /\ (forall k, s <= k < pos_row (selection_start sel) ->
          vte_line_is_wrappable t k = true)
    /\ vte_line_is_wrappable t (s - 1) = false
    /\ pos_row (selection_end sel) <= e
    /\ (forall k, pos_row (selection_end sel) <= k < e ->
          vte_line_is_wrappable t k = true)
    /\ vte_line_is_wrappable t e = false
    /\ ecol = match _vte_screen_find_row_data (screen t) e with
              | Some rowdata => Z.max (column_count t) (_vte_row_data_length rowdata)
              | None => column_count t
              end.
Proof.
  intros Hblock Hline. unfold vte_terminal_extend_selection_expand.
  rewrite Hblock, Hline.
  destruct (expand_start_of_line_row t selection_type_line (selection_start sel)
              (selection_end sel)) as (sc' & -> & Hsrow).
  destruct (expand_end_of_line_row t (selection_end sel)) as (ec' & -> & Herow).
  cbn [pos_row]. rewrite (Hsrow eq_refl), Herow.
  destruct (expand_line_up_spec t (length (ring_rows (ring t)))
              (pos_row (selection_start sel))) as (s & -> & Hs & Hsrun & Hsstop).
  { intros Hw. apply line_is_wrappable_contains in Hw.
    unfold _vte_ring_next, _vte_ring_length in Hw. lia. }
  destruct (expand_line_down_spec t (length (ring_rows (ring t)))
              (pos_row (selection_end sel))) as (e & -> & He & Herun & Hestop).
  { intros Hw. apply line_is_wrappable_contains in Hw.
    unfold _vte_ring_next, _vte_ring_length in *. lia. }
  eexists s, e, _. split; [reflexivity|]. do 6 (split; [done|]).
  unfold _vte_screen_find_row_data. change (row_data (screen t)) with (ring t).
  destruct (_vte_ring_contains (ring t) e) eqn:Ein; [done|].
  unfold _vte_ring_index. by rewrite Ein.
Qed.

Lemma expand_selects_whole_lines_witness :
  exists s e ecol,
    vte_terminal_extend_selection_expand sample_iso2022 sample_unichar None
      bottom_row_terminal
      (mkSelection true false selection_type_line (mkPos 1 3) (mkPos 1 3) false false)
    = Some (set_selection_ends
              (mkSelection true false selection_type_line (mkPos 1 3) (mkPos 1 3)
                           false false)
              (mkPos s 0) (mkPos e ecol))
    /\ s <= 1.
Proof.
  destruct (expand_selects_whole_lines sample_iso2022 sample_unichar None
              bottom_row_terminal
              (mkSelection true false selection_type_line (mkPos 1 3) (mkPos 1 3)
                           false false) eq_refl eq_refl)
    as (s & e & ecol & H1 & H2 & _).
  exists s, e, ecol. split; [exact H1|exact H2].
Defined.




(** * The line feed behind an autowrap *)

(** ** Where a line feed leaves the cursor *)

Section LineFeedCursor.

Implicit Types (t : VteTerminal) (r : VteRing).




End LineFeedCursor.

(** ** Autowrap at the right margin *)

Section AutowrapCursor.

Implicit Types (t : VteTerminal) (r : VteRing).





End AutowrapCursor.



